(** * JournalSphere: the fetch / cache / fallback / notify layer

    A shallow embedding of the service modules of the front-end:

    - [Journal]      the daily-journal module (quotes API, localStorage cache,
                     change detection, article-update listeners);
    - [MultiApi]     the multi-provider fallback aggregator;
    - [NewsService]  the unified article service with its poller;
    - [NewsServiceMediaStack]  the reads of the copy of the service that
                     takes its news from the MediaStack client.
    - [JournalFull], [PollerFull]  the change detection and the poller
                     once more, with listeners that may throw or change
                     the registry while it is traversed, and with every
                     case of the stored text.

    JavaScript values are modelled by their TypeScript types.  Asynchronous
    functions are state transformers returning a [completion]: [Normal v] for
    a promise that resolves to [v], [Thrown e] for one that rejects.  What the
    environment supplies at an [await] (the HTTP response, the clock, the
    random draws) is an explicit argument. *)

From Stdlib Require Import String Ascii List ZArith QArith Lqa Bool Lia.
From stdpp Require Import gmap.
Import ListNotations.
Open Scope string_scope.

(* ================================================================== *)
(** ** Completions and the state-and-exception monad                    *)
(* ================================================================== *)

Inductive JsError : Type :=
| SyntaxError      (* JSON.parse on malformed text *)
| TypeError        (* property access on null / undefined *)
| NetworkError     (* fetch rejected, or response.json() rejected *)
| StatusError (status : Z).  (* new Error(`API request failed with status ...`) *)

Inductive completion (A : Type) : Type :=
| Normal (a : A)
| Thrown (e : JsError).
Arguments Normal {A} a.
Arguments Thrown {A} e.

Definition M (S A : Type) : Type := S -> completion A * S.

Definition ret {S A} (a : A) : M S A := fun s => (Normal a, s).
Definition throw {S A} (e : JsError) : M S A := fun s => (Thrown e, s).
Definition bind {S A B} (m : M S A) (k : A -> M S B) : M S B :=
  fun s => match m s with
           | (Normal a, s') => k a s'
           | (Thrown e, s') => (Thrown e, s')
           end.
Definition get {S} : M S S := fun s => (Normal s, s).
Definition modify {S} (f : S -> S) : M S unit := fun s => (Normal tt, f s).

(** [try { body } catch (error) { handler }] *)
Definition try_catch {S A} (body : M S A) (handler : JsError -> M S A) : M S A :=
  fun s => match body s with
           | (Normal a, s') => (Normal a, s')
           | (Thrown e, s') => handler e s'
           end.

(** [try { body } finally { fin }]: [fin] runs on both exits; the
    completion of [body] is kept unless [fin] itself throws. *)
Definition try_finally {S A} (body : M S A) (fin : M S unit) : M S A :=
  fun s => match body s with
           | (c, s') => match fin s' with
                        | (Normal _, s'') => (c, s'')
                        | (Thrown e, s'') => (Thrown e, s'')
                        end
           end.

Declare Scope js_scope.
Delimit Scope js_scope with js.
Notation "'let*' x ':=' m 'in' k" := (bind m (fun x => k))
  (at level 10, x name, m at level 100, k at level 200) : js_scope.
Notation "'let*' ' p ':=' m 'in' k" :=
  (bind m (fun x => match x with p => k end))
  (at level 10, p pattern, m at level 100, k at level 200) : js_scope.
Notation "'exec' m 'in' k" := (bind m (fun _ => k))
  (at level 10, m at level 100, k at level 200) : js_scope.

(* ================================================================== *)
(** ** Strings and arrays as the code uses them                         *)
(* ================================================================== *)

(** [String.prototype.toLowerCase] on the ASCII range; bytes outside
    ['A'..'Z'] are left as they are. *)
Definition lower_ascii (c : ascii) : ascii :=
  let n := nat_of_ascii c in
  if (65 <=? n)%nat && (n <=? 90)%nat then ascii_of_nat (n + 32) else c.

Fixpoint toLowerCase (s : string) : string :=
  match s with
  | EmptyString => EmptyString
  | String c r => String (lower_ascii c) (toLowerCase r)
  end.

(** [s.includes(sub)] *)
Fixpoint includes (s sub : string) : bool :=
  String.prefix sub s ||
  match s with
  | EmptyString => false
  | String _ r => includes r sub
  end.

(** [arr.slice(0, end)] *)
Definition slice0 {A} (arr : list A) (e : Z) : list A :=
  if (e <? 0)%Z then firstn (Z.to_nat (Z.of_nat (length arr) + e)) arr
  else firstn (Z.to_nat e) arr.

(** [arr.join(sep)] *)
Definition join (sep : string) (arr : list string) : string := String.concat sep arr.

(** [Array.prototype.sort(cmp)].  The sort is stable and, for a consistent
    comparator, places [a] after [b] exactly when [cmp a b > 0].  Written as
    a stable insertion sort. *)
Section Sort.
Context {A : Type} (cmp : A -> A -> Q).

Definition comes_after (a b : A) : bool := negb (Qle_bool (cmp a b) 0).

Fixpoint sort_insert (x : A) (l : list A) : list A :=
  match l with
  | [] => [x]
  | y :: ys => if comes_after x y then y :: sort_insert x ys else x :: y :: ys
  end.

Fixpoint sort (l : list A) : list A :=
  match l with
  | [] => []
  | x :: xs => sort_insert x (sort xs)
  end.
End Sort.

(* ================================================================== *)
(** ** The article type (types/news)                                    *)
(* ================================================================== *)

Module News.
Definition Category : Type := string.

Record NewsArticle : Type := mkArticle {
  id : string;
  title : string;
  source : string;
  author : string;
  publishedAt : string;
  summary : string;
  content : string;
  imageUrl : string;
  url : string;
  categories : list Category;
  trending : bool;
  apiSource : option string
}.
End News.
Abbreviation NewsArticle := News.NewsArticle.
Abbreviation Category := News.Category.

(** Listeners are callback references; a registry holds them in
    subscription order.  Calling a listener is recorded in a log of the
    module that calls it; the call returns normally, as the listener types
    [(articles) => void] and [(isChecking) => void] have it. *)
Definition Listener : Type := nat.

(* ================================================================== *)
(** ** The daily-journal module                                         *)
(* ================================================================== *)

Module Journal.
Local Open Scope js_scope.

Record ThemeImage : Type := mkTheme {
  theme : string;
  keywords : list string;
  imageUrl : string;
  description : string
}.

Definition THEMED_JOURNAL_IMAGES : list ThemeImage := [
  mkTheme "mindfulness"
    ["mindful"; "present"; "awareness"; "meditation"; "breath"; "calm"; "peace"]
    "https://images.unsplash.com/photo-1506126613408-eca07ce68773?q=80&w=1000&auto=format&fit=crop"
    "Person meditating by a peaceful lake at sunrise";
  mkTheme "gratitude"
    ["grateful"; "thankful"; "appreciation"; "blessing"; "gift"; "abundance"]
    "https://images.unsplash.com/photo-1518609878373-06d740f60d8b?q=80&w=1000&auto=format&fit=crop"
    "Hands holding a small plant growing from soil, symbolizing gratitude and growth";
  mkTheme "nature"
    ["natural"; "outdoors"; "environment"; "earth"; "forest"; "mountain"; "ocean"; "wilderness"]
    "https://images.unsplash.com/photo-1441974231531-c6227db76b6e?q=80&w=1000&auto=format&fit=crop"
    "Sunlight streaming through a lush green forest";
  mkTheme "growth"
    ["develop"; "improve"; "progress"; "evolve"; "learn"; "journey"; "potential"]
    "https://images.unsplash.com/photo-1549576490-b0b4831ef60a?q=80&w=1000&auto=format&fit=crop"
    "New plant sprouting from soil, representing personal growth";
  mkTheme "reflection"
    ["reflect"; "contemplate"; "introspection"; "thought"; "consider"; "ponder"; "examine"]
    "https://images.unsplash.com/photo-1500462918059-b1a0cb512f1d?q=80&w=1000&auto=format&fit=crop"
    "Person looking at reflection in calm water";
  mkTheme "balance"
    ["equilibrium"; "harmony"; "stability"; "center"; "peace"; "moderation"]
    "https://images.unsplash.com/photo-1519834089823-af2d966a42c4?q=80&w=1000&auto=format&fit=crop"
    "Balanced stones stacked on a beach at sunset";
  mkTheme "wisdom"
    ["knowledge"; "insight"; "understanding"; "sage"; "philosophy"; "enlightenment"; "truth"]
    "https://images.unsplash.com/photo-1532012197267-da84d127e765?q=80&w=1000&auto=format&fit=crop"
    "Open book with light illuminating the pages";
  mkTheme "creativity"
    ["create"; "imagine"; "inspire"; "art"; "innovation"; "expression"; "original"]
    "https://images.unsplash.com/photo-1513364776144-60967b0f800f?q=80&w=1000&auto=format&fit=crop"
    "Colorful art supplies and creative workspace";
  mkTheme "courage"
    ["brave"; "strength"; "fearless"; "confidence"; "bold"; "daring"; "overcome"]
    "https://images.unsplash.com/photo-1520116468816-95b69f847357?q=80&w=1000&auto=format&fit=crop"
    "Person standing on mountain peak overlooking vast landscape";
  mkTheme "connection"
    ["relationship"; "community"; "bond"; "together"; "unity"; "friendship"; "love"]
    "https://images.unsplash.com/photo-1511632765486-a01980e01a18?q=80&w=1000&auto=format&fit=crop"
    "People holding hands in unity and support";
  mkTheme "simplicity"
    ["minimal"; "essential"; "clarity"; "focus"; "uncomplicated"; "basic"]
    "https://images.unsplash.com/photo-1473186505569-9c61870c11f9?q=80&w=1000&auto=format&fit=crop"
    "Minimalist scene with simple objects and clean lines";
  mkTheme "resilience"
    ["endure"; "overcome"; "persevere"; "adapt"; "recover"; "strength"; "determination"]
    "https://images.unsplash.com/photo-1485236715568-ddc5ee6ca227?q=80&w=1000&auto=format&fit=crop"
    "Plant growing through crack in concrete, symbolizing resilience"
].

(** *** findRelevantImage *)

(** The [{ theme, score }] objects of [themeScores].  A score is the
    quotient of two small naturals; on such quotients IEEE-754 division
    and subtraction order exactly as the rationals do, so scores are kept
    in [Q]. *)
Record ThemeScore : Type := mkScore { scored : ThemeImage; score : Q }.

Record RelevantImage : Type := mkImage { url : string; imgDescription : string }.

Definition matchCount (combinedText : string) (t : ThemeImage) : nat :=
  length (List.filter (fun keyword => includes combinedText (toLowerCase keyword)) (keywords t)).

Definition scoreOf (combinedText : string) (t : ThemeImage) : Q :=
  (inject_Z (Z.of_nat (matchCount combinedText t))
   / inject_Z (Z.of_nat (length (keywords t))))%Q.

Definition combine (quoteContent : string) (tags : list string) : string :=
  toLowerCase (quoteContent ++ " " ++ join " " tags).

(** What [themeScores[0]] or a table lookup would be on an empty table;
    the table is a non-empty constant, so no run reaches it. *)
Definition noImage : RelevantImage := mkImage EmptyString EmptyString.

(** [seed] stands for the draw of [Math.random()]: the index
    [Math.floor(Math.random() * THEMED_JOURNAL_IMAGES.length)] ranges over
    the table, and is taken as [seed mod length]. *)
Definition findRelevantImage (quoteContent : string) (tags : list string)
           (seed : nat) : RelevantImage :=
  let combinedText := combine quoteContent tags in
  let themeScores :=
    map (fun t => mkScore t (scoreOf combinedText t)) THEMED_JOURNAL_IMAGES in
  let themeScores := sort (fun a b => (score b - score a)%Q) themeScores in
  match themeScores with
  | [] => noImage
  | top :: _ =>
      if negb (Qle_bool (score top) 0) then
        mkImage (imageUrl (scored top)) (description (scored top))
      else
        let tagMatch :=
          match tags with
          | [] => None
          | tag0 :: _ =>
              let tagToMatch := toLowerCase tag0 in
              find (fun t => String.eqb (toLowerCase (theme t)) tagToMatch
                             || existsb (fun k => String.eqb (toLowerCase k) tagToMatch)
                                        (keywords t))
                   THEMED_JOURNAL_IMAGES
          end in
        match tagMatch with
        | Some t => mkImage (imageUrl t) (description t)
        | None =>
            match nth_error THEMED_JOURNAL_IMAGES
                            (seed mod length THEMED_JOURNAL_IMAGES) with
            | Some randomTheme =>
                mkImage (imageUrl randomTheme) (description randomTheme)
            | None => noImage
            end
        end
  end.

(** *** The quote record and the random draws *)

Record QuoteResponse : Type := mkQuote {
  _id : string;
  content : string;
  author : string;
  tags : list string;
  dateAdded : string
}.

(** What one call of [transformQuoteToJournalEntry] draws from the
    environment: the v4 UUID, the ISO text of the back-dated
    [publishedDate], the seed of the random theme, and the outcome of
    [Math.random() > 0.7]. *)
Record Draw : Type := mkDraw {
  uuidv4 : string;
  backdated : string;
  themeSeed : nat;
  isTrending : bool
}.

(** *** generateExpandedContent *)

Definition nl : string := String "010"%char EmptyString.
Definition dq : string := String "034"%char EmptyString.

Definition generateExpandedContent (quoteContent author : string) : string :=
  let lowerQuote := toLowerCase quoteContent in
  let firstMatch :=
    find (fun t =>
            let matchingKeywords :=
              List.filter (fun keyword => includes lowerQuote (toLowerCase keyword))
                     (keywords t) in
            (0 <? length matchingKeywords)%nat)
         THEMED_JOURNAL_IMAGES in
  let mainTheme :=
    match firstMatch with Some t => theme t | None => "reflection" end in
  let themeDescription :=
    match firstMatch with
    | Some t => description t
    | None => "reflecting on our thoughts and experiences"
    end in
  nl ++ "Today's journal entry focuses on " ++ mainTheme
     ++ " through a profound thought by " ++ author ++ ": "
     ++ dq ++ quoteContent ++ dq ++ nl
  ++ nl
  ++ "This quote speaks to the essence of " ++ mainTheme
     ++ " and invites us to consider how " ++ themeDescription
     ++ " relates to our daily experiences. When we embrace " ++ mainTheme
     ++ ", we open ourselves to new perspectives and deeper understanding." ++ nl
  ++ nl
  ++ "When I first encountered this idea from " ++ author
     ++ ", it resonated with me because it highlights how " ++ mainTheme
     ++ " can transform our approach to life's challenges and opportunities. The wisdom here isn't just about intellectual understanding, but about practical application in our everyday choices." ++ nl
  ++ nl
  ++ "How we might apply this insight:" ++ nl
  ++ nl
  ++ "1. Consider how " ++ mainTheme ++ " appears in your current circumstances" ++ nl
  ++ "2. Reflect on a time when you experienced the truth of this quote firsthand" ++ nl
  ++ "3. Identify one small action you can take today that aligns with this wisdom" ++ nl
  ++ "4. Share this perspective with someone who might benefit from it" ++ nl
  ++ nl
  ++ "The journey of personal growth often involves these moments of clarity where timeless wisdom meets our present reality. As we continue to explore ideas like this one from "
     ++ author
     ++ ", we develop a richer understanding of ourselves and our place in the world." ++ nl
  ++ "  ".

(** *** transformQuoteToJournalEntry *)

(** [s.split(' ')] *)
Fixpoint split_space (s : string) : list string :=
  match s with
  | EmptyString => [EmptyString]
  | String c r =>
      if Ascii.eqb c " "%char then EmptyString :: split_space r
      else match split_space r with
           | w :: ws => String c w :: ws
           | [] => [String c EmptyString]
           end
  end.

Definition upper_ascii (c : ascii) : ascii :=
  let n := nat_of_ascii c in
  if (97 <=? n)%nat && (n <=? 122)%nat then ascii_of_nat (n - 32) else c.

(** [theme.charAt(0).toUpperCase() + theme.slice(1)] *)
Definition capitalize (s : string) : string :=
  match s with
  | EmptyString => EmptyString
  | String c r => String (upper_ascii c) r
  end.

Definition transformQuoteToJournalEntry (quote : QuoteResponse) (index : nat)
           (d : Draw) : NewsArticle :=
  let expandedContent := generateExpandedContent (content quote) (author quote) in
  let img := findRelevantImage (content quote) (tags quote) (themeSeed d) in
  let titleWords := split_space (content quote) in
  let shortTitle :=
    if (8 <? length titleWords)%nat
    then join " " (firstn 8 titleWords) ++ "..."
    else content quote in
  let theme := match tags quote with [] => "reflection" | tag0 :: _ => tag0 end in
  {| News.id := uuidv4 d;
     News.title := "Daily " ++ capitalize theme ++ ": " ++ shortTitle;
     News.source := "Daily Journal";
     News.author := author quote;
     News.publishedAt := backdated d;
     News.summary := content quote;
     News.content := expandedContent;
     News.imageUrl := url img;
     News.url := "https://example.com/journal/" ++ _id quote;
     News.categories := ["journal"];
     News.trending := isTrending d;
     News.apiSource := None |}.

(** *** Module state and environment *)

(** The text stored under the key ['journalSphere_dailyEntries'], seen
    through [JSON.parse] and the destructuring [{ date, entries }]:
    [Garbage] is a text on which either of them throws; [Blob date entries]
    is a record whose fields may be missing ([None]).  A missing key, for
    which [getItem] returns [null], is [None] at [localStorage].  The two
    kinds of error and the empty text are told apart in
    [JournalFull.Text]. *)
Inductive Stored : Type :=
| Garbage
| Blob (date : option string) (entries : option (list NewsArticle)).

(** The last three fields observe the run: the number of requests sent
    to [QUOTES_API_URL], the payload of every call of
    [notifyArticleUpdateListeners], and every listener invocation. *)
Record St : Type := mkSt {
  localStorage : option Stored;
  lastFetchTimestamp : Z;
  articleUpdateListeners : list Listener;
  requests : nat;
  fanouts : list (list NewsArticle);
  delivered : list (Listener * list NewsArticle)
}.

Definition initial : St := mkSt None 0 [] 0 [] [].

(** The outcome of [fetch(QUOTES_API_URL)] followed by [response.json()]:
    the request is rejected, the status is not ok, the body is not JSON,
    the body is JSON but no array of quotes (mapping it throws), or the
    body is an array of quotes. *)
Inductive Response : Type :=
| FetchRejected
| NotOk (status : Z)
| JsonRejected
| BadPayload
| Quotes (quotes : list QuoteResponse).

Record Env : Type := mkEnv {
  now : Z;                  (* Date.now() *)
  currentDate : string;     (* new Date().toISOString().split('T')[0] *)
  response : Response;
  draws : nat -> Draw       (* the draws of the transform at each index *)
}.

Definition getItem : M St (option Stored) :=
  fun s => (Normal (localStorage s), s).

Definition setItem (v : Stored) : M St unit :=
  modify (fun s => mkSt (Some v) (lastFetchTimestamp s) (articleUpdateListeners s)
                        (requests s) (fanouts s) (delivered s)).

Definition JSON_parse (text : Stored)
  : M St (option string * option (list NewsArticle)) :=
  match text with
  | Garbage => throw SyntaxError
  | Blob date entries => ret (date, entries)
  end.

(** [await fetch(QUOTES_API_URL)], the [response.ok] test and
    [await response.json()], up to the point where [quotes.map] has an
    array of quotes to work on *)
Definition fetchQuotes (env : Env) : M St (list QuoteResponse) :=
  exec modify (fun s => mkSt (localStorage s) (lastFetchTimestamp s)
                             (articleUpdateListeners s) (S (requests s))
                             (fanouts s) (delivered s)) in
  match response env with
  | FetchRejected => throw NetworkError
  | NotOk status => throw (StatusError status)
  | JsonRejected => throw SyntaxError
  | BadPayload => throw TypeError
  | Quotes quotes => ret quotes
  end.

(** [quotes.map((quote, index) => transformQuoteToJournalEntry(quote, index))] *)
Definition transformAll (env : Env) (quotes : list QuoteResponse) : list NewsArticle :=
  imap (fun index quote => transformQuoteToJournalEntry quote index (draws env index))
       quotes.

(** [date === currentDate] *)
Definition sameDate (date : option string) (currentDate : string) : bool :=
  match date with
  | Some d => String.eqb d currentDate
  | None => false
  end.

(** The stored text parses and holds no entries dated [today]: the
    cases in which [fetchDailyJournalEntries] goes on to the request. *)
Definition nothingForToday (st : option Stored) (today : string) : Prop :=
  match st with
  | None => True
  | Some Garbage => False
  | Some (Blob date (Some (_ :: _))) => sameDate date today = false
  | Some (Blob _ _) => True
  end.

(** *** fetchDailyJournalEntries *)

Definition fetchDailyJournalEntries (env : Env) : M St (list NewsArticle) :=
  try_catch
    (let* cachedData := getItem in
     let currentDate := currentDate env in
     let* fromToday :=
       match cachedData with
       | Some text =>
           let* '(date, entries) := JSON_parse text in
           match entries with
           | Some (e :: es) =>
               if sameDate date currentDate then ret (Some (e :: es)) else ret None
           | _ => ret None
           end
       | None => ret None
       end in
     match fromToday with
     | Some entries => ret entries
     | None =>
         let* quotes := fetchQuotes env in
         let journalEntries := transformAll env quotes in
         exec setItem (Blob (Some currentDate) (Some journalEntries)) in
         ret journalEntries
     end)
    (fun error =>
       let* cachedData := getItem in
       let* stale :=
         match cachedData with
         | Some text =>
             let* '(_, entries) := JSON_parse text in
             match entries with
             | Some (e :: es) => ret (Some (e :: es))
             | _ => ret None
             end
         | None => ret None
         end in
       match stale with
       | Some entries => ret entries
       | None => ret []
       end).

(** *** fetchJournalEntryById *)

Definition hasId (id : string) (entry : NewsArticle) : bool :=
  String.eqb (News.id entry) id.

Definition fetchJournalEntryById (id : string) (env : Env)
  : M St (option NewsArticle) :=
  try_catch
    (let* cachedData := getItem in
     let* cachedEntry :=
       match cachedData with
       | Some text =>
           let* '(_, entries) := JSON_parse text in
           match entries with
           | Some (e :: es) => ret (find (hasId id) (e :: es))
           | _ => ret None
           end
       | None => ret None
       end in
     match cachedEntry with
     | Some entry => ret (Some entry)
     | None =>
         let* allEntries := fetchDailyJournalEntries env in
         ret (find (hasId id) allEntries)
     end)
    (fun error => ret None).

(** *** The article-update registry *)

(** [arr.splice(arr.indexOf(x), 1)] when [x] occurs *)
Fixpoint removeFirst (x : Listener) (arr : list Listener) : list Listener :=
  match arr with
  | [] => []
  | y :: ys => if Nat.eqb y x then ys else y :: removeFirst x ys
  end.

Definition subscribeToArticleUpdates (listener : Listener) : M St unit :=
  modify (fun s => mkSt (localStorage s) (lastFetchTimestamp s)
                        (articleUpdateListeners s ++ [listener])
                        (requests s) (fanouts s) (delivered s)).

(** The function returned by [subscribeToArticleUpdates listener]. *)
Definition unsubscribe (listener : Listener) : M St unit :=
  modify (fun s => mkSt (localStorage s) (lastFetchTimestamp s)
                        (removeFirst listener (articleUpdateListeners s))
                        (requests s) (fanouts s) (delivered s)).

(** The fan-out for listeners that return and leave the registry alone;
    [JournalFull.notifyArticleUpdateListeners] is the fan-out for any
    listener. *)
Definition notifyArticleUpdateListeners (articles : list NewsArticle) : M St unit :=
  modify (fun s => mkSt (localStorage s) (lastFetchTimestamp s)
                        (articleUpdateListeners s) (requests s)
                        (fanouts s ++ [articles])
                        (delivered s
                         ++ map (fun listener => (listener, articles))
                                (articleUpdateListeners s))).

(** *** checkForNewArticles *)

(** [latest.summary === cached.summary && latest.author === cached.author] *)
Definition sameContent (cached latest : NewsArticle) : bool :=
  String.eqb (News.summary latest) (News.summary cached)
  && String.eqb (News.author latest) (News.author cached).

Definition hasNewContent (cachedEntries latestEntries : list NewsArticle) : bool :=
  (length cachedEntries =? 0)%nat
  || negb (existsb (fun cached => existsb (fun latest => sameContent cached latest)
                                          latestEntries)
                   cachedEntries).

(** The body up to [await fetch(...)]: [None] when the function has
    already returned [false], [Some cachedEntries] when it goes on to the
    request. *)
Definition checkBeforeFetch (currentTimestamp : Z)
  : M St (option (list NewsArticle)) :=
  let* s := get in
  if (currentTimestamp - lastFetchTimestamp s <? 30000)%Z then ret None
  else
    exec modify (fun s => mkSt (localStorage s) currentTimestamp
                               (articleUpdateListeners s) (requests s)
                               (fanouts s) (delivered s)) in
    let* cachedData := getItem in
    let* cachedEntries :=
      match cachedData with
      | Some text =>
          let* '(_, entries) := JSON_parse text in
          match entries with
          | Some l => ret l
          | None => ret []
          end
      | None => ret []
      end in
    ret (Some cachedEntries).

(** The body from [await fetch(...)] on. *)
Definition checkAfterFetch (cachedEntries : list NewsArticle) (env : Env)
  : M St bool :=
  let* quotes := fetchQuotes env in
  let latestEntries := transformAll env quotes in
  if hasNewContent cachedEntries latestEntries then
    let currentDate := currentDate env in
    exec setItem (Blob (Some currentDate) (Some latestEntries)) in
    exec notifyArticleUpdateListeners latestEntries in
    ret true
  else ret false.

Definition checkForNewArticles (env : Env) : M St bool :=
  try_catch
    (let* pending := checkBeforeFetch (now env) in
     match pending with
     | None => ret false
     | Some cachedEntries => checkAfterFetch cachedEntries env
     end)
    (fun error => ret false).
End Journal.

(* ================================================================== *)
(** ** The multi-provider aggregator                                    *)
(* ================================================================== *)

Module MultiApi.
Local Open Scope js_scope.

Inductive NewsApiSource : Type := MEDIASTACK | NEWSAPI | GUARDIAN.

Definition NewsApiSource_eqb (a b : NewsApiSource) : bool :=
  match a, b with
  | MEDIASTACK, MEDIASTACK | NEWSAPI, NEWSAPI | GUARDIAN, GUARDIAN => true
  | _, _ => false
  end.

Definition API_PRIORITY : list NewsApiSource := [MEDIASTACK; NEWSAPI; GUARDIAN].

Section Providers.
(** The three provider clients are imported modules.  A call acts on the
    state [W] of the world outside this module and either returns
    articles or throws. *)
Context {W : Type}.
Variables fetchMediaStackArticles fetchNewsApiArticles fetchGuardianArticles
  : option Category -> Z -> M W (list NewsArticle).

(** [invoked] observes the run: every provider call with how it
    completed, in call order. *)
Record St : Type := mkSt {
  latestArticles : NewsApiSource -> list NewsArticle;
  world : W;
  invoked : list (NewsApiSource * completion (list NewsArticle))
}.

Definition initial (w : W) : St := mkSt (fun _ => []) w [].

Definition invoke (apiSource : NewsApiSource) (client : M W (list NewsArticle))
  : M St (list NewsArticle) :=
  fun s => match client (world s) with
           | (c, w') =>
               (c, mkSt (latestArticles s) w' (invoked s ++ [(apiSource, c)]))
           end.

(** [latestArticles[apiSource] = articles] *)
Definition storeLatest (apiSource : NewsApiSource) (articles : list NewsArticle)
  : M St unit :=
  modify (fun s =>
            mkSt (fun k => if NewsApiSource_eqb k apiSource then articles
                           else latestArticles s k)
                 (world s) (invoked s)).

(** The [for (const apiSource of apiPriority)] loop with its trailing
    [return []]; [Some articles] is the [return articles] inside the
    [try]. *)
Fixpoint fetchArticlesFromAllSources (category : option Category) (limit : Z)
         (apiPriority : list NewsApiSource) : M St (list NewsArticle) :=
  match apiPriority with
  | [] => ret []
  | apiSource :: rest =>
      let* returned :=
        try_catch
          (let* articles :=
             match apiSource with
             | MEDIASTACK =>
                 invoke MEDIASTACK (fetchMediaStackArticles category limit)
             | NEWSAPI =>
                 invoke NEWSAPI (fetchNewsApiArticles category limit)
             | GUARDIAN =>
                 invoke GUARDIAN (fetchGuardianArticles category limit)
             end in
           if (0 <? length articles)%nat then
             exec storeLatest apiSource articles in
             ret (Some articles)
           else ret None)
          (fun error => ret None) in
      match returned with
      | Some articles => ret articles
      | None => fetchArticlesFromAllSources category limit rest
      end
  end.

(** The client that the [switch] selects for [apiSource]. *)
Definition client (apiSource : NewsApiSource) (category : option Category)
           (limit : Z) : M W (list NewsArticle) :=
  match apiSource with
  | MEDIASTACK => fetchMediaStackArticles category limit
  | NEWSAPI => fetchNewsApiArticles category limit
  | GUARDIAN => fetchGuardianArticles category limit
  end.

(** Calling the clients of [sources] one after the other, each exactly
    once: the calls with their completions, and the world they leave. *)
Fixpoint callInOrder (category : option Category) (limit : Z)
         (sources : list NewsApiSource) (w : W)
  : list (NewsApiSource * completion (list NewsArticle)) * W :=
  match sources with
  | [] => ([], w)
  | apiSource :: rest =>
      match client apiSource category limit w with
      | (c, w1) =>
          match callInOrder category limit rest w1 with
          | (calls, w2) => ((apiSource, c) :: calls, w2)
          end
      end
  end.
End Providers.

(** A call that makes the loop go on: it threw, or returned no article. *)
Definition passedOver (call : NewsApiSource * completion (list NewsArticle)) : Prop :=
  match snd call with
  | Thrown _ => True
  | Normal articles => articles = []
  end.
End MultiApi.

(* ================================================================== *)
(** ** The unified article service and its poller                       *)
(* ================================================================== *)

Module NewsService.
Local Open Scope js_scope.

(** An activation of [checkAndNotify] that is suspended at
    [await checkForNewArticles()]: either the callee itself waits for the
    response of the quotes API, holding the cached entries it has read, or
    the callee has settled and only the rest of [checkAndNotify] is left
    to run. *)
Inductive Suspended : Type :=
| AwaitingFetch (cachedEntries : list NewsArticle)
| AwaitingSettled (c : completion bool).

(** [timers] and [nextTimer] are the interval timers of [window] set by
    this module: handle -> period.  Handles returned by [setInterval] are
    positive.  [statusLog] observes the invocations of the checking-status
    listeners.  The listener that the module registers with the journal
    module when it is loaded writes [latestArticles] and nothing else of
    this state; its writes are among those of [Elsewhere] below. *)
Record St : Type := mkSt {
  journal : Journal.St;
  latestArticles : list NewsArticle;
  pollingInterval : option nat;
  isCurrentlyChecking : bool;
  checkingStatusListeners : list Listener;
  timers : gmap nat Z;
  nextTimer : nat;
  suspended : list Suspended;
  statusLog : list (Listener * bool)
}.

Definition boot (j : Journal.St) : St :=
  mkSt j [] None false [] ∅ 1 [] [].

Definition initial : St := boot Journal.initial.

Definition set_journal (j : Journal.St) (s : St) : St :=
  mkSt j (latestArticles s) (pollingInterval s)
       (isCurrentlyChecking s) (checkingStatusListeners s) (timers s)
       (nextTimer s) (suspended s) (statusLog s).

Definition set_latestArticles (l : list NewsArticle) (s : St) : St :=
  mkSt (journal s) l (pollingInterval s)
       (isCurrentlyChecking s) (checkingStatusListeners s) (timers s)
       (nextTimer s) (suspended s) (statusLog s).

Definition set_pollingInterval (p : option nat) (s : St) : St :=
  mkSt (journal s) (latestArticles s) p
       (isCurrentlyChecking s) (checkingStatusListeners s) (timers s)
       (nextTimer s) (suspended s) (statusLog s).

Definition set_isCurrentlyChecking (b : bool) (s : St) : St :=
  mkSt (journal s) (latestArticles s) (pollingInterval s)
       b (checkingStatusListeners s) (timers s)
       (nextTimer s) (suspended s) (statusLog s).

Definition set_checkingStatusListeners (l : list Listener) (s : St) : St :=
  mkSt (journal s) (latestArticles s) (pollingInterval s)
       (isCurrentlyChecking s) l (timers s)
       (nextTimer s) (suspended s) (statusLog s).

Definition set_timers (t : gmap nat Z) (n : nat) (s : St) : St :=
  mkSt (journal s) (latestArticles s) (pollingInterval s)
       (isCurrentlyChecking s) (checkingStatusListeners s)
       t n (suspended s) (statusLog s).

Definition set_suspended (l : list Suspended) (s : St) : St :=
  mkSt (journal s) (latestArticles s) (pollingInterval s)
       (isCurrentlyChecking s) (checkingStatusListeners s)
       (timers s) (nextTimer s) l (statusLog s).

Definition set_statusLog (l : list (Listener * bool)) (s : St) : St :=
  mkSt (journal s) (latestArticles s) (pollingInterval s)
       (isCurrentlyChecking s) (checkingStatusListeners s)
       (timers s) (nextTimer s) (suspended s) l.

(** Runs a function of the journal module on the [journal] component. *)
Definition inJournal {A} (m : M Journal.St A) : M St A :=
  fun s => match m (journal s) with
           | (c, j') => (c, set_journal j' s)
           end.

(** *** The checking-status registry *)

Definition subscribeToCheckingStatus (listener : Listener) : M St unit :=
  modify (fun s =>
            set_checkingStatusListeners (checkingStatusListeners s ++ [listener]) s).

(** The function returned by [subscribeToCheckingStatus listener]. *)
Definition unsubscribeFromCheckingStatus (listener : Listener) : M St unit :=
  modify (fun s =>
            set_checkingStatusListeners
              (Journal.removeFirst listener (checkingStatusListeners s)) s).

(** The fan-out for listeners that return and leave the registry alone;
    [PollerFull.notifyCheckingStatusListeners] is the fan-out for any
    listener. *)
Definition notifyCheckingStatusListeners (isChecking : bool) : M St unit :=
  modify (fun s =>
            set_statusLog
              (statusLog s
               ++ map (fun listener => (listener, isChecking))
                      (checkingStatusListeners s)) s).

(** *** Timers of the window *)

Definition clearInterval (handle : nat) : M St unit :=
  modify (fun s => set_timers (delete handle (timers s)) (nextTimer s) s).

Definition setInterval (intervalMs : Z) : M St nat :=
  fun s => (Normal (nextTimer s),
            set_timers (<[nextTimer s := intervalMs]> (timers s))
                       (S (nextTimer s)) s).

(** *** startArticlePolling, checkAndNotify, stopArticlePolling *)

(** [checkAndNotify] from its call to the point where it is suspended at
    [await checkForNewArticles()]; the callee has then run up to its own
    first [await], inside its [try]. *)
Definition checkAndNotify_begin (currentTimestamp : Z) : M St unit :=
  let* s := get in
  if isCurrentlyChecking s then ret tt
  else
    exec modify (set_isCurrentlyChecking true) in
    exec notifyCheckingStatusListeners true in
    let* callee :=
      inJournal
        (try_catch
           (let* pending := Journal.checkBeforeFetch currentTimestamp in
            match pending with
            | None => ret (AwaitingSettled (Normal false))
            | Some cachedEntries => ret (AwaitingFetch cachedEntries)
            end)
           (fun error => ret (AwaitingSettled (Normal false)))) in
    modify (fun s => set_suspended (suspended s ++ [callee]) s).

(** The rest of a suspended activation: the callee runs to its end and
    the [finally] block follows, whichever way the callee completed. *)
Definition checkAndNotify_resume (activation : Suspended) (env : Journal.Env)
  : M St bool :=
  try_finally
    (match activation with
     | AwaitingFetch cachedEntries =>
         inJournal (try_catch (Journal.checkAfterFetch cachedEntries env)
                              (fun error => ret false))
     | AwaitingSettled c => fun s => (c, s)
     end)
    (exec modify (set_isCurrentlyChecking false) in
     notifyCheckingStatusListeners false).

Definition startArticlePolling (intervalMs : Z) (currentTimestamp : Z) : M St unit :=
  let* s := get in
  exec match pollingInterval s with
       | Some handle =>
           if (handle =? 0)%nat then ret tt else clearInterval handle
       | None => ret tt
       end in
  exec checkAndNotify_begin currentTimestamp in
  let* handle := setInterval intervalMs in
  modify (set_pollingInterval (Some handle)).

Definition stopArticlePolling : M St unit :=
  let* s := get in
  match pollingInterval s with
  | Some handle =>
      if (handle =? 0)%nat then ret tt
      else
        exec clearInterval handle in
        modify (set_pollingInterval None)
  | None => ret tt
  end.

(** *** The event loop around the poller *)

Inductive Event : Type :=
| CallStart (intervalMs : Z) (currentTimestamp : Z)
| CallStop
| TimerFires (handle : nat) (currentTimestamp : Z)
| Resumes (k : nat) (env : Journal.Env)
| Subscribes (listener : Listener)
| Unsubscribes (listener : Listener)
| Elsewhere (j : Journal.St) (latest : list NewsArticle).

Definition after {A} (m : M St A) (s : St) : St := snd (m s).

(** One turn of the event loop.  A timer that has been cleared does not
    fire; [Resumes k] continues the [k]-th suspended activation;
    [Elsewhere] is any other code acting on the journal module, the
    storage or the article cache. *)
Definition step (ev : Event) (s : St) : St :=
  match ev with
  | CallStart intervalMs currentTimestamp =>
      after (startArticlePolling intervalMs currentTimestamp) s
  | CallStop => after stopArticlePolling s
  | TimerFires handle currentTimestamp =>
      match timers s !! handle with
      | Some _ => after (checkAndNotify_begin currentTimestamp) s
      | None => s
      end
  | Resumes k env =>
      match suspended s !! k with
      | Some activation =>
          after (checkAndNotify_resume activation env)
                (set_suspended (take k (suspended s) ++ drop (S k) (suspended s)) s)
      | None => s
      end
  | Subscribes listener => after (subscribeToCheckingStatus listener) s
  | Unsubscribes listener => after (unsubscribeFromCheckingStatus listener) s
  | Elsewhere j latest => set_latestArticles latest (set_journal j s)
  end.

Definition run (evs : list Event) (s : St) : St :=
  fold_left (fun s ev => step ev s) evs s.

(** *** The read operations *)

Section Reads.
(** The local dataset (data/mockNewsData): synchronous queries over a
    static in-memory collection. *)
Variable getAllArticles : list NewsArticle.
Variable getArticlesByCategory : Category -> list NewsArticle.
Variable getTrendingArticles : list NewsArticle.
Variable searchArticles : string -> list NewsArticle.
Variable getArticleById : string -> option NewsArticle.
Variable getRelatedArticles : string -> Category -> Z -> list NewsArticle.
(** [[...xs].sort(() => 0.5 - Math.random())] *)
Variable shuffle : list NewsArticle -> list NewsArticle.

Definition fetchAllArticles (forceRefresh : bool) (env : Journal.Env)
  : M St (list NewsArticle) :=
  try_catch
    (let* s := get in
     if (0 <? length (latestArticles s))%nat && negb forceRefresh
     then ret (latestArticles s)
     else
       let mockArticles := getAllArticles in
       let* journalArticles := inJournal (Journal.fetchDailyJournalEntries env) in
       exec modify (set_latestArticles (mockArticles ++ journalArticles)) in
       let* s := get in
       ret (latestArticles s))
    (fun error =>
       let* s := get in
       if (0 <? length (latestArticles s))%nat then ret (latestArticles s)
       else ret getAllArticles).

Definition fetchArticlesByCategory (category : Category) (env : Journal.Env)
  : M St (list NewsArticle) :=
  try_catch
    (if String.eqb category "journal"
     then inJournal (Journal.fetchDailyJournalEntries env)
     else ret (getArticlesByCategory category))
    (fun error => ret (getArticlesByCategory category)).

Definition fetchTrendingArticles (env : Journal.Env) : M St (list NewsArticle) :=
  try_catch
    (let mockTrending := getTrendingArticles in
     let* journalArticles := inJournal (Journal.fetchDailyJournalEntries env) in
     let trendingJournalArticles := List.filter News.trending journalArticles in
     ret (mockTrending ++ trendingJournalArticles)%list)
    (fun error => ret getTrendingArticles).

Definition searchAllArticles (query : string) (env : Journal.Env)
  : M St (list NewsArticle) :=
  try_catch
    (let mockResults := searchArticles query in
     let* journalArticles := inJournal (Journal.fetchDailyJournalEntries env) in
     let searchTerm := toLowerCase query in
     let journalResults :=
       List.filter
         (fun article =>
            includes (toLowerCase (News.title article)) searchTerm
            || includes (toLowerCase (News.summary article)) searchTerm)
         journalArticles in
     ret (mockResults ++ journalResults)%list)
    (fun error => ret (searchArticles query)).

Definition fetchArticleById (id : string) (env : Journal.Env)
  : M St (option NewsArticle) :=
  try_catch
    (match getArticleById id with
     | Some mockArticle => ret (Some mockArticle)
     | None => inJournal (Journal.fetchJournalEntryById id env)
     end)
    (fun error => ret (getArticleById id)).

Definition fetchRelatedArticles (currentArticleId : string) (category : Category)
           (limit : Z) (env : Journal.Env) : M St (list NewsArticle) :=
  try_catch
    (if String.eqb category "journal" then
       let* allJournalEntries := inJournal (Journal.fetchDailyJournalEntries env) in
       let related :=
         List.filter (fun article => negb (String.eqb (News.id article) currentArticleId))
                     allJournalEntries in
       let shuffled := shuffle related in
       ret (slice0 shuffled limit)
     else ret (getRelatedArticles currentArticleId category limit))
    (fun error => ret (getRelatedArticles currentArticleId category limit)).
End Reads.
End NewsService.

(* ================================================================== *)
(** ** The article service in its MediaStack variant                    *)
(* ================================================================== *)

(** The second copy of the service reads the news from the MediaStack
    client instead of the local dataset.  Its poller and registries are
    those of [NewsService]; the read operations follow. *)
Module NewsServiceMediaStack.
Local Open Scope js_scope.

Definition USE_MEDIASTACK_API : bool := true.

Section Reads.
(** The MediaStack client, acting on the world outside the module. *)
Context {W : Type}.
Variable fetchMediaStackArticles : option Category -> Z -> M W (list NewsArticle).
Variable searchMediaStackArticles : string -> Z -> M W (list NewsArticle).
(** The local dataset (data/mockNewsData). *)
Variable getAllArticles : list NewsArticle.
Variable getArticlesByCategory : Category -> list NewsArticle.
Variable getTrendingArticles : list NewsArticle.
Variable searchArticles : string -> list NewsArticle.
Variable getArticleById : string -> option NewsArticle.
Variable getRelatedArticles : string -> Category -> Z -> list NewsArticle.
(** [[...xs].sort(() => 0.5 - Math.random())] *)
Variable shuffle : list NewsArticle -> list NewsArticle.

Record St : Type := mkSt {
  journal : Journal.St;
  latestArticles : list NewsArticle;
  latestMediaStackArticles : list NewsArticle;
  world : W
}.

Definition inJournal {A} (m : M Journal.St A) : M St A :=
  fun s => match m (journal s) with
           | (c, j') => (c, mkSt j' (latestArticles s) (latestMediaStackArticles s)
                                 (world s))
           end.

Definition inWorld {A} (m : M W A) : M St A :=
  fun s => match m (world s) with
           | (c, w') => (c, mkSt (journal s) (latestArticles s)
                                 (latestMediaStackArticles s) w')
           end.

Definition set_latestArticles (l : list NewsArticle) : M St unit :=
  modify (fun s => mkSt (journal s) l (latestMediaStackArticles s) (world s)).

Definition set_latestMediaStackArticles (l : list NewsArticle) : M St unit :=
  modify (fun s => mkSt (journal s) (latestArticles s) l (world s)).

Definition fetchAllArticles (forceRefresh : bool) (env : Journal.Env)
  : M St (list NewsArticle) :=
  try_catch
    (let* s := get in
     if (0 <? length (latestArticles s))%nat && negb forceRefresh
     then ret (latestArticles s)
     else
       let* journalArticles := inJournal (Journal.fetchDailyJournalEntries env) in
       exec (if USE_MEDIASTACK_API then
               let* mediaStackArticles := inWorld (fetchMediaStackArticles None 20) in
               exec set_latestMediaStackArticles mediaStackArticles in
               set_latestArticles (mediaStackArticles ++ journalArticles)
             else
               let mockArticles := getAllArticles in
               set_latestArticles (mockArticles ++ journalArticles)) in
       let* s := get in
       ret (latestArticles s))
    (fun error =>
       let* s := get in
       if (0 <? length (latestArticles s))%nat then ret (latestArticles s)
       else ret getAllArticles).

Definition fetchArticlesByCategory (category : Category) (env : Journal.Env)
  : M St (list NewsArticle) :=
  try_catch
    (if String.eqb category "journal"
     then inJournal (Journal.fetchDailyJournalEntries env)
     else if USE_MEDIASTACK_API
          then inWorld (fetchMediaStackArticles (Some category) 20)
          else ret (getArticlesByCategory category))
    (fun error => ret (getArticlesByCategory category)).

(** [article.categories[0] !== 'journal'] *)
Definition notJournalFirst (article : NewsArticle) : bool :=
  match News.categories article with
  | [] => true
  | c :: _ => negb (String.eqb c "journal")
  end.

Definition fetchTrendingArticles (env : Journal.Env) : M St (list NewsArticle) :=
  try_catch
    (let* journalArticles := inJournal (Journal.fetchDailyJournalEntries env) in
     let trendingJournalArticles := List.filter News.trending journalArticles in
     if USE_MEDIASTACK_API then
       let* s := get in
       if (0 <? length (latestMediaStackArticles s))%nat then
         let trendingMediaStackArticles :=
           List.filter News.trending (latestMediaStackArticles s) in
         ret (trendingMediaStackArticles ++ trendingJournalArticles)%list
       else
         let* allArticles := fetchAllArticles true env in
         let trendingArticles :=
           List.filter (fun article => News.trending article && notJournalFirst article)
                       allArticles in
         ret (trendingArticles ++ trendingJournalArticles)%list
     else
       let mockTrending := getTrendingArticles in
       ret (mockTrending ++ trendingJournalArticles)%list)
    (fun error => ret getTrendingArticles).

Definition searchAllArticles (query : string) (env : Journal.Env)
  : M St (list NewsArticle) :=
  try_catch
    (let* journalArticles := inJournal (Journal.fetchDailyJournalEntries env) in
     let searchTerm := toLowerCase query in
     let journalResults :=
       List.filter
         (fun article =>
            includes (toLowerCase (News.title article)) searchTerm
            || includes (toLowerCase (News.summary article)) searchTerm)
         journalArticles in
     if USE_MEDIASTACK_API then
       let* mediaStackResults := inWorld (searchMediaStackArticles query 10) in
       ret (mediaStackResults ++ journalResults)%list
     else
       let mockResults := searchArticles query in
       ret (mockResults ++ journalResults)%list)
    (fun error => ret (searchArticles query)).

Definition fetchArticleById (id : string) (env : Journal.Env)
  : M St (option NewsArticle) :=
  try_catch
    (let* s := get in
     match find (Journal.hasId id) (latestArticles s) with
     | Some cachedArticle => ret (Some cachedArticle)
     | None =>
         let* journalArticle := inJournal (Journal.fetchJournalEntryById id env) in
         match journalArticle with
         | Some entry => ret (Some entry)
         | None =>
             if negb USE_MEDIASTACK_API then ret (getArticleById id) else ret None
         end
     end)
    (fun error =>
       if negb USE_MEDIASTACK_API then ret (getArticleById id) else ret None).

Definition fetchRelatedArticles (currentArticleId : string) (category : Category)
           (limit : Z) (env : Journal.Env) : M St (list NewsArticle) :=
  let other (article : NewsArticle) :=
    negb (String.eqb (News.id article) currentArticleId) in
  try_catch
    (if String.eqb category "journal" then
       let* allJournalEntries := inJournal (Journal.fetchDailyJournalEntries env) in
       let related := List.filter other allJournalEntries in
       ret (slice0 (shuffle related) limit)
     else if USE_MEDIASTACK_API then
       let* s := get in
       let relatedArticles :=
         List.filter (fun article =>
                        other article
                        && existsb (String.eqb category) (News.categories article))
                     (latestMediaStackArticles s) in
       if (limit + 1 <? Z.of_nat (length (latestMediaStackArticles s)))%Z
          && (limit <=? Z.of_nat (length relatedArticles))%Z
       then ret (slice0 (shuffle relatedArticles) limit)
       else
         let* categoryArticles :=
           inWorld (fetchMediaStackArticles (Some category) (limit + 1)) in
         let related := List.filter other categoryArticles in
         ret (slice0 (shuffle related) limit)
     else ret (getRelatedArticles currentArticleId category limit))
    (fun error => ret (getRelatedArticles currentArticleId category limit)).
End Reads.
End NewsServiceMediaStack.

(* ================================================================== *)
(** ** Vocabulary of the statements                                     *)
(* ================================================================== *)

(** [t] is the first element of [l] whose key is maximal. *)
Definition first_best {A} (key : A -> Q) (l : list A) (t : A) : Prop :=
  exists pre post,
    l = (pre ++ t :: post)%list
    /\ (forall p, In p pre -> (key p < key t)%Q)
    /\ (forall q, In q post -> (key q <= key t)%Q).

(** The timer table holds the timer of [pollingInterval] and no other;
    handles are positive and below the next one to be given out. *)
Definition oneTimer (s : NewsService.St) : Prop :=
  (1 <= NewsService.nextTimer s)%nat
  /\ match NewsService.pollingInterval s with
     | Some handle =>
         handle <> 0%nat /\ (handle < NewsService.nextTimer s)%nat
         /\ exists intervalMs, NewsService.timers s = {[ handle := intervalMs ]}
     | None => NewsService.timers s = ∅
     end.

(** The guard is set exactly while an activation of [checkAndNotify] is
    suspended, and there is never more than one. *)
Definition singleFlight (s : NewsService.St) : Prop :=
  (NewsService.suspended s = [] /\ NewsService.isCurrentlyChecking s = false)
  \/ (exists activation,
        NewsService.suspended s = [activation]
        /\ NewsService.isCurrentlyChecking s = true).

(** Two articles share their [summary] and their [author]. *)
Definition shares (cached latest : NewsArticle) : Prop :=
  News.summary latest = News.summary cached /\ News.author latest = News.author cached.

(** The entries of the persisted record, whatever its date; empty when
    there is no record or the record has no entries. *)
Definition persistedEntries (st : option Journal.Stored) : list NewsArticle :=
  match st with
  | Some (Journal.Blob _ (Some entries)) => entries
  | _ => []
  end.

(** The response carries no usable array of quotes: the request, the status
    test or the decoding of the body throws. *)
Definition failed (r : Journal.Response) : Prop :=
  match r with
  | Journal.Quotes _ => False
  | _ => True
  end.

(* ================================================================== *)
(** ** Sample data                                                      *)
(* ================================================================== *)

Module Sample.
Definition entryA : NewsArticle :=
  News.mkArticle "id-a" "Daily Reflection: Stay calm" "Daily Journal" "Ann"
                 "2026-10-30T08:00:00.000Z" "Stay calm" "..." "img-a"
                 "https://example.com/journal/qa" ["journal"] false None.

Definition entryB : NewsArticle :=
  News.mkArticle "id-b" "Daily Reflection: Be bold" "Daily Journal" "Bob"
                 "2026-10-29T08:00:00.000Z" "Be bold" "..." "img-b"
                 "https://example.com/journal/qb" ["journal"] true None.

Definition quoteA : Journal.QuoteResponse :=
  Journal.mkQuote "qa" "Stay calm" "Ann" [] "2020-01-01".

Definition quoteC : Journal.QuoteResponse :=
  Journal.mkQuote "qc" "Love your neighbour" "Cleo" ["love"] "2020-01-02".

Definition draw (index : nat) : Journal.Draw :=
  Journal.mkDraw (if (index =? 0)%nat then "id-0" else "id-n")
                 "2026-10-31T08:00:00.000Z" index false.

Definition today : string := "2026-11-01".

Definition fiveArticles : list NewsArticle :=
  map (fun n => News.mkArticle n "Headline" "The Guardian" "Staff"
                               "2026-11-01T07:00:00.000Z" "Summary" "Body"
                               "img" "https://example.com/news" ["world"] false None)
      ["g1"; "g2"; "g3"; "g4"; "g5"].

(** Provider clients acting on a world that counts the calls made:
    MediaStack throws, NewsAPI returns nothing, the Guardian returns five
    articles. *)
Definition mediaStackDown (category : option Category) (limit : Z) : M nat (list NewsArticle) :=
  fun w => (Thrown NetworkError, S w).
Definition newsApiEmpty (category : option Category) (limit : Z) : M nat (list NewsArticle) :=
  fun w => (Normal [], S w).
Definition guardianFive (category : option Category) (limit : Z) : M nat (list NewsArticle) :=
  fun w => (Normal fiveArticles, S w).

(** A cache written today, one written yesterday, one without entries. *)
Definition cachedToday : Journal.St :=
  Journal.mkSt (Some (Journal.Blob (Some today) (Some [entryA; entryB])))
               0 [7%nat] 0 [] [].

Definition cachedYesterday : Journal.St :=
  Journal.mkSt (Some (Journal.Blob (Some "2026-10-31") (Some [entryA; entryB])))
               0 [7%nat] 0 [] [].

Definition cachedNothing : Journal.St :=
  Journal.mkSt (Some (Journal.Blob (Some "2026-10-31") (Some [])))
               0 [7%nat; 9%nat] 0 [] [].

Definition corrupt : Journal.St :=
  Journal.mkSt (Some Journal.Garbage) 0 [] 0 [] [].

(** A local dataset of one technology article, and its queries. *)
Definition mockArticle : NewsArticle :=
  News.mkArticle "m1" "Chips get smaller" "Mock Times" "Dee"
                 "2026-09-01T09:00:00.000Z" "Smaller chips" "Body" "img-m"
                 "https://example.com/m1" ["technology"] true None.

Definition mockAll : list NewsArticle := [mockArticle].

Definition mockByCategory (category : Category) : list NewsArticle :=
  List.filter (fun a => existsb (String.eqb category) (News.categories a)) mockAll.

Definition mockTrending : list NewsArticle := List.filter News.trending mockAll.

Definition mockSearch (query : string) : list NewsArticle :=
  List.filter (fun a => includes (toLowerCase (News.title a)) (toLowerCase query))
              mockAll.

Definition mockById (id : string) : option NewsArticle :=
  find (fun a => String.eqb (News.id a) id) mockAll.

Definition mockRelated (currentArticleId : string) (category : Category)
           (limit : Z) : list NewsArticle :=
  slice0 (List.filter (fun a => negb (String.eqb (News.id a) currentArticleId)
                                && existsb (String.eqb category) (News.categories a))
                      mockAll)
         limit.

(** The service with a non-empty article cache over a storage whose text
    does not parse. *)
Definition serviceOverCorrupt : NewsService.St :=
  NewsService.set_latestArticles [entryA] (NewsService.boot corrupt).

(** The MediaStack variant with an article cache and a client that throws. *)
Definition mediaStackSearchDown (query : string) (limit : Z) : M nat (list NewsArticle) :=
  fun w => (Thrown NetworkError, S w).

Definition serviceProviderDown : @NewsServiceMediaStack.St nat :=
  NewsServiceMediaStack.mkSt cachedToday [entryA] [] 0%nat.

Definition online (quotes : list Journal.QuoteResponse) : Journal.Env :=
  Journal.mkEnv 60000 today (Journal.Quotes quotes) draw.

Definition offline : Journal.Env :=
  Journal.mkEnv 60000 today Journal.FetchRejected draw.
End Sample.

(* ================================================================== *)
(** ** The rest of the aggregator: search, trending, the cache getters  *)
(* ================================================================== *)

Module MultiApiRest.
Import MultiApi.
Local Open Scope js_scope.

(** The values of the enum. *)
Definition sourceName (apiSource : NewsApiSource) : string :=
  match apiSource with
  | MEDIASTACK => "mediastack"
  | NEWSAPI => "newsapi"
  | GUARDIAN => "guardian"
  end.

(** [article.apiSource = apiSource] *)
Definition tagged (apiSource : NewsApiSource) (article : NewsArticle) : NewsArticle :=
  News.mkArticle (News.id article) (News.title article) (News.source article)
                 (News.author article) (News.publishedAt article)
                 (News.summary article) (News.content article)
                 (News.imageUrl article) (News.url article)
                 (News.categories article) (News.trending article)
                 (Some (sourceName apiSource)).

Section Providers.
Context {W : Type}.
Variables fetchMediaStackArticles fetchNewsApiArticles fetchGuardianArticles
  : option Category -> Z -> M W (list NewsArticle).
Variables searchMediaStackArticles searchNewsApiArticles searchGuardianArticles
  : string -> Z -> M W (list NewsArticle).
(** The two [[...xs].sort(() => 0.5 - Math.random())] of the trending path. *)
Variables shuffleBackfill shuffleResult : list NewsArticle -> list NewsArticle.

Fixpoint searchArticlesFromAllSources (query : string) (limit : Z)
         (apiPriority : list NewsApiSource) : M (@St W) (list NewsArticle) :=
  match apiPriority with
  | [] => ret []
  | apiSource :: rest =>
      let* returned :=
        try_catch
          (let* articles :=
             match apiSource with
             | MEDIASTACK =>
                 invoke MEDIASTACK (searchMediaStackArticles query limit)
             | NEWSAPI =>
                 invoke NEWSAPI (searchNewsApiArticles query limit)
             | GUARDIAN =>
                 invoke GUARDIAN (searchGuardianArticles query limit)
             end in
           if (0 <? length articles)%nat then ret (Some articles) else ret None)
          (fun error => ret None) in
      match returned with
      | Some articles => ret articles
      | None => searchArticlesFromAllSources query limit rest
      end
  end.

(** The [for (const apiSource of API_PRIORITY)] loop of
    [fetchTrendingFromAllSources], with [allArticles] as it stands. *)
Fixpoint gatherFromAllSources (limit : Z) (sources : list NewsApiSource)
         (allArticles : list NewsArticle) : M (@St W) (list NewsArticle) :=
  match sources with
  | [] => ret allArticles
  | apiSource :: rest =>
      let* allArticles :=
        try_catch
          (let* articles :=
             match apiSource with
             | MEDIASTACK =>
                 invoke MEDIASTACK (fetchMediaStackArticles None (limit * 2))
             | NEWSAPI =>
                 invoke NEWSAPI (fetchNewsApiArticles None (limit * 2))
             | GUARDIAN =>
                 invoke GUARDIAN (fetchGuardianArticles None (limit * 2))
             end in
           let articles := map (tagged apiSource) articles in
           let allArticles := (allArticles ++ articles)%list in
           exec storeLatest apiSource articles in
           ret allArticles)
          (fun error => ret allArticles) in
      gatherFromAllSources limit rest allArticles
  end.

Definition fetchTrendingFromAllSources (limit : Z) : M (@St W) (list NewsArticle) :=
  let* allArticles := gatherFromAllSources limit API_PRIORITY [] in
  let trendingArticles := List.filter News.trending allArticles in
  let trendingArticles :=
    if (Z.of_nat (length trendingArticles) <? limit)%Z then
      let nonTrending :=
        List.filter (fun article => negb (News.trending article)) allArticles in
      let shuffled := shuffleBackfill nonTrending in
      (trendingArticles
       ++ slice0 shuffled (limit - Z.of_nat (length trendingArticles)))%list
    else trendingArticles in
  let shuffled := shuffleResult trendingArticles in
  ret (slice0 shuffled limit).

Definition getLatestArticlesBySource
  : M (@St W) (NewsApiSource -> list NewsArticle) :=
  let* s := get in ret (latestArticles s).

(** [Object.values(latestArticles).flat()]: the keys in the order of the
    object literal. *)
Definition getAllLatestArticles : M (@St W) (list NewsArticle) :=
  let* s := get in
  ret (latestArticles s MEDIASTACK ++ latestArticles s NEWSAPI
       ++ latestArticles s GUARDIAN)%list.

(** The search client that the [switch] selects. *)
Definition searchClient (query : string) (limit : Z) (apiSource : NewsApiSource)
  : M W (list NewsArticle) :=
  match apiSource with
  | MEDIASTACK => searchMediaStackArticles query limit
  | NEWSAPI => searchNewsApiArticles query limit
  | GUARDIAN => searchGuardianArticles query limit
  end.
End Providers.

(** Calling [clientOf] on each of [sources] in turn, once each: the calls
    with their completions, and the world they leave. *)
Fixpoint callEach {W} (clientOf : NewsApiSource -> M W (list NewsArticle))
         (sources : list NewsApiSource) (w : W)
  : list (NewsApiSource * completion (list NewsArticle)) * W :=
  match sources with
  | [] => ([], w)
  | apiSource :: rest =>
      match clientOf apiSource w with
      | (c, w1) =>
          match callEach clientOf rest w1 with
          | (calls, w2) => ((apiSource, c) :: calls, w2)
          end
      end
  end.

(** What the calls that returned contribute to [allArticles]. *)
Definition collected (calls : list (NewsApiSource * completion (list NewsArticle)))
  : list NewsArticle :=
  flat_map (fun call => match snd call with
                        | Normal articles => map (tagged (fst call)) articles
                        | Thrown _ => []
                        end) calls.

(** [latestArticles] after the calls that returned have stored their
    tagged articles. *)
Fixpoint storedAfter (calls : list (NewsApiSource * completion (list NewsArticle)))
         (latest : NewsApiSource -> list NewsArticle)
  : NewsApiSource -> list NewsArticle :=
  match calls with
  | [] => latest
  | (apiSource, Normal articles) :: rest =>
      storedAfter rest (fun k => if NewsApiSource_eqb k apiSource
                                 then map (tagged apiSource) articles
                                 else latest k)
  | (_, Thrown _) :: rest => storedAfter rest latest
  end.
End MultiApiRest.

(* ================================================================== *)
(** ** Further sample data                                              *)
(* ================================================================== *)

Module Sample2.
(** A journal state whose last check ran at 50 s. *)
Definition checkedAt50s : Journal.St :=
  Journal.mkSt (Some (Journal.Blob (Some Sample.today) (Some [Sample.entryA])))
               50000 [7%nat] 1 [] [].

Definition onlineAt (t : Z) (quotes : list Journal.QuoteResponse) : Journal.Env :=
  Journal.mkEnv t Sample.today (Journal.Quotes quotes) Sample.draw.

(** Other draws than [Sample.draw]: new ids, dates and flags. *)
Definition redraw (index : nat) : Journal.Draw :=
  Journal.mkDraw "id-redrawn" "2026-10-27T10:00:00.000Z" (index + 5) true.

Definition onlineRedrawn (t : Z) (quotes : list Journal.QuoteResponse) : Journal.Env :=
  Journal.mkEnv t Sample.today (Journal.Quotes quotes) redraw.

(** An aggregator whose last NewsAPI result is still held. *)
Definition aggregatorWithNews : @MultiApi.St nat :=
  MultiApi.mkSt (fun k => if MultiApi.NewsApiSource_eqb k MultiApi.NEWSAPI
                          then [Sample.entryA] else [])
                0%nat [].

(** A shuffle that happens to leave the order. *)
Definition noShuffle (l : list NewsArticle) : list NewsArticle := l.

(** The first three of the Guardian's five articles, tagged. *)
Definition threeOfFive : list NewsArticle :=
  firstn 3 (map (MultiApiRest.tagged MultiApi.GUARDIAN) Sample.fiveArticles).

(** The storage after a check has stored the entries made of quotes A and C. *)
Definition storedAC : Journal.St :=
  Journal.mkSt
    (Some (Journal.Blob (Some Sample.today)
                        (Some (Journal.transformAll
                                 (Sample.online [Sample.quoteA; Sample.quoteC])
                                 [Sample.quoteA; Sample.quoteC]))))
    60000 [7%nat] 1 [] [].
End Sample2.
(* ================================================================== *)
(** ** Listeners as callbacks                                           *)
(* ================================================================== *)

(** [Journal] and [NewsService] above take a registered listener to be a
    callback that returns and leaves the modules alone.  The modules
    [JournalFull] and [PollerFull] below give the same functions of
    journalApi and newsService for any callback: called while the
    registry holds [registry], a listener returns or throws, and it may
    have subscribed or unsubscribed listeners on the way (the two
    [subscribe...] exports and the functions they return are its handle
    on the registries).  A listener that writes the storage itself, or
    that calls [checkForNewArticles] or the poller from inside its call,
    is not described. *)
Definition Reaction : Type := list Listener -> completion unit * list Listener.

Definition returns : Reaction := fun registry => (Normal tt, registry).
Definition throws (e : JsError) : Reaction := fun registry => (Thrown e, registry).

(** [arr.forEach(callback)] on an array that the callbacks may change:
    the length is read once, before the first call; index [k] is visited
    if it is still present when its turn comes; a callback that throws
    ends the traversal. *)
Section ForEach.
Context {State : Type}.
Variable arr : State -> list Listener.
Variable callback : Listener -> M State unit.

Fixpoint forEachFrom (remaining k : nat) : M State unit :=
  match remaining with
  | O => ret tt
  | S remaining' =>
      fun s => match nth_error (arr s) k with
               | Some listener =>
                   bind (callback listener)
                        (fun _ => forEachFrom remaining' (S k)) s
               | None => forEachFrom remaining' (S k) s
               end
  end.

Definition forEach : M State unit :=
  fun s => forEachFrom (length (arr s)) 0 s.
End ForEach.

(* ================================================================== *)
(** ** The daily-journal module, with any stored text and any listener  *)
(* ================================================================== *)

Module JournalFull.
Local Open Scope js_scope.

(** The text stored under the key ['journalSphere_dailyEntries']:
    - [EmptyText]: the empty text, which [if (cachedData)] takes for no
      record;
    - [Malformed]: a text on which [JSON.parse] throws a SyntaxError;
    - [NullValue]: the text [null], which parses, and on whose value the
      destructuring [{ date, entries }] throws a TypeError;
    - [Value date entries]: any other JSON text, with the [date] and the
      [entries] of its value ([None] when missing or [null]).
    A missing key, for which [getItem] returns [null], is [None] at
    [localStorage]. *)
Inductive Text : Type :=
| EmptyText
| Malformed
| NullValue
| Value (date : option string) (entries : option (list NewsArticle)).

Record St : Type := mkSt {
  localStorage : option Text;
  lastFetchTimestamp : Z;
  articleUpdateListeners : list Listener;
  requests : nat;
  fanouts : list (list NewsArticle);
  delivered : list (Listener * list NewsArticle)
}.

Definition initial : St := mkSt None 0 [] 0 [] [].

Definition getItem : M St (option Text) :=
  fun s => (Normal (localStorage s), s).

Definition setItem (v : Text) : M St unit :=
  modify (fun s => mkSt (Some v) (lastFetchTimestamp s) (articleUpdateListeners s)
                        (requests s) (fanouts s) (delivered s)).

(** [if (cachedData)]: [null] and the empty text are falsy. *)
Definition truthy (cachedData : option Text) : option Text :=
  match cachedData with
  | Some EmptyText => None
  | _ => cachedData
  end.

(** [const { date, entries } = JSON.parse(cachedData)] *)
Definition JSON_parse (text : Text)
  : M St (option string * option (list NewsArticle)) :=
  match text with
  | EmptyText => throw SyntaxError
  | Malformed => throw SyntaxError
  | NullValue => throw TypeError
  | Value date entries => ret (date, entries)
  end.

Definition fetchQuotes (env : Journal.Env) : M St (list Journal.QuoteResponse) :=
  exec modify (fun s => mkSt (localStorage s) (lastFetchTimestamp s)
                             (articleUpdateListeners s) (S (requests s))
                             (fanouts s) (delivered s)) in
  match Journal.response env with
  | Journal.FetchRejected => throw NetworkError
  | Journal.NotOk status => throw (StatusError status)
  | Journal.JsonRejected => throw SyntaxError
  | Journal.BadPayload => throw TypeError
  | Journal.Quotes quotes => ret quotes
  end.

(** *** fetchDailyJournalEntries *)

Definition fetchDailyJournalEntries (env : Journal.Env) : M St (list NewsArticle) :=
  try_catch
    (let* cachedData := getItem in
     let currentDate := Journal.currentDate env in
     let* fromToday :=
       match truthy cachedData with
       | Some text =>
           let* '(date, entries) := JSON_parse text in
           match entries with
           | Some (e :: es) =>
               if Journal.sameDate date currentDate then ret (Some (e :: es))
               else ret None
           | _ => ret None
           end
       | None => ret None
       end in
     match fromToday with
     | Some entries => ret entries
     | None =>
         let* quotes := fetchQuotes env in
         let journalEntries := Journal.transformAll env quotes in
         exec setItem (Value (Some currentDate) (Some journalEntries)) in
         ret journalEntries
     end)
    (fun error =>
       let* cachedData := getItem in
       let* stale :=
         match truthy cachedData with
         | Some text =>
             let* '(_, entries) := JSON_parse text in
             match entries with
             | Some (e :: es) => ret (Some (e :: es))
             | _ => ret None
             end
         | None => ret None
         end in
       match stale with
       | Some entries => ret entries
       | None => ret []
       end).

(** *** The article-update registry *)

Definition subscribeToArticleUpdates (listener : Listener) : M St unit :=
  modify (fun s => mkSt (localStorage s) (lastFetchTimestamp s)
                        (articleUpdateListeners s ++ [listener])
                        (requests s) (fanouts s) (delivered s)).

(** The function returned by [subscribeToArticleUpdates listener]. *)
Definition unsubscribe (listener : Listener) : M St unit :=
  modify (fun s => mkSt (localStorage s) (lastFetchTimestamp s)
                        (Journal.removeFirst listener (articleUpdateListeners s))
                        (requests s) (fanouts s) (delivered s)).

(** The first half of [checkForNewArticles], up to [await fetch(...)]. *)
Definition checkBeforeFetch (currentTimestamp : Z)
  : M St (option (list NewsArticle)) :=
  let* s := get in
  if (currentTimestamp - lastFetchTimestamp s <? 30000)%Z then ret None
  else
    exec modify (fun s => mkSt (localStorage s) currentTimestamp
                               (articleUpdateListeners s) (requests s)
                               (fanouts s) (delivered s)) in
    let* cachedData := getItem in
    let* cachedEntries :=
      match truthy cachedData with
      | Some text =>
          let* '(_, entries) := JSON_parse text in
          match entries with
          | Some l => ret l
          | None => ret []
          end
      | None => ret []
      end in
    ret (Some cachedEntries).

Section Callbacks.
(** What the listener does when it is called with [articles]. *)
Variable react : Listener -> list NewsArticle -> Reaction.

(** [listener(articles)] *)
Definition call (articles : list NewsArticle) (listener : Listener) : M St unit :=
  fun s => match react listener articles (articleUpdateListeners s) with
           | (c, registry) =>
               (c, mkSt (localStorage s) (lastFetchTimestamp s) registry
                        (requests s) (fanouts s)
                        (delivered s ++ [(listener, articles)]))
           end.

Definition notifyArticleUpdateListeners (articles : list NewsArticle) : M St unit :=
  exec modify (fun s => mkSt (localStorage s) (lastFetchTimestamp s)
                             (articleUpdateListeners s) (requests s)
                             (fanouts s ++ [articles]) (delivered s)) in
  forEach articleUpdateListeners (call articles).

(** *** checkForNewArticles *)

(** The body from [await fetch(...)] on. *)
Definition checkAfterFetch (cachedEntries : list NewsArticle) (env : Journal.Env)
  : M St bool :=
  let* quotes := fetchQuotes env in
  let latestEntries := Journal.transformAll env quotes in
  if Journal.hasNewContent cachedEntries latestEntries then
    let currentDate := Journal.currentDate env in
    exec setItem (Value (Some currentDate) (Some latestEntries)) in
    exec notifyArticleUpdateListeners latestEntries in
    ret true
  else ret false.

Definition checkForNewArticles (env : Journal.Env) : M St bool :=
  try_catch
    (let* pending := checkBeforeFetch (Journal.now env) in
     match pending with
     | None => ret false
     | Some cachedEntries => checkAfterFetch cachedEntries env
     end)
    (fun error => ret false).
End Callbacks.

(** The stored text as [Journal] sees it. *)
Definition seen (cachedData : option Text) : option Journal.Stored :=
  match cachedData with
  | None | Some EmptyText => None
  | Some Malformed | Some NullValue => Some Journal.Garbage
  | Some (Value date entries) => Some (Journal.Blob date entries)
  end.

Definition forget (s : St) : Journal.St :=
  Journal.mkSt (seen (localStorage s)) (lastFetchTimestamp s)
               (articleUpdateListeners s) (requests s) (fanouts s) (delivered s).
End JournalFull.

(* ================================================================== *)
(** ** The poller, with any listener                                    *)
(* ================================================================== *)

Module PollerFull.
Local Open Scope js_scope.

(** The part of the state of newsService that the poller works on;
    [latestArticles] and the reads are in [NewsService]. *)
Record St : Type := mkSt {
  journal : JournalFull.St;
  pollingInterval : option nat;
  isCurrentlyChecking : bool;
  checkingStatusListeners : list Listener;
  timers : gmap nat Z;
  nextTimer : nat;
  suspended : list NewsService.Suspended;
  statusLog : list (Listener * bool)
}.

Definition boot (j : JournalFull.St) : St :=
  mkSt j None false [] ∅ 1 [] [].

Definition set_journal (j : JournalFull.St) (s : St) : St :=
  mkSt j (pollingInterval s) (isCurrentlyChecking s) (checkingStatusListeners s)
       (timers s) (nextTimer s) (suspended s) (statusLog s).

Definition set_pollingInterval (p : option nat) (s : St) : St :=
  mkSt (journal s) p (isCurrentlyChecking s) (checkingStatusListeners s)
       (timers s) (nextTimer s) (suspended s) (statusLog s).

Definition set_isCurrentlyChecking (b : bool) (s : St) : St :=
  mkSt (journal s) (pollingInterval s) b (checkingStatusListeners s)
       (timers s) (nextTimer s) (suspended s) (statusLog s).

Definition set_checkingStatusListeners (l : list Listener) (s : St) : St :=
  mkSt (journal s) (pollingInterval s) (isCurrentlyChecking s) l
       (timers s) (nextTimer s) (suspended s) (statusLog s).

Definition set_timers (t : gmap nat Z) (n : nat) (s : St) : St :=
  mkSt (journal s) (pollingInterval s) (isCurrentlyChecking s)
       (checkingStatusListeners s) t n (suspended s) (statusLog s).

Definition set_suspended (l : list NewsService.Suspended) (s : St) : St :=
  mkSt (journal s) (pollingInterval s) (isCurrentlyChecking s)
       (checkingStatusListeners s) (timers s) (nextTimer s) l (statusLog s).

(** Runs a function of the journal module on the [journal] component. *)
Definition inJournal {A} (m : M JournalFull.St A) : M St A :=
  fun s => match m (journal s) with
           | (c, j') => (c, set_journal j' s)
           end.

(** A call of an async function whose promise is dropped: the caller
    goes on when the callee is suspended or has settled, and a rejection
    reaches nobody. *)
Definition dropped {A} (m : M St A) : M St unit :=
  fun s => (Normal tt, snd (m s)).

Definition subscribeToCheckingStatus (listener : Listener) : M St unit :=
  modify (fun s =>
            set_checkingStatusListeners (checkingStatusListeners s ++ [listener]) s).

(** The function returned by [subscribeToCheckingStatus listener]. *)
Definition unsubscribeFromCheckingStatus (listener : Listener) : M St unit :=
  modify (fun s =>
            set_checkingStatusListeners
              (Journal.removeFirst listener (checkingStatusListeners s)) s).

Definition clearInterval (handle : nat) : M St unit :=
  modify (fun s => set_timers (delete handle (timers s)) (nextTimer s) s).

Definition setInterval (intervalMs : Z) : M St nat :=
  fun s => (Normal (nextTimer s),
            set_timers (<[nextTimer s := intervalMs]> (timers s))
                       (S (nextTimer s)) s).

(** [checkForNewArticles()] as [checkAndNotify] calls it, up to its
    first [await], inside its [try]: the callee has then returned
    [false] or waits for the response. *)
Definition callee_begin (currentTimestamp : Z) : M St NewsService.Suspended :=
  inJournal
    (try_catch
       (let* pending := JournalFull.checkBeforeFetch currentTimestamp in
        match pending with
        | None => ret (NewsService.AwaitingSettled (Normal false))
        | Some cachedEntries => ret (NewsService.AwaitingFetch cachedEntries)
        end)
       (fun error => ret (NewsService.AwaitingSettled (Normal false)))).

Section Callbacks.
(** What an article-update listener does when it is called with
    [articles], and a checking-status listener with [isChecking]. *)
Variable react : Listener -> list NewsArticle -> Reaction.
Variable reactStatus : Listener -> bool -> Reaction.

(** [listener(isChecking)] *)
Definition call (isChecking : bool) (listener : Listener) : M St unit :=
  fun s => match reactStatus listener isChecking (checkingStatusListeners s) with
           | (c, registry) =>
               (c, mkSt (journal s) (pollingInterval s) (isCurrentlyChecking s)
                        registry (timers s) (nextTimer s) (suspended s)
                        (statusLog s ++ [(listener, isChecking)]))
           end.

Definition notifyCheckingStatusListeners (isChecking : bool) : M St unit :=
  forEach checkingStatusListeners (call isChecking).

(** *** startArticlePolling, checkAndNotify, stopArticlePolling *)

(** [checkAndNotify] from its call to the point where it is suspended at
    [await checkForNewArticles()], or to the exception that ends it
    before. *)
Definition checkAndNotify_begin (currentTimestamp : Z) : M St unit :=
  let* s := get in
  if isCurrentlyChecking s then ret tt
  else
    exec modify (set_isCurrentlyChecking true) in
    exec notifyCheckingStatusListeners true in
    let* callee := callee_begin currentTimestamp in
    modify (fun s => set_suspended (suspended s ++ [callee]) s).

(** The rest of a suspended activation: the callee runs to its end and
    the [finally] block follows, whichever way the callee completed. *)
Definition checkAndNotify_resume (activation : NewsService.Suspended)
           (env : Journal.Env) : M St bool :=
  try_finally
    (match activation with
     | NewsService.AwaitingFetch cachedEntries =>
         inJournal (try_catch (JournalFull.checkAfterFetch react cachedEntries env)
                              (fun error => ret false))
     | NewsService.AwaitingSettled c => fun s => (c, s)
     end)
    (exec modify (set_isCurrentlyChecking false) in
     notifyCheckingStatusListeners false).

Definition startArticlePolling (intervalMs : Z) (currentTimestamp : Z) : M St unit :=
  let* s := get in
  exec match pollingInterval s with
       | Some handle =>
           if (handle =? 0)%nat then ret tt else clearInterval handle
       | None => ret tt
       end in
  exec dropped (checkAndNotify_begin currentTimestamp) in
  let* handle := setInterval intervalMs in
  modify (set_pollingInterval (Some handle)).

Definition stopArticlePolling : M St unit :=
  let* s := get in
  match pollingInterval s with
  | Some handle =>
      if (handle =? 0)%nat then ret tt
      else
        exec clearInterval handle in
        modify (set_pollingInterval None)
  | None => ret tt
  end.

(** *** The event loop around the poller *)

Inductive Event : Type :=
| CallStart (intervalMs : Z) (currentTimestamp : Z)
| CallStop
| TimerFires (handle : nat) (currentTimestamp : Z)
| Resumes (k : nat) (env : Journal.Env)
| Subscribes (listener : Listener)
| Unsubscribes (listener : Listener)
| Elsewhere (j : JournalFull.St).

Definition after {A} (m : M St A) (s : St) : St := snd (m s).

(** One turn of the event loop, as in [NewsService.step]. *)
Definition step (ev : Event) (s : St) : St :=
  match ev with
  | CallStart intervalMs currentTimestamp =>
      after (startArticlePolling intervalMs currentTimestamp) s
  | CallStop => after stopArticlePolling s
  | TimerFires handle currentTimestamp =>
      match timers s !! handle with
      | Some _ => after (checkAndNotify_begin currentTimestamp) s
      | None => s
      end
  | Resumes k env =>
      match suspended s !! k with
      | Some activation =>
          after (checkAndNotify_resume activation env)
                (set_suspended (take k (suspended s) ++ drop (S k) (suspended s)) s)
      | None => s
      end
  | Subscribes listener => after (subscribeToCheckingStatus listener) s
  | Unsubscribes listener => after (unsubscribeFromCheckingStatus listener) s
  | Elsewhere j => set_journal j s
  end.

Definition run (evs : list Event) (s : St) : St :=
  fold_left (fun s ev => step ev s) evs s.
End Callbacks.
End PollerFull.

(* ================================================================== *)
(** ** Further vocabulary                                               *)
(* ================================================================== *)

(** [sub] occurs in [text] as a run of consecutive characters. *)
Definition occursIn (sub text : string) : Prop :=
  exists before behind, text = (before ++ sub ++ behind)%string.

(** [n] of the [keywords] occur in [text]. *)
Inductive occurring (text : string) : list string -> nat -> Prop :=
| occurring_nil : occurring text [] 0
| occurring_hit keyword keywords n :
    occursIn keyword text -> occurring text keywords n ->
    occurring text (keyword :: keywords) (S n)
| occurring_miss keyword keywords n :
    ~ occursIn keyword text -> occurring text keywords n ->
    occurring text (keyword :: keywords) n.

(** [q] is the keyword-overlap score of the theme [t] on [text]: the
    number of its keywords that occur in the text, over the number of
    its keywords. *)
Definition overlapScore (text : string) (t : Journal.ThemeImage) (q : Q) : Prop :=
  exists n,
    occurring text (Journal.keywords t) n
    /\ q = (inject_Z (Z.of_nat n)
            / inject_Z (Z.of_nat (length (Journal.keywords t))))%Q.

(** The entries that [checkForNewArticles] reads from the stored text;
    [None] when reading it throws. *)
Definition cachedEntriesOf (cachedData : option JournalFull.Text)
  : option (list NewsArticle) :=
  match cachedData with
  | None | Some JournalFull.EmptyText => Some []
  | Some JournalFull.Malformed | Some JournalFull.NullValue => None
  | Some (JournalFull.Value _ (Some entries)) => Some entries
  | Some (JournalFull.Value _ None) => Some []
  end.

(** The state in which [checkForNewArticles] starts its fan-out: the
    timestamp is set, one request has been sent and the record of today
    holds the entries made from [quotes]. *)
Definition published (env : Journal.Env) (quotes : list Journal.QuoteResponse)
           (s : JournalFull.St) : JournalFull.St :=
  JournalFull.mkSt
    (Some (JournalFull.Value (Some (Journal.currentDate env))
                             (Some (Journal.transformAll env quotes))))
    (Journal.now env) (JournalFull.articleUpdateListeners s)
    (S (JournalFull.requests s)) (JournalFull.fanouts s) (JournalFull.delivered s).

(** At most one activation of [checkAndNotify] is in flight, and the
    guard is set while one is. *)
Definition guarded (s : PollerFull.St) : Prop :=
  PollerFull.suspended s = []
  \/ (exists activation,
        PollerFull.suspended s = [activation]
        /\ PollerFull.isCurrentlyChecking s = true).

(* ================================================================== *)
(** ** Sample listeners                                                 *)
(* ================================================================== *)

Module Sample3.
(** Every listener returns. *)
Definition quiet {A} : Listener -> A -> Reaction := fun _ _ => returns.

(** Listener 7 throws on every call; the others return. *)
Definition oneThrows : Listener -> list NewsArticle -> Reaction :=
  fun listener _ => if (listener =? 7)%nat then throws TypeError else returns.

(** Listener 7 throws when it is called with [true]; the others return. *)
Definition throwsOnTrue : Listener -> bool -> Reaction :=
  fun listener isChecking =>
    if (listener =? 7)%nat && isChecking then throws TypeError else returns.

(** Listener 7 unsubscribes itself when it is called. *)
Definition leaves {A} : Listener -> A -> Reaction :=
  fun listener _ registry =>
    if (listener =? 7)%nat then (Normal tt, Journal.removeFirst 7 registry)
    else (Normal tt, registry).

(** Two subscribers and no record. *)
Definition twoListeners : JournalFull.St :=
  JournalFull.mkSt None 0 [7; 8]%nat 0 [] [].

Definition nullRecord : JournalFull.St :=
  JournalFull.mkSt (Some JournalFull.NullValue) 0 [] 0 [] [].

Definition emptyRecord : JournalFull.St :=
  JournalFull.mkSt (Some JournalFull.EmptyText) 0 [] 0 [] [].

End Sample3.

(* ================================================================== *)
(** * Properties                                                        *)
(* ================================================================== *)

(** ** Sorting by descending key *)

Section SortFacts.
Context {A : Type} (key : A -> Q).

Local Abbreviation by_key_desc := (fun a b : A => (key b - key a)%Q).

Lemma first_best_bounds l t :
  first_best key l t -> forall x, In x l -> (key x <= key t)%Q.
Proof.
  intros (pre & post & -> & Hpre & Hpost) x Hx.
  apply in_app_or in Hx as [Hx | [<- | Hx]].
  - apply Qlt_le_weak; auto.
  - apply Qle_refl.
  - auto.
Qed.

Lemma comes_after_desc a b :
  comes_after by_key_desc a b = true <-> (key a < key b)%Q.
Proof.
  unfold comes_after.
  rewrite negb_true_iff, <- not_true_iff_false, Qle_bool_iff.
  split; intros H; lra.
Qed.

Lemma sort_insert_not_nil x l : sort_insert by_key_desc x l <> [].
Proof. destruct l as [|y ys]; simpl; [|destruct comes_after]; discriminate. Qed.

Lemma sort_head_first_best l :
  forall top rest, sort by_key_desc l = top :: rest -> first_best key l top.
Proof.
  induction l as [|a l IH]; simpl; intros top rest Hs; [discriminate|].
  destruct (sort by_key_desc l) as [|y ys] eqn:Hl.
  - destruct l as [|b l']; [|exfalso; simpl in Hl; eapply sort_insert_not_nil; eauto].
    simpl in Hs. injection Hs as <- _.
    exists [], []. repeat split; simpl; intros ? [].
  - specialize (IH y ys eq_refl). simpl in Hs.
    destruct (comes_after by_key_desc a y) eqn:Hc.
    + injection Hs as <- _. apply comes_after_desc in Hc.
      destruct IH as (pre & post & -> & Hpre & Hpost).
      exists (a :: pre), post. repeat split; auto.
      intros p [<- | Hp]; auto.
    + injection Hs as <- _.
      assert (Hle : (key y <= key a)%Q).
      { destruct (Qlt_le_dec (key a) (key y)) as [Hlt | Hle]; auto.
        apply comes_after_desc in Hlt. congruence. }
      exists [], l. repeat split; simpl; [intros ? [] |].
      intros q Hq. eapply Qle_trans; [|exact Hle].
      eapply first_best_bounds; eauto.
Qed.
End SortFacts.

(** ** The theme matcher *)

Section ThemeMatcher.
Import Journal.

Lemma sort_not_nil {A} (cmp : A -> A -> Q) (l : list A) :
  l <> [] -> sort cmp l <> [].
Proof.
  destruct l as [|a l]; [congruence|]. intros _. simpl.
  destruct (sort cmp l) as [|y ys]; simpl; [|destruct comes_after]; discriminate.
Qed.

Lemma THEMED_JOURNAL_IMAGES_not_nil : THEMED_JOURNAL_IMAGES <> [].
Proof. discriminate. Qed.

(** Whenever some theme scores above zero on the lower-cased text made
    of the quote and its tags, [findRelevantImage] returns the image and
    description of the first theme of the table, in definition order,
    whose score is maximal: every theme before it scores strictly less
    and every theme after it scores no more. *)
Lemma findRelevantImage_sorted_head
      (quoteContent : string) (tags : list string) (seed : nat) :
  (exists t, In t THEMED_JOURNAL_IMAGES
             /\ (0 < scoreOf (combine quoteContent tags) t)%Q) ->
  exists best,
    first_best (scoreOf (combine quoteContent tags)) THEMED_JOURNAL_IMAGES best
    /\ findRelevantImage quoteContent tags seed
       = mkImage (imageUrl best) (description best).
Proof.
  intros (t & Ht & Hpos).
  unfold findRelevantImage.
  set (text := combine quoteContent tags) in *.
  set (scoredTable := map (fun t => mkScore t (scoreOf text t)) THEMED_JOURNAL_IMAGES).
  destruct (sort (fun a b => (score b - score a)%Q) scoredTable)
    as [|top rest] eqn:Hsort.
  { exfalso. revert Hsort. apply sort_not_nil. unfold scoredTable.
    destruct THEMED_JOURNAL_IMAGES eqn:E; [|discriminate].
    now apply THEMED_JOURNAL_IMAGES_not_nil in E. }
  pose proof (sort_head_first_best score _ _ _ Hsort) as Hfb.
  assert (Hmax : (score (mkScore t (scoreOf text t)) <= score top)%Q).
  { eapply first_best_bounds; [exact Hfb|]. unfold scoredTable.
    apply in_map_iff. eauto. }
  simpl in Hmax.
  destruct Hfb as (pre' & post' & Hsplit & Hpre & Hpost).
  unfold scoredTable in Hsplit.
  apply map_eq_app in Hsplit as (pre & tl & Htab & Hpre' & Htl).
  apply map_eq_cons in Htl as (best & post & -> & Hbest & Hpost').
  subst pre' post' top. simpl in *.
  assert (Hbranch : Qle_bool (scoreOf text best) 0 = false).
  { apply not_true_iff_false. rewrite Qle_bool_iff. lra. }
  rewrite Hbranch. simpl.
  exists best. split; [|reflexivity].
  exists pre, post. split; [exact Htab|]. split.
  - intros p Hp. apply (Hpre (mkScore p (scoreOf text p))).
    apply in_map_iff. eauto.
  - intros q Hq. apply (Hpost (mkScore q (scoreOf text q))).
    apply in_map_iff. eauto.
Qed.
End ThemeMatcher.

(** ** The daily journal: cache and fallback *)

Section DailyEntries.
Import Journal.

Ltac run_js :=
  unfold fetchDailyJournalEntries, fetchJournalEntryById, checkForNewArticles,
         checkBeforeFetch, checkAfterFetch, fetchQuotes, getItem, setItem,
         notifyArticleUpdateListeners, JSON_parse,
         try_catch, bind, ret, throw, get, modify in *;
  simpl in *.

Lemma fetchDaily_garbage env s :
  localStorage s = Some Garbage ->
  fetchDailyJournalEntries env s = (Thrown SyntaxError, s).
Proof.
  intros H. destruct s as [st ts ls rq fo dl]. simpl in H. subst st.
  reflexivity.
Qed.

Lemma fetchDaily_hit env s date e es :
  localStorage s = Some (Blob date (Some (e :: es))) ->
  sameDate date (currentDate env) = true ->
  fetchDailyJournalEntries env s = (Normal (e :: es), s).
Proof.
  intros H Hd. destruct s as [st ts ls rq fo dl]. simpl in H. subst st.
  run_js. rewrite Hd. reflexivity.
Qed.

Lemma fetchDaily_fetched env s quotes :
  Journal.nothingForToday (localStorage s) (currentDate env) ->
  response env = Quotes quotes ->
  fetchDailyJournalEntries env s
  = (Normal (transformAll env quotes),
     mkSt (Some (Blob (Some (currentDate env)) (Some (transformAll env quotes))))
          (lastFetchTimestamp s) (articleUpdateListeners s)
          (S (requests s)) (fanouts s) (delivered s)).
Proof.
  intros Hst Hr. destruct s as [st ts ls rq fo dl]. run_js. rewrite Hr.
  destruct st as [[|date [[|e es]|]]|]; simpl in *; try contradiction;
    try rewrite Hst; reflexivity.
Qed.

Lemma fetchDaily_fallback env s :
  Journal.nothingForToday (localStorage s) (currentDate env) ->
  failed (response env) ->
  fetchDailyJournalEntries env s
  = (Normal (persistedEntries (localStorage s)),
     mkSt (localStorage s) (lastFetchTimestamp s) (articleUpdateListeners s)
          (S (requests s)) (fanouts s) (delivered s)).
Proof.
  intros Hst Hr. destruct s as [st ts ls rq fo dl]. run_js.
  destruct (response env); simpl in Hr; try contradiction;
    destruct st as [[|date [[|e es]|]]|]; simpl in *; try contradiction;
    try rewrite Hst; reflexivity.
Qed.

(** A request is sent exactly when the stored text parses and holds no
    entries for today. *)
Lemma fetchDaily_requests env s :
  requests (snd (fetchDailyJournalEntries env s)) = S (requests s) ->
  nothingForToday (localStorage s) (currentDate env).
Proof.
  intros H. destruct s as [st ts ls rq fo dl].
  destruct st as [[|date [[|e es]|]]|]; simpl; auto.
  - simpl in H. lia.
  - destruct (sameDate date (currentDate env)) eqn:Hd; auto.
    erewrite fetchDaily_hit in H by (simpl; eauto). simpl in H. lia.
Qed.

(** C3.  With a record for today that holds entries, the function
    returns exactly these entries and leaves the whole state as it was, the
    count of requests included; a second call on the same day, whatever the
    network would answer, returns the same entries and sends no request
    either. *)
Theorem fetchDailyJournalEntries_same_day
        (env env' : Env) (s : St) (entries : list NewsArticle) :
  localStorage s = Some (Blob (Some (currentDate env)) (Some entries)) ->
  entries <> [] ->
  currentDate env' = currentDate env ->
  fetchDailyJournalEntries env s = (Normal entries, s)
  /\ fetchDailyJournalEntries env' (snd (fetchDailyJournalEntries env s))
     = (Normal entries, s)
  /\ requests (snd (fetchDailyJournalEntries env'
                      (snd (fetchDailyJournalEntries env s))))
     = requests s.
Proof.
  intros Hst Hne Hday.
  destruct entries as [|e es]; [congruence|].
  assert (H1 : fetchDailyJournalEntries env s = (Normal (e :: es), s)).
  { eapply fetchDaily_hit; eauto. simpl. apply String.eqb_refl. }
  assert (H2 : fetchDailyJournalEntries env' s = (Normal (e :: es), s)).
  { eapply fetchDaily_hit; eauto. simpl. rewrite Hday. apply String.eqb_refl. }
  rewrite H1. simpl. rewrite H2. auto.
Qed.

Lemma fetchDailyJournalEntries_same_day_witness :
  fetchDailyJournalEntries (Sample.online [Sample.quoteC]) Sample.cachedToday
  = (Normal [Sample.entryA; Sample.entryB], Sample.cachedToday)
  /\ fetchDailyJournalEntries Sample.offline
       (snd (fetchDailyJournalEntries (Sample.online [Sample.quoteC])
                                      Sample.cachedToday))
     = (Normal [Sample.entryA; Sample.entryB], Sample.cachedToday)
  /\ requests (snd (fetchDailyJournalEntries Sample.offline
                      (snd (fetchDailyJournalEntries
                              (Sample.online [Sample.quoteC])
                              Sample.cachedToday))))
     = requests Sample.cachedToday.
Proof.
  apply (fetchDailyJournalEntries_same_day
           (Sample.online [Sample.quoteC]) Sample.offline Sample.cachedToday
           [Sample.entryA; Sample.entryB]).
  - reflexivity.
  - discriminate.
  - reflexivity.
Defined.

(** Two calls on one day when the first one has to fetch: once the
    first call has stored a non-empty result, the second call returns the
    same entries and sends no further request. *)
Lemma fetchDaily_twice_after_fetch env env' s quotes :
  nothingForToday (localStorage s) (currentDate env) ->
  response env = Quotes quotes ->
  quotes <> [] ->
  currentDate env' = currentDate env ->
  let first := fetchDailyJournalEntries env s in
  let second := fetchDailyJournalEntries env' (snd first) in
  fst second = fst first /\ requests (snd second) = requests (snd first).
Proof.
  intros Hst Hr Hne Hday first second. subst first second.
  rewrite (fetchDaily_fetched env s quotes Hst Hr). simpl.
  destruct (transformAll env quotes) as [|e es] eqn:Ht.
  { destruct quotes; [congruence | discriminate]. }
  erewrite fetchDaily_hit; simpl; eauto.
  rewrite Hday. apply String.eqb_refl.
Qed.

(** C4.  When a call gets as far as the request (a request is sent) and
    the network path throws, the call still completes normally, with the
    entries of the persisted record whatever its date, or with the empty
    list when there is no record or the record has no entries; the
    storage is left as it was. *)
Theorem fetchDailyJournalEntries_network_error (env : Env) (s : St) :
  requests (snd (fetchDailyJournalEntries env s)) = S (requests s) ->
  failed (response env) ->
  fst (fetchDailyJournalEntries env s) = Normal (persistedEntries (localStorage s))
  /\ localStorage (snd (fetchDailyJournalEntries env s)) = localStorage s.
Proof.
  intros Hreq Hfail. apply fetchDaily_requests in Hreq.
  rewrite (fetchDaily_fallback env s Hreq Hfail). auto.
Qed.

Lemma fetchDailyJournalEntries_network_error_witness :
  fst (fetchDailyJournalEntries Sample.offline Sample.cachedYesterday)
  = Normal [Sample.entryA; Sample.entryB]
  /\ localStorage (snd (fetchDailyJournalEntries Sample.offline Sample.cachedYesterday))
     = localStorage Sample.cachedYesterday.
Proof.
  apply (fetchDailyJournalEntries_network_error Sample.offline Sample.cachedYesterday).
  - reflexivity.
  - exact I.
Defined.

Lemma find_hasId id l a : find (hasId id) l = Some a -> News.id a = id /\ In a l.
Proof.
  intros H. apply find_some in H as [Hin Hid].
  unfold hasId in Hid. apply String.eqb_eq in Hid. auto.
Qed.

(** C10.  [fetchJournalEntryById] always completes normally.  Its result
    is [null], or an article whose [id] is the requested one and which
    comes from the entries of the stored record or from the entries that
    [fetchDailyJournalEntries] returned. *)
Theorem fetchJournalEntryById_total (id : string) (env : Env) (s : St) :
  exists r,
    fst (fetchJournalEntryById id env s) = Normal r
    /\ match r with
       | None => True
       | Some entry =>
           News.id entry = id
           /\ (In entry (persistedEntries (localStorage s))
               \/ exists daily,
                    fst (fetchDailyJournalEntries env s) = Normal daily
                    /\ In entry daily)
       end.
Proof.
  assert (Hdaily :
              exists r,
                fst (match fetchDailyJournalEntries env s with
                     | (Normal all, s1) => (Normal (find (hasId id) all), s1)
                     | (Thrown err, s1) => (Normal None, s1)
                     end) = Normal r
                /\ match r with
                   | None => True
                   | Some entry =>
                       News.id entry = id
                       /\ (In entry (persistedEntries (localStorage s))
                           \/ exists daily,
                                fst (fetchDailyJournalEntries env s) = Normal daily
                                /\ In entry daily)
                   end).
  { destruct (fetchDailyJournalEntries env s) as [[daily|err] s1] eqn:Hd; simpl.
    - exists (find (hasId id) daily). split; [reflexivity|].
      destruct (find (hasId id) daily) as [entry|] eqn:Hf; [|exact I].
      apply find_hasId in Hf as [? ?]. split; [auto|]. right. eauto.
    - exists None. auto. }
  unfold fetchJournalEntryById, try_catch, bind, getItem, JSON_parse, ret, throw.
  destruct (localStorage s) as [[|date [[|e es]|]]|] eqn:Hst;
    cbn -[find fetchDailyJournalEntries].
  - exists None. auto.
  - destruct (fetchDailyJournalEntries env s) as [[daily|err] s1]; exact Hdaily.
  - destruct (find (hasId id) (e :: es)) as [entry|] eqn:Hc.
    + exists (Some entry). split; [reflexivity|].
      apply find_hasId in Hc as [? ?]. auto.
    + destruct (fetchDailyJournalEntries env s) as [[daily|err] s1]; exact Hdaily.
  - destruct (fetchDailyJournalEntries env s) as [[daily|err] s1]; exact Hdaily.
  - destruct (fetchDailyJournalEntries env s) as [[daily|err] s1]; exact Hdaily.
Qed.
End DailyEntries.

(** ** Change detection *)

Section ChangeDetection.
Import Journal.

(** What the part before the request does: past the 30 s window it
    records the time and reads the entries of the stored record. *)
Lemma checkBeforeFetch_reads t s cached :
  fst (checkBeforeFetch t s) = Normal (Some cached) <->
  (30000 <= t - lastFetchTimestamp s)%Z
  /\ localStorage s <> Some Garbage
  /\ cached = persistedEntries (localStorage s).
Proof.
  destruct s as [st ts ls rq fo dl].
  unfold checkBeforeFetch, bind, get, modify, getItem, JSON_parse, ret, throw.
  simpl. destruct (t - ts <? 30000)%Z eqn:Hw; simpl.
  - apply Z.ltb_lt in Hw. split; [discriminate | lia].
  - apply Z.ltb_ge in Hw.
    destruct st as [[|date [l|]]|]; simpl;
      (split; [intros H; try discriminate; injection H as <-; repeat split; auto; discriminate
              |intros (_ & Hg & ->); try congruence]).
Qed.

Lemma checkBeforeFetch_state t s cached :
  fst (checkBeforeFetch t s) = Normal (Some cached) ->
  snd (checkBeforeFetch t s)
  = mkSt (localStorage s) t (articleUpdateListeners s) (requests s)
         (fanouts s) (delivered s).
Proof.
  destruct s as [st ts ls rq fo dl].
  unfold checkBeforeFetch, bind, get, modify, getItem, JSON_parse, ret, throw.
  simpl. destruct (t - ts <? 30000)%Z; simpl; [discriminate|].
  destruct st as [[|date [l|]]|]; simpl; intros H; try discriminate; reflexivity.
Qed.

(** The run of [checkForNewArticles] once it has read [cached] and the
    response carries [quotes]. *)
Lemma checkForNewArticles_compared env s cached quotes :
  fst (checkBeforeFetch (now env) s) = Normal (Some cached) ->
  response env = Quotes quotes ->
  checkForNewArticles env s
  = if hasNewContent cached (transformAll env quotes)
    then (Normal true,
          mkSt (Some (Blob (Some (currentDate env)) (Some (transformAll env quotes))))
               (now env) (articleUpdateListeners s) (S (requests s))
               (fanouts s ++ [transformAll env quotes])
               (delivered s
                ++ map (fun listener => (listener, transformAll env quotes))
                       (articleUpdateListeners s)))
    else (Normal false,
          mkSt (localStorage s) (now env) (articleUpdateListeners s)
               (S (requests s)) (fanouts s) (delivered s)).
Proof.
  intros Hb Hr. pose proof (checkBeforeFetch_state _ _ _ Hb) as Hs.
  unfold checkForNewArticles, try_catch, bind at 1.
  destruct (checkBeforeFetch (now env) s) as [c s1]. simpl in Hb, Hs. subst c s1.
  unfold checkAfterFetch, fetchQuotes, bind, modify, setItem,
         notifyArticleUpdateListeners, ret, throw.
  simpl. rewrite Hr.
  destruct (hasNewContent cached (transformAll env quotes)); reflexivity.
Qed.

Lemma sameContent_shares cached latest :
  sameContent cached latest = true <-> shares cached latest.
Proof.
  unfold sameContent, shares.
  rewrite andb_true_iff, !String.eqb_eq. tauto.
Qed.

Lemma hasNewContent_false cached latest :
  hasNewContent cached latest = false <->
  cached <> [] /\ Exists (fun c => Exists (shares c) latest) cached.
Proof.
  unfold hasNewContent.
  rewrite orb_false_iff, negb_false_iff, existsb_exists, List.Exists_exists.
  split.
  - intros (Hlen & c & Hin & Hex). split.
    + destruct cached; [discriminate | congruence].
    + exists c. split; [exact Hin|].
      apply existsb_exists in Hex as (l & Hl & Hs).
      apply List.Exists_exists. exists l. split; [exact Hl|].
      now apply sameContent_shares.
  - intros (Hne & c & Hin & Hex). split.
    + destruct cached; [congruence | reflexivity].
    + exists c. split; [exact Hin|].
      apply List.Exists_exists in Hex as (l & Hl & Hs).
      apply existsb_exists. exists l. split; [exact Hl|].
      now apply sameContent_shares.
Qed.




(** The two halves at the request compose to the whole function: this is
    how the poller below runs it. *)
Lemma checkForNewArticles_split env s :
  checkForNewArticles env s
  = match checkBeforeFetch (now env) s with
    | (Normal None, s1) => (Normal false, s1)
    | (Normal (Some cachedEntries), s1) =>
        try_catch (checkAfterFetch cachedEntries env) (fun error => ret false) s1
    | (Thrown _, s1) => (Normal false, s1)
    end.
Proof.
  unfold checkForNewArticles, try_catch, bind.
  destruct (checkBeforeFetch (now env) s) as [[[cached|]|e] s1]; reflexivity.
Qed.
End ChangeDetection.

(** ** The fallback aggregator *)

Section Fallback.
Import MultiApi.
Context {W : Type}.
Variables fetchMediaStackArticles fetchNewsApiArticles fetchGuardianArticles
  : option Category -> Z -> M W (list NewsArticle).

Local Abbreviation fetchAll :=
  (fetchArticlesFromAllSources
     fetchMediaStackArticles fetchNewsApiArticles fetchGuardianArticles).
Local Abbreviation clientOf :=
  (client fetchMediaStackArticles fetchNewsApiArticles fetchGuardianArticles).
Local Abbreviation inOrder :=
  (callInOrder fetchMediaStackArticles fetchNewsApiArticles fetchGuardianArticles).

Lemma fetchAll_cons category limit apiSource rest (s : @St W) :
  fetchAll category limit (apiSource :: rest) s
  = match clientOf apiSource category limit (world s) with
    | (Normal articles, w1) =>
        let s1 := mkSt (latestArticles s) w1
                       (invoked s ++ [(apiSource, Normal articles)]%list) in
        if (0 <? length articles)%nat
        then (Normal articles,
              mkSt (fun k => if NewsApiSource_eqb k apiSource then articles
                             else latestArticles s k)
                   w1 (invoked s1))
        else fetchAll category limit rest s1
    | (Thrown e, w1) =>
        fetchAll category limit rest
                 (mkSt (latestArticles s) w1
                       (invoked s ++ [(apiSource, Thrown e)]%list))
    end.
Proof.
  simpl.
  unfold bind at 1, try_catch, bind at 1.
  destruct apiSource; unfold invoke, client; simpl;
    match goal with
    | |- context [?f category limit (world s)] =>
        destruct (f category limit (world s)) as [[articles|e] w1]
    end; simpl; try reflexivity;
    unfold bind, storeLatest, modify, ret; simpl;
    destruct (0 <? length articles)%nat; reflexivity.
Qed.

Lemma inOrder_sources category limit sources w :
  map fst (fst (inOrder category limit sources w)) = sources.
Proof.
  revert w. induction sources as [|a l IH]; intros w; simpl; [reflexivity|].
  simpl.
  destruct (client _ _ _ a category limit w) as [c w1].
  specialize (IH w1).
  destruct (callInOrder _ _ _ category limit l w1) as [calls w2].
  simpl in *. now rewrite IH.
Qed.

(** C2.  The call tries a prefix [tried] of the priority list: it invokes
    exactly the clients of [tried], once each and in this order, and the
    world is left as these calls leave it.  Either the whole list was
    tried, every call threw or returned no article, and the result is the
    empty list with [latestArticles] untouched; or the last call made
    returned a non-empty list after calls that all threw or returned
    nothing, this list is the result, it is stored under the key of its
    provider while the other keys keep their value, and no provider after
    it is invoked.  The call never throws. *)
Theorem fetchArticlesFromAllSources_fallback
        (category : option Category) (limit : Z)
        (apiPriority : list NewsApiSource) (s : @St W) :
  exists tried later,
    apiPriority = (tried ++ later)%list
    /\ invoked (snd (fetchAll category limit apiPriority s))
       = (invoked s ++ fst (inOrder category limit tried (world s)))%list
    /\ world (snd (fetchAll category limit apiPriority s))
       = snd (inOrder category limit tried (world s))
    /\ ((later = []
         /\ Forall passedOver (fst (inOrder category limit tried (world s)))
         /\ fst (fetchAll category limit apiPriority s) = Normal []
         /\ latestArticles (snd (fetchAll category limit apiPriority s))
            = latestArticles s)
        \/ (exists before hit articles,
              fst (inOrder category limit tried (world s))
              = (before ++ [(hit, Normal articles)])%list
              /\ Forall passedOver before
              /\ articles <> []
              /\ fst (fetchAll category limit apiPriority s) = Normal articles
              /\ forall k,
                   latestArticles (snd (fetchAll category limit apiPriority s)) k
                   = if NewsApiSource_eqb k hit then articles
                     else latestArticles s k)).
Proof.
  revert s. induction apiPriority as [|apiSource rest IH]; intros s.
  - exists [], []. simpl. rewrite app_nil_r.
    repeat split. left. repeat split. constructor.
  - rewrite fetchAll_cons.
    destruct (clientOf apiSource category limit (world s)) as [[articles|e] w1] eqn:Hc.
    + destruct articles as [|a l]; simpl.
      * (* an empty result: the loop goes on *)
        set (s1 := mkSt (latestArticles s) w1
                        (invoked s ++ [(apiSource, Normal [])]%list)).
        destruct (IH s1) as (tried & later & Hsplit & Hinv & Hw & Hcases).
        exists (apiSource :: tried), later.
        simpl. rewrite Hc.
        simpl in Hinv, Hw, Hcases.
        destruct (callInOrder _ _ _ category limit tried w1) as [calls w2] eqn:Hrun.
        simpl in *. split; [now rewrite Hsplit|].
        split; [now rewrite Hinv, <- app_assoc|]. split; [exact Hw|].
        destruct Hcases as [(Hl & Hall & Hres & Hlat)
                           | (before & hit & arts & Hlog & Hall & Hne & Hres & Hlat)].
        -- left. repeat split; auto. constructor; [reflexivity | exact Hall].
        -- right. exists ((apiSource, Normal []) :: before), hit, arts.
           subst calls. repeat split; auto. constructor; [reflexivity | exact Hall].
      * (* the first non-empty result *)
        exists [apiSource], rest.
        simpl. rewrite Hc. simpl.
        repeat split. right. exists [], apiSource, (a :: l).
        repeat split; auto; discriminate.
    + (* the client threw: the loop goes on *)
      set (s1 := mkSt (latestArticles s) w1
                      (invoked s ++ [(apiSource, Thrown e)]%list)).
      destruct (IH s1) as (tried & later & Hsplit & Hinv & Hw & Hcases).
      exists (apiSource :: tried), later.
      simpl. rewrite Hc.
      simpl in Hinv, Hw, Hcases.
      destruct (callInOrder _ _ _ category limit tried w1) as [calls w2] eqn:Hrun.
      simpl in *. split; [now rewrite Hsplit|].
      split; [now rewrite Hinv, <- app_assoc|]. split; [exact Hw|].
      destruct Hcases as [(Hl & Hall & Hres & Hlat)
                         | (before & hit & arts & Hlog & Hall & Hne & Hres & Hlat)].
      -- left. repeat split; auto. constructor; [exact I | exact Hall].
      -- right. exists ((apiSource, Thrown e) :: before), hit, arts.
         subst calls. repeat split; auto. constructor; [exact I | exact Hall].
Qed.
End Fallback.

(** The scenario of the specification: the first provider throws, the
    second returns nothing, the third returns five articles.  The result is
    these five articles; the clients were called in the order 1, 2, 3, once
    each; the articles are stored under the key of the third provider. *)
Example fetchArticlesFromAllSources_three_providers :
  let run := MultiApi.fetchArticlesFromAllSources
               Sample.mediaStackDown Sample.newsApiEmpty Sample.guardianFive
               None 10 MultiApi.API_PRIORITY (MultiApi.initial 0%nat) in
  fst run = Normal Sample.fiveArticles
  /\ MultiApi.invoked (snd run)
     = [(MultiApi.MEDIASTACK, Thrown NetworkError);
        (MultiApi.NEWSAPI, Normal []);
        (MultiApi.GUARDIAN, Normal Sample.fiveArticles)]
  /\ MultiApi.world (snd run) = 3%nat
  /\ MultiApi.latestArticles (snd run) MultiApi.GUARDIAN = Sample.fiveArticles
  /\ MultiApi.latestArticles (snd run) MultiApi.MEDIASTACK = [].
Proof. repeat split. Qed.

(** A provider listed after the first success is not called. *)
Example fetchArticlesFromAllSources_stops_at_first :
  let run := MultiApi.fetchArticlesFromAllSources
               Sample.mediaStackDown Sample.newsApiEmpty Sample.guardianFive
               None 10 [MultiApi.GUARDIAN; MultiApi.MEDIASTACK; MultiApi.NEWSAPI]
               (MultiApi.initial 0%nat) in
  fst run = Normal Sample.fiveArticles
  /\ MultiApi.invoked (snd run) = [(MultiApi.GUARDIAN, Normal Sample.fiveArticles)]
  /\ MultiApi.world (snd run) = 1%nat.
Proof. repeat split. Qed.

(** ** The read operations of the service *)

Section ReadFallback.
Import NewsService.
Variable getAllArticles : list NewsArticle.
Variable getArticlesByCategory : Category -> list NewsArticle.
Variable getTrendingArticles : list NewsArticle.
Variable searchArticles : string -> list NewsArticle.
Variable getArticleById : string -> option NewsArticle.
Variable getRelatedArticles : string -> Category -> Z -> list NewsArticle.
Variable shuffle : list NewsArticle -> list NewsArticle.

Lemma inJournal_thrown {A} (m : M Journal.St A) s e :
  fst (m (journal s)) = Thrown e ->
  exists j', inJournal m s = (Thrown e, set_journal j' s).
Proof.
  unfold inJournal. destruct (m (journal s)) as [c j']. simpl.
  intros ->. eauto.
Qed.

(** In this model a live path fails exactly when
    [fetchDailyJournalEntries] throws, and it throws exactly on a stored
    text that does not parse. *)
Lemma fetchDaily_throws_iff env j :
  (exists e, fst (Journal.fetchDailyJournalEntries env j) = Thrown e)
  <-> Journal.localStorage j = Some Journal.Garbage.
Proof.
  split.
  - intros (e & H). destruct j as [st ts ls rq fo dl]. simpl.
    destruct st as [[|date [[|a l]|]]|]; auto; exfalso; revert H;
      unfold Journal.fetchDailyJournalEntries, Journal.fetchQuotes, try_catch,
             bind, Journal.getItem, Journal.JSON_parse, Journal.setItem, modify,
             ret, throw; simpl;
      try destruct (Journal.sameDate date (Journal.currentDate env));
      simpl; try discriminate;
      destruct (Journal.response env); simpl; discriminate.
  - intros H. exists SyntaxError. now rewrite fetchDaily_garbage.
Qed.

(** C6, as the code has it.  When the journal fetch of the live path
    throws: [fetchAllArticles] returns the article cache if it is not
    empty and the whole local dataset otherwise; each of the other five
    reads returns the answer of its own query on the local dataset,
    whatever the article cache holds. *)
Theorem reads_fall_back
        (s : St) (env : Journal.Env) (e : JsError) (forceRefresh : bool)
        (query id currentArticleId : string) (limit : Z) :
  fst (Journal.fetchDailyJournalEntries env (journal s)) = Thrown e ->
  fst (fetchAllArticles getAllArticles forceRefresh env s)
  = Normal (if (0 <? length (latestArticles s))%nat then latestArticles s
            else getAllArticles)
  /\ fst (fetchArticlesByCategory getArticlesByCategory "journal" env s)
     = Normal (getArticlesByCategory "journal")
  /\ fst (fetchTrendingArticles getTrendingArticles env s)
     = Normal getTrendingArticles
  /\ fst (searchAllArticles searchArticles query env s)
     = Normal (searchArticles query)
  /\ fst (fetchArticleById getArticleById id env s)
     = Normal (getArticleById id)
  /\ fst (fetchRelatedArticles getRelatedArticles shuffle
                               currentArticleId "journal" limit env s)
     = Normal (getRelatedArticles currentArticleId "journal" limit).
Proof.
  intros Hthrow.
  destruct (inJournal_thrown _ s e Hthrow) as (j' & Hj).
  assert (Hgarbage : Journal.localStorage (journal s) = Some Journal.Garbage).
  { apply (fetchDaily_throws_iff env). eauto. }
  repeat split.
  - unfold fetchAllArticles, try_catch, bind, get, ret. simpl.
    destruct (0 <? length (latestArticles s))%nat eqn:Hlen; simpl.
    + destruct forceRefresh; simpl; [|reflexivity].
      rewrite Hj. simpl. now rewrite Hlen.
    + rewrite Hj. simpl. now rewrite Hlen.
  - unfold fetchArticlesByCategory, try_catch. simpl. now rewrite Hj.
  - unfold fetchTrendingArticles, try_catch, bind. now rewrite Hj.
  - unfold searchAllArticles, try_catch, bind. now rewrite Hj.
  - unfold fetchArticleById, try_catch.
    destruct (getArticleById id) as [mockArticle|]; [reflexivity|].
    unfold inJournal, Journal.fetchJournalEntryById, try_catch, bind,
           Journal.getItem, Journal.JSON_parse, throw, ret.
    rewrite Hgarbage. reflexivity.
  - unfold fetchRelatedArticles, try_catch, bind. simpl. now rewrite Hj.
Qed.
End ReadFallback.

Lemma reads_fall_back_witness :
  let s := Sample.serviceOverCorrupt in
  let env := Sample.offline in
  fst (NewsService.fetchAllArticles Sample.mockAll true env s)
  = Normal (if (0 <? length (NewsService.latestArticles s))%nat
            then NewsService.latestArticles s else Sample.mockAll)
  /\ fst (NewsService.fetchArticlesByCategory Sample.mockByCategory "journal" env s)
     = Normal (Sample.mockByCategory "journal")
  /\ fst (NewsService.fetchTrendingArticles Sample.mockTrending env s)
     = Normal Sample.mockTrending
  /\ fst (NewsService.searchAllArticles Sample.mockSearch "chips" env s)
     = Normal (Sample.mockSearch "chips")
  /\ fst (NewsService.fetchArticleById Sample.mockById "id-a" env s)
     = Normal (Sample.mockById "id-a")
  /\ fst (NewsService.fetchRelatedArticles Sample.mockRelated (fun l => l)
                                           "id-a" "journal" 3 env s)
     = Normal (Sample.mockRelated "id-a" "journal" 3).
Proof.
  apply (reads_fall_back Sample.mockAll Sample.mockByCategory Sample.mockTrending
                         Sample.mockSearch Sample.mockById Sample.mockRelated
                         (fun l => l) Sample.serviceOverCorrupt Sample.offline
                         SyntaxError true "chips" "id-a" "id-a" 3).
  reflexivity.
Defined.

(** The claim C6 as the specification words it fails for the reads other
    than [fetchAllArticles]: the journal fetch throws, the article cache
    holds an article, and [fetchArticlesByCategory] still answers from the
    local dataset, which has nothing in this category. *)
Lemma reads_latest_cache_counterexample :
  fst (Journal.fetchDailyJournalEntries
         Sample.offline (NewsService.journal Sample.serviceOverCorrupt))
  = Thrown SyntaxError
  /\ NewsService.latestArticles Sample.serviceOverCorrupt = [Sample.entryA]
  /\ fst (NewsService.fetchArticlesByCategory
            Sample.mockByCategory "journal" Sample.offline Sample.serviceOverCorrupt)
     = Normal []
  /\ fst (NewsService.fetchArticlesByCategory
            Sample.mockByCategory "journal" Sample.offline Sample.serviceOverCorrupt)
     <> Normal (NewsService.latestArticles Sample.serviceOverCorrupt).
Proof. repeat split. discriminate. Qed.

(** *** The same reads in the MediaStack variant *)

Section MediaStackFallback.
Import NewsServiceMediaStack.
Context {W : Type}.
Variable fetchMediaStackArticles : option Category -> Z -> M W (list NewsArticle).
Variable getAllArticles : list NewsArticle.
Variable getArticlesByCategory : Category -> list NewsArticle.

(** When the MediaStack client throws, [fetchAllArticles] returns the
    article cache if it holds anything, else the local dataset. *)
Lemma mediaStack_fetchAllArticles_falls_back
      (s : @St W) (env : Journal.Env) (e : JsError) (forceRefresh : bool)
      (journalArticles : list NewsArticle) :
  fst (Journal.fetchDailyJournalEntries env (journal s)) = Normal journalArticles ->
  fst (fetchMediaStackArticles None 20 (world s)) = Thrown e ->
  fst (fetchAllArticles fetchMediaStackArticles getAllArticles forceRefresh env s)
  = Normal (if (0 <? length (latestArticles s))%nat then latestArticles s
            else getAllArticles).
Proof.
  intros Hj Hm. destruct s as [j la lm w]. simpl in *.
  unfold fetchAllArticles, try_catch, bind, get, ret, inJournal, inWorld. simpl.
  destruct (0 <? length la)%nat eqn:Hlen; simpl.
  - destruct forceRefresh; simpl; [|reflexivity].
    destruct (Journal.fetchDailyJournalEntries env j) as [cj j']. simpl in Hj. subst cj.
    simpl. destruct (fetchMediaStackArticles None 20 w) as [cm w']. simpl in Hm.
    subst cm. simpl. now rewrite Hlen.
  - destruct (Journal.fetchDailyJournalEntries env j) as [cj j']. simpl in Hj. subst cj.
    simpl. destruct (fetchMediaStackArticles None 20 w) as [cm w']. simpl in Hm.
    subst cm. simpl. now rewrite Hlen.
Qed.

(** When the MediaStack client throws, [fetchArticlesByCategory] answers
    from the local dataset; the article cache is not looked at. *)
Lemma mediaStack_fetchArticlesByCategory_falls_back
      (s : @St W) (env : Journal.Env) (e : JsError) (category : Category) :
  String.eqb category "journal" = false ->
  fst (fetchMediaStackArticles (Some category) 20 (world s)) = Thrown e ->
  fst (fetchArticlesByCategory fetchMediaStackArticles getArticlesByCategory
                               category env s)
  = Normal (getArticlesByCategory category).
Proof.
  intros Hc Hm. unfold fetchArticlesByCategory, try_catch, inWorld.
  rewrite Hc. simpl.
  destruct (fetchMediaStackArticles (Some category) 20 (world s)) as [cm w'].
  simpl in Hm. now subst cm.
Qed.
End MediaStackFallback.

(** With MediaStack down and the article cache holding an article, the
    technology category is answered from the local dataset. *)
Example mediaStack_fetchArticlesByCategory_provider_down :
  NewsServiceMediaStack.latestArticles Sample.serviceProviderDown = [Sample.entryA]
  /\ fst (NewsServiceMediaStack.fetchArticlesByCategory
            Sample.mediaStackDown Sample.mockByCategory "technology"
            Sample.offline Sample.serviceProviderDown)
     = Normal [Sample.mockArticle].
Proof. split; reflexivity. Qed.

(** ** The poller *)

Section Poller.
Import NewsService.

Lemma begin_skips t s :
  isCurrentlyChecking s = true -> checkAndNotify_begin t s = (Normal tt, s).
Proof.
  intros H. unfold checkAndNotify_begin, bind, get. simpl. now rewrite H.
Qed.

Lemma begin_starts t s :
  isCurrentlyChecking s = false ->
  exists j' activation,
    checkAndNotify_begin t s
    = (Normal tt,
       mkSt j' (latestArticles s) (pollingInterval s) true
            (checkingStatusListeners s) (timers s) (nextTimer s)
            (suspended s ++ [activation])
            (statusLog s
             ++ map (fun listener => (listener, true)) (checkingStatusListeners s))).
Proof.
  intros H. destruct s as [j la pi ic cl tm nt su sl]. simpl in H. subst ic.
  unfold checkAndNotify_begin, bind, get, modify, notifyCheckingStatusListeners,
         inJournal, try_catch, ret.
  simpl.
  destruct (Journal.checkBeforeFetch t j) as [[[cached|]|e] j1]; simpl; eauto.
Qed.

Lemma resume_ends activation env s :
  exists j' c,
    checkAndNotify_resume activation env s
    = (c,
       mkSt j' (latestArticles s) (pollingInterval s) false
            (checkingStatusListeners s) (timers s) (nextTimer s) (suspended s)
            (statusLog s
             ++ map (fun listener => (listener, false)) (checkingStatusListeners s)))
    /\ match activation with
       | AwaitingSettled c0 => c = c0 /\ j' = journal s
       | AwaitingFetch _ => exists b, c = Normal b
       end.
Proof.
  destruct s as [j la pi ic cl tm nt su sl].
  unfold checkAndNotify_resume, try_finally, bind, modify,
         notifyCheckingStatusListeners, inJournal, try_catch, ret.
  destruct activation as [cached | c0]; simpl.
  - destruct (Journal.checkAfterFetch cached env j) as [[b|e] j1]; simpl; eauto 6.
  - eauto.
Qed.

(** The begin of an activation touches neither the timers nor
    [pollingInterval], and keeps the single-flight discipline. *)
Lemma begin_frame t s :
  let s' := after (checkAndNotify_begin t) s in
  timers s' = timers s /\ nextTimer s' = nextTimer s
  /\ pollingInterval s' = pollingInterval s
  /\ (singleFlight s -> singleFlight s').
Proof.
  unfold after. destruct (isCurrentlyChecking s) eqn:Hc.
  - rewrite (begin_skips t s Hc). simpl. auto.
  - destruct (begin_starts t s Hc) as (j' & a & ->). simpl.
    repeat split. intros [[Hs _] | (a0 & _ & Hg)]; [|congruence].
    right. exists a. unfold singleFlight. simpl. now rewrite Hs.
Qed.

(** What [startArticlePolling] leaves: the former timer is gone and the
    table holds the new timer only, under a fresh handle. *)
Lemma start_installs intervalMs t s :
  oneTimer s ->
  let s' := after (startArticlePolling intervalMs t) s in
  timers s' = {[ nextTimer s := intervalMs ]}
  /\ pollingInterval s' = Some (nextTimer s)
  /\ nextTimer s' = S (nextTimer s)
  /\ (singleFlight s -> singleFlight s').
Proof.
  intros (Hnext & Hpoll).
  set (cleared := set_timers ∅ (nextTimer s) s).
  assert (Hclear :
            match pollingInterval s with
            | Some handle =>
                if (handle =? 0)%nat then ret tt else clearInterval handle
            | None => ret tt
            end s = (Normal tt, cleared)).
  { subst cleared. destruct s as [j la pi ic cl tm nt su sl]. simpl in *.
    destruct pi as [h|].
    - destruct Hpoll as (Hh & _ & ms & ->).
      apply Nat.eqb_neq in Hh. rewrite Hh.
      unfold clearInterval, modify, set_timers. simpl.
      now rewrite delete_singleton_eq.
    - subst tm. reflexivity. }
  pose proof (begin_frame t cleared) as (Ht & Hn & Hp & Hsf).
  unfold after in *.
  assert (Hbegin : exists s2, checkAndNotify_begin t cleared = (Normal tt, s2)).
  { destruct (isCurrentlyChecking cleared) eqn:Hc.
    - rewrite (begin_skips t cleared Hc). eauto.
    - destruct (begin_starts t cleared Hc) as (j' & a & ->). eauto. }
  destruct Hbegin as (s2 & Hb). rewrite Hb in *. simpl in Ht, Hn, Hp, Hsf.
  assert (Hrun :
            startArticlePolling intervalMs t s
            = (Normal tt,
               set_pollingInterval (Some (nextTimer s))
                 (set_timers {[ nextTimer s := intervalMs ]} (S (nextTimer s)) s2))).
  { unfold startArticlePolling, bind, get. rewrite Hclear, Hb.
    unfold setInterval, modify. simpl. rewrite Ht, Hn, insert_empty. reflexivity. }
  rewrite Hrun. simpl. repeat split.
  intros Hsf0.
  assert (Hsf1 : singleFlight cleared) by exact Hsf0.
  apply Hsf in Hsf1 as [[? ?] | (a & ? & ?)]; [left | right]; eauto.
Qed.

Lemma stop_clears s :
  oneTimer s ->
  let s' := after stopArticlePolling s in
  timers s' = ∅ /\ pollingInterval s' = None /\ nextTimer s' = nextTimer s
  /\ suspended s' = suspended s
  /\ isCurrentlyChecking s' = isCurrentlyChecking s.
Proof.
  intros (Hnext & Hpoll). destruct s as [j la pi ic cl tm nt su sl]. simpl in *.
  unfold after, stopArticlePolling, bind, get. simpl.
  destruct pi as [h|].
  - destruct Hpoll as (Hh & _ & ms & ->).
    apply Nat.eqb_neq in Hh. rewrite Hh.
    unfold clearInterval, modify. simpl.
    rewrite delete_singleton_eq. auto.
  - subst tm. simpl. auto.
Qed.

Lemma step_keeps ev s :
  oneTimer s /\ singleFlight s -> oneTimer (step ev s) /\ singleFlight (step ev s).
Proof.
  intros [Hone Hsf]. destruct ev as [ms t | | h t | k env | l | l | j latest]; simpl.
  - destruct (start_installs ms t s Hone) as (Ht & Hp & Hn & Hs).
    split; [|auto]. destruct Hone as [H1 _].
    unfold oneTimer. rewrite Hp, Hn, Ht. repeat split; try lia. eauto.
  - destruct (stop_clears s Hone) as (Ht & Hp & Hn & Hsu & Hc).
    split.
    + destruct Hone as [H1 _]. unfold oneTimer. rewrite Hp, Hn, Ht. auto.
    + unfold singleFlight. now rewrite Hsu, Hc.
  - destruct (timers s !! h); [|auto].
    destruct (begin_frame t s) as (Ht & Hn & Hp & Hs).
    split; [|auto]. unfold oneTimer. now rewrite Hp, Hn, Ht.
  - destruct (suspended s !! k) as [a|] eqn:Hk; [|auto].
    set (s0 := set_suspended (take k (suspended s) ++ drop (S k) (suspended s)) s).
    destruct (resume_ends a env s0) as (j' & c & Heq & _).
    unfold after. rewrite Heq. simpl. split; [exact Hone|].
    left. simpl. split; [|reflexivity].
    destruct Hsf as [[Hs _] | (a0 & Hs & _)]; rewrite Hs in *.
    + discriminate.
    + destruct k; [reflexivity | discriminate].
  - split; [exact Hone | exact Hsf].
  - split; [exact Hone | exact Hsf].
  - split; [exact Hone | exact Hsf].
Qed.

Lemma run_keeps evs s :
  oneTimer s /\ singleFlight s -> oneTimer (run evs s) /\ singleFlight (run evs s).
Proof.
  revert s. induction evs as [|ev evs IH]; intros s H; simpl; [exact H|].
  apply IH, step_keeps, H.
Qed.

Lemma boot_keeps j : oneTimer (boot j) /\ singleFlight (boot j).
Proof.
  split.
  - split; simpl; [lia | reflexivity].
  - left. split; reflexivity.
Qed.

(** C7.  In every state that the poller reaches from its start, by calls
    of [startArticlePolling] and [stopArticlePolling], timer firings,
    resumptions and anything else, the timer table holds at most one
    timer.  A call of [startArticlePolling] leaves exactly one timer, the
    new one: its handle was not in the table before, and whatever timer
    was there is gone.  In particular [startArticlePolling(1000)]
    followed by [startArticlePolling(500)] leaves exactly one timer, with
    period 500. *)
Theorem startArticlePolling_one_timer (evs : list Event) (j : Journal.St) :
  let s := run evs (boot j) in
  size (timers s) <= 1
  /\ (forall intervalMs t,
        let s' := step (CallStart intervalMs t) s in
        timers s !! nextTimer s = None
        /\ timers s' = {[ nextTimer s := intervalMs ]}
        /\ pollingInterval s' = Some (nextTimer s)
        /\ size (timers s') = 1)
  /\ (forall t1 t2,
        exists handle,
          timers (run [CallStart 1000 t1; CallStart 500 t2] s)
          = {[ handle := 500%Z ]}).
Proof.
  intros s. destruct (run_keeps evs (boot j) (boot_keeps j)) as [Hone Hsf].
  fold s in Hone, Hsf.
  assert (Hstart : forall s0 intervalMs t,
             oneTimer s0 ->
             timers (step (CallStart intervalMs t) s0)
             = {[ nextTimer s0 := intervalMs ]}
             /\ pollingInterval (step (CallStart intervalMs t) s0)
                = Some (nextTimer s0)).
  { intros s0 ms t H0. destruct (start_installs ms t s0 H0) as (? & ? & _). auto. }
  split; [|split].
  - destruct Hone as [_ Hpoll]. destruct (pollingInterval s) as [h|].
    + destruct Hpoll as (_ & _ & ms & ->). rewrite map_size_singleton. lia.
    + rewrite Hpoll, map_size_empty. lia.
  - intros ms t s'. subst s'. destruct (Hstart s ms t Hone) as [Ht Hp].
    rewrite Ht, Hp. split; [|split; [|split]]; auto.
    + destruct Hone as [_ Hpoll]. destruct (pollingInterval s) as [h|].
      * destruct Hpoll as (_ & Hlt & ms0 & ->).
        apply lookup_singleton_ne. lia.
      * rewrite Hpoll. apply lookup_empty.
    + apply map_size_singleton.
  - intros t1 t2. simpl.
    pose proof (step_keeps (CallStart 1000 t1) s (conj Hone Hsf)) as [Hone1 _].
    destruct (Hstart _ 500%Z t2 Hone1) as [Ht _]. eauto.
Qed.

(** From the start: 1000 ms, then 500 ms at once. *)
Lemma startArticlePolling_one_timer_witness :
  timers (run [CallStart 1000 60000; CallStart 500 60000] initial) = {[ 2%nat := 500%Z ]}
  /\ size (timers (run [CallStart 1000 60000; CallStart 500 60000] initial)) = 1%nat.
Proof.
  destruct (startArticlePolling_one_timer [CallStart 1000 60000] Journal.initial)
    as (_ & Hstart & _).
  destruct (Hstart 500%Z 60000%Z) as (_ & Ht & _ & Hsize).
  split; [exact Ht | exact Hsize].
Defined.
End Poller.

(* ================================================================== *)
(** * Further properties of the modules                                 *)
(* ================================================================== *)

(** ** Change detection over several calls *)

Section ChangeDetectionMore.
Import Journal.

(** The four ways a call of [checkForNewArticles] can go. *)
Lemma checkForNewArticles_cases env s :
  ((now env - lastFetchTimestamp s < 30000)%Z
   /\ checkForNewArticles env s = (Normal false, s))
  \/ (localStorage s = Some Garbage
      /\ checkForNewArticles env s
         = (Normal false,
            mkSt (localStorage s) (now env) (articleUpdateListeners s)
                 (requests s) (fanouts s) (delivered s)))
  \/ (failed (response env)
      /\ checkForNewArticles env s
         = (Normal false,
            mkSt (localStorage s) (now env) (articleUpdateListeners s)
                 (S (requests s)) (fanouts s) (delivered s)))
  \/ (exists quotes,
        (30000 <= now env - lastFetchTimestamp s)%Z
        /\ localStorage s <> Some Garbage
        /\ response env = Quotes quotes
        /\ fst (checkBeforeFetch (now env) s)
           = Normal (Some (persistedEntries (localStorage s)))).
Proof.
  destruct (Z.ltb_spec (now env - lastFetchTimestamp s) 30000) as [Hw | Hw].
  { left. split; [exact Hw|]. apply Z.ltb_lt in Hw.
    unfold checkForNewArticles, checkBeforeFetch, try_catch, bind, get, ret.
    simpl. now rewrite Hw. }
  right. apply Z.ltb_ge in Hw.
  destruct s as [st ts ls rq fo dl]. simpl in *.
  destruct st as [[|date entries]|].
  - left. split; [reflexivity|].
    unfold checkForNewArticles, checkBeforeFetch, try_catch, bind, get, modify,
           getItem, JSON_parse, ret, throw. simpl. now rewrite Hw.
  - right. destruct (response env) as [| status | | | quotes] eqn:Hr;
      try (left; split; [exact I|];
           unfold checkForNewArticles, checkBeforeFetch, checkAfterFetch, fetchQuotes,
                  try_catch, bind, get, modify, getItem, JSON_parse, ret, throw;
           simpl; rewrite Hw; destruct entries; simpl; rewrite Hr; reflexivity).
    right. exists quotes. apply Z.ltb_ge in Hw. repeat split; try discriminate; auto.
    all: try (apply checkBeforeFetch_reads; simpl; repeat split; auto; discriminate).
  - right. destruct (response env) as [| status | | | quotes] eqn:Hr;
      try (left; split; [exact I|];
           unfold checkForNewArticles, checkBeforeFetch, checkAfterFetch, fetchQuotes,
                  try_catch, bind, get, modify, getItem, JSON_parse, ret, throw;
           simpl; rewrite Hw; simpl; rewrite Hr; reflexivity).
    right. exists quotes. apply Z.ltb_ge in Hw. repeat split; try discriminate; auto.
    all: try (apply checkBeforeFetch_reads; simpl; repeat split; auto; discriminate).
Qed.

(** X1.  Calls of [checkForNewArticles] that fall inside the 30 s window
    after the last check that ran do nothing at all, however many they
    are: each returns [false], and the state, the time of the last check
    included, stays as it was, so that they do not push the window
    further. *)
Theorem checkForNewArticles_inside_window (envs : list Env) (s : St) :
  Forall (fun env => (now env - lastFetchTimestamp s < 30000)%Z) envs ->
  fold_left (fun st env => snd (checkForNewArticles env st)) envs s = s
  /\ Forall (fun env => fst (checkForNewArticles env s) = Normal false) envs.
Proof.
  induction 1 as [|env envs Hw _ [IHs IHr]]; simpl; [split; [reflexivity | constructor]|].
  assert (Hrun : checkForNewArticles env s = (Normal false, s)).
  { unfold checkForNewArticles, checkBeforeFetch, try_catch, bind, get, ret.
    simpl. apply Z.ltb_lt in Hw. now rewrite Hw. }
  rewrite Hrun. simpl. split; [exact IHs|]. constructor; [now rewrite Hrun | exact IHr].
Qed.

Lemma checkForNewArticles_inside_window_witness :
  fold_left (fun st env => snd (checkForNewArticles env st))
            [Sample2.onlineAt 60000 [Sample.quoteC];
             Sample2.onlineAt 79999 [Sample.quoteC]]
            Sample2.checkedAt50s
  = Sample2.checkedAt50s
  /\ Forall (fun env => fst (checkForNewArticles env Sample2.checkedAt50s) = Normal false)
            [Sample2.onlineAt 60000 [Sample.quoteC];
             Sample2.onlineAt 79999 [Sample.quoteC]].
Proof.
  apply (checkForNewArticles_inside_window
           [Sample2.onlineAt 60000 [Sample.quoteC];
            Sample2.onlineAt 79999 [Sample.quoteC]]
           Sample2.checkedAt50s).
  repeat constructor.
Defined.

Lemma checkForNewArticles_true_inv env s :
  fst (checkForNewArticles env s) = Normal true ->
  exists quotes,
    response env = Quotes quotes
    /\ localStorage (snd (checkForNewArticles env s))
       = Some (Blob (Some (currentDate env)) (Some (transformAll env quotes))).
Proof.
  destruct (checkForNewArticles_cases env s)
    as [[_ H] | [[_ H] | [[_ H] | (quotes & _ & _ & Hr & Hb)]]];
    try (rewrite H; simpl; discriminate).
  rewrite (checkForNewArticles_compared env s _ quotes Hb Hr).
  destruct (hasNewContent _ (transformAll env quotes)); simpl; [|discriminate].
  intros _. exists quotes. auto.
Qed.

Lemma hasNewContent_same_quotes env1 env2 quotes :
  quotes <> [] ->
  hasNewContent (transformAll env1 quotes) (transformAll env2 quotes) = false.
Proof.
  intros Hne. destruct quotes as [|q rest]; [congruence|].
  apply hasNewContent_false. unfold transformAll. simpl. split; [discriminate|].
  apply List.Exists_cons_hd, List.Exists_cons_hd. split; reflexivity.
Qed.

(** X3.  The random ids, dates and flags of the transform do not make
    content look new: when the stored entries were made of a non-empty list
    of quotes and a later check, past the window, receives the same quotes,
    it returns [false], leaves the stored record and calls no listener,
    whatever was drawn either time. *)
Theorem checkForNewArticles_same_quotes
        (env1 env2 : Env) (s : St) (date : option string)
        (quotes : list QuoteResponse) :
  quotes <> [] ->
  localStorage s = Some (Blob date (Some (transformAll env1 quotes))) ->
  (30000 <= now env2 - lastFetchTimestamp s)%Z ->
  response env2 = Quotes quotes ->
  fst (checkForNewArticles env2 s) = Normal false
  /\ localStorage (snd (checkForNewArticles env2 s)) = localStorage s
  /\ fanouts (snd (checkForNewArticles env2 s)) = fanouts s
  /\ delivered (snd (checkForNewArticles env2 s)) = delivered s.
Proof.
  intros Hne Hst Hw Hr.
  assert (Hb : fst (checkBeforeFetch (now env2) s)
               = Normal (Some (transformAll env1 quotes))).
  { apply checkBeforeFetch_reads. rewrite Hst. repeat split; auto; discriminate. }
  rewrite (checkForNewArticles_compared env2 s _ quotes Hb Hr).
  rewrite (hasNewContent_same_quotes env1 env2 quotes Hne). simpl. auto.
Qed.

Lemma checkForNewArticles_same_quotes_witness :
  fst (checkForNewArticles
         (Sample2.onlineRedrawn 90000 [Sample.quoteA; Sample.quoteC]) Sample2.storedAC)
  = Normal false
  /\ localStorage (snd (checkForNewArticles
                          (Sample2.onlineRedrawn 90000 [Sample.quoteA; Sample.quoteC])
                          Sample2.storedAC))
     = localStorage Sample2.storedAC
  /\ fanouts (snd (checkForNewArticles
                     (Sample2.onlineRedrawn 90000 [Sample.quoteA; Sample.quoteC])
                     Sample2.storedAC))
     = fanouts Sample2.storedAC
  /\ delivered (snd (checkForNewArticles
                       (Sample2.onlineRedrawn 90000 [Sample.quoteA; Sample.quoteC])
                       Sample2.storedAC))
     = delivered Sample2.storedAC.
Proof.
  apply (checkForNewArticles_same_quotes
           (Sample.online [Sample.quoteA; Sample.quoteC])
           (Sample2.onlineRedrawn 90000 [Sample.quoteA; Sample.quoteC])
           Sample2.storedAC (Some Sample.today) [Sample.quoteA; Sample.quoteC]).
  - discriminate.
  - reflexivity.
  - simpl. lia.
  - reflexivity.
Defined.

(** X4.  What a check tells the listeners is what the daily fetch serves
    afterwards: after a call of [checkForNewArticles] that returned [true]
    with a non-empty list of quotes, a call of [fetchDailyJournalEntries]
    on the same day returns the transformed quotes of that response, and
    neither sends a request nor changes the state. *)
Theorem checkForNewArticles_then_daily
        (env env' : Env) (s : St) (quotes : list QuoteResponse) :
  fst (checkForNewArticles env s) = Normal true ->
  response env = Quotes quotes ->
  quotes <> [] ->
  currentDate env' = currentDate env ->
  fetchDailyJournalEntries env' (snd (checkForNewArticles env s))
  = (Normal (transformAll env quotes), snd (checkForNewArticles env s)).
Proof.
  intros Htrue Hr Hne Hday.
  destruct (checkForNewArticles_true_inv env s Htrue)
    as (quotes' & Hr' & Hst).
  rewrite Hr in Hr'. injection Hr' as <-.
  destruct (transformAll env quotes) as [|e es] eqn:Ht.
  { destruct quotes; [congruence | discriminate]. }
  eapply fetchDaily_hit; [exact Hst|]. simpl. rewrite Hday. apply String.eqb_refl.
Qed.

Lemma checkForNewArticles_then_daily_witness :
  fetchDailyJournalEntries
    Sample.offline
    (snd (checkForNewArticles (Sample.online [Sample.quoteC]) Sample.cachedNothing))
  = (Normal (transformAll (Sample.online [Sample.quoteC]) [Sample.quoteC]),
     snd (checkForNewArticles (Sample.online [Sample.quoteC]) Sample.cachedNothing)).
Proof.
  apply (checkForNewArticles_then_daily
           (Sample.online [Sample.quoteC]) Sample.offline Sample.cachedNothing
           [Sample.quoteC]).
  - vm_compute. reflexivity.
  - reflexivity.
  - discriminate.
  - reflexivity.
Defined.
End ChangeDetectionMore.

(** ** The daily fetch: rejection, empty results, lookups by id *)

Section DailyMore.
Import Journal.

Lemma fetchDaily_sends_one env s :
  nothingForToday (localStorage s) (currentDate env) ->
  requests (snd (fetchDailyJournalEntries env s)) = S (requests s).
Proof.
  intros Hn. destruct (response env) as [| status | | | quotes] eqn:Hr.
  all: try (rewrite (fetchDaily_fallback env s Hn); [reflexivity | now rewrite Hr]).
  rewrite (fetchDaily_fetched env s quotes Hn Hr). reflexivity.
Qed.

(** X6.  An empty answer of the quotes API is stored but never served: the
    call returns the empty list and writes today's record with no entries,
    and the next call on the same day sends a request again. *)
Theorem fetchDailyJournalEntries_empty_result_refetched (env env' : Env) (s : St) :
  nothingForToday (localStorage s) (currentDate env) ->
  response env = Quotes [] ->
  currentDate env' = currentDate env ->
  fst (fetchDailyJournalEntries env s) = Normal []
  /\ localStorage (snd (fetchDailyJournalEntries env s))
     = Some (Blob (Some (currentDate env)) (Some []))
  /\ requests (snd (fetchDailyJournalEntries env'
                      (snd (fetchDailyJournalEntries env s))))
     = S (S (requests s)).
Proof.
  intros Hn Hr Hday. rewrite (fetchDaily_fetched env s [] Hn Hr). simpl.
  repeat split. rewrite fetchDaily_sends_one; [reflexivity | exact I].
Qed.

Lemma fetchDailyJournalEntries_empty_result_refetched_witness :
  fst (fetchDailyJournalEntries (Sample.online []) Sample.cachedYesterday) = Normal []
  /\ localStorage (snd (fetchDailyJournalEntries (Sample.online []) Sample.cachedYesterday))
     = Some (Blob (Some (currentDate (Sample.online []))) (Some []))
  /\ requests (snd (fetchDailyJournalEntries
                      (Sample.online [Sample.quoteC])
                      (snd (fetchDailyJournalEntries (Sample.online [])
                                                     Sample.cachedYesterday))))
     = S (S (requests Sample.cachedYesterday)).
Proof.
  apply (fetchDailyJournalEntries_empty_result_refetched
           (Sample.online []) (Sample.online [Sample.quoteC]) Sample.cachedYesterday).
  - reflexivity.
  - reflexivity.
  - reflexivity.
Defined.

(** X7.  A call that has to fetch and gets a non-empty list of quotes
    stores today's record with the transformed quotes; from then on every
    call on the same day returns exactly these entries, sends no request
    and changes nothing, whatever the network would answer. *)
Theorem fetchDailyJournalEntries_fetch_then_cached
        (env env' : Env) (s : St) (quotes : list QuoteResponse) :
  nothingForToday (localStorage s) (currentDate env) ->
  response env = Quotes quotes ->
  quotes <> [] ->
  currentDate env' = currentDate env ->
  fst (fetchDailyJournalEntries env s) = Normal (transformAll env quotes)
  /\ requests (snd (fetchDailyJournalEntries env s)) = S (requests s)
  /\ fetchDailyJournalEntries env' (snd (fetchDailyJournalEntries env s))
     = (Normal (transformAll env quotes), snd (fetchDailyJournalEntries env s)).
Proof.
  intros Hn Hr Hne Hday. rewrite (fetchDaily_fetched env s quotes Hn Hr). simpl.
  repeat split.
  destruct (transformAll env quotes) as [|e es] eqn:Ht.
  { destruct quotes; [congruence | discriminate]. }
  eapply fetchDaily_hit; [reflexivity|]. simpl. rewrite Hday. apply String.eqb_refl.
Qed.

Lemma fetchDailyJournalEntries_fetch_then_cached_witness :
  fst (fetchDailyJournalEntries (Sample.online [Sample.quoteC]) Sample.cachedYesterday)
  = Normal (transformAll (Sample.online [Sample.quoteC]) [Sample.quoteC])
  /\ requests (snd (fetchDailyJournalEntries (Sample.online [Sample.quoteC])
                                             Sample.cachedYesterday))
     = S (requests Sample.cachedYesterday)
  /\ fetchDailyJournalEntries
       Sample.offline
       (snd (fetchDailyJournalEntries (Sample.online [Sample.quoteC])
                                      Sample.cachedYesterday))
     = (Normal (transformAll (Sample.online [Sample.quoteC]) [Sample.quoteC]),
        snd (fetchDailyJournalEntries (Sample.online [Sample.quoteC])
                                      Sample.cachedYesterday)).
Proof.
  apply (fetchDailyJournalEntries_fetch_then_cached
           (Sample.online [Sample.quoteC]) Sample.offline Sample.cachedYesterday
           [Sample.quoteC]).
  - reflexivity.
  - reflexivity.
  - discriminate.
  - reflexivity.
Defined.

(** X8.  An id that is found among the stored entries is answered from
    the storage alone, whatever the date of the record: the call returns
    the first stored entry with this id, sends no request and leaves the
    state as it was. *)
Theorem fetchJournalEntryById_from_storage
        (id : string) (env : Env) (s : St) (date : option string)
        (entries : list NewsArticle) (entry : NewsArticle) :
  localStorage s = Some (Blob date (Some entries)) ->
  find (hasId id) entries = Some entry ->
  fetchJournalEntryById id env s = (Normal (Some entry), s).
Proof.
  intros Hst Hf. destruct s as [st ts ls rq fo dl]. simpl in Hst. subst st.
  destruct entries as [|e es]; [discriminate|].
  unfold fetchJournalEntryById, try_catch, bind, getItem, JSON_parse, ret.
  cbn -[find]. rewrite Hf. reflexivity.
Qed.

Lemma fetchJournalEntryById_from_storage_witness :
  fetchJournalEntryById "id-b" Sample.offline Sample.cachedYesterday
  = (Normal (Some Sample.entryB), Sample.cachedYesterday).
Proof.
  apply (fetchJournalEntryById_from_storage
           "id-b" Sample.offline Sample.cachedYesterday (Some "2026-10-31")
           [Sample.entryA; Sample.entryB] Sample.entryB).
  - reflexivity.
  - reflexivity.
Defined.

(** X9.  A lookup by id has the side effects of a daily fetch when the id
    is not among the stored entries: over a record that is not today's,
    with a response carrying quotes, it sends one request, replaces the
    stored record by today's with the transformed quotes, and answers with
    the first of these that has the id, if any. *)
Theorem fetchJournalEntryById_miss_refreshes
        (id : string) (env : Env) (s : St) (quotes : list QuoteResponse) :
  find (hasId id) (persistedEntries (localStorage s)) = None ->
  nothingForToday (localStorage s) (currentDate env) ->
  response env = Quotes quotes ->
  fst (fetchJournalEntryById id env s)
  = Normal (find (hasId id) (transformAll env quotes))
  /\ localStorage (snd (fetchJournalEntryById id env s))
     = Some (Blob (Some (currentDate env)) (Some (transformAll env quotes)))
  /\ requests (snd (fetchJournalEntryById id env s)) = S (requests s).
Proof.
  intros Hf Hn Hr.
  pose proof (fetchDaily_fetched env s quotes Hn Hr) as Hd.
  destruct s as [st ts ls rq fo dl]. simpl in *.
  unfold fetchJournalEntryById, try_catch, bind, getItem, JSON_parse, ret, throw.
  destruct st as [[|date [[|e es]|]]|]; try contradiction;
    cbn -[find fetchDailyJournalEntries transformAll] in *;
    try rewrite Hf; rewrite Hd; simpl; auto.
Qed.

Lemma fetchJournalEntryById_miss_refreshes_witness :
  fst (fetchJournalEntryById "id-0" (Sample.online [Sample.quoteC]) Sample.cachedYesterday)
  = Normal (find (hasId "id-0")
                 (transformAll (Sample.online [Sample.quoteC]) [Sample.quoteC]))
  /\ localStorage (snd (fetchJournalEntryById "id-0" (Sample.online [Sample.quoteC])
                                              Sample.cachedYesterday))
     = Some (Blob (Some (currentDate (Sample.online [Sample.quoteC])))
                  (Some (transformAll (Sample.online [Sample.quoteC]) [Sample.quoteC])))
  /\ requests (snd (fetchJournalEntryById "id-0" (Sample.online [Sample.quoteC])
                                          Sample.cachedYesterday))
     = S (requests Sample.cachedYesterday).
Proof.
  apply (fetchJournalEntryById_miss_refreshes
           "id-0" (Sample.online [Sample.quoteC]) Sample.cachedYesterday
           [Sample.quoteC]).
  - reflexivity.
  - reflexivity.
  - reflexivity.
Defined.
End DailyMore.

(** ** Strings *)

Section StringFacts.

Lemma append_cons (x : ascii) (a b : string) :
  (String x a ++ b = String x (a ++ b))%string.
Proof. reflexivity. Qed.

Lemma append_nil_l (b : string) : (EmptyString ++ b = b)%string.
Proof. reflexivity. Qed.

Lemma append_assoc (a b c : string) : ((a ++ b) ++ c = a ++ (b ++ c))%string.
Proof.
  induction a as [|x a IH]; [reflexivity|].
  rewrite !append_cons. f_equal. exact IH.
Qed.

Lemma toLowerCase_append (a b : string) :
  toLowerCase (a ++ b) = (toLowerCase a ++ toLowerCase b)%string.
Proof.
  induction a as [|x a IH]; [reflexivity|].
  rewrite append_cons. simpl. rewrite append_cons. f_equal. exact IH.
Qed.

Lemma prefix_append (a b : string) : String.prefix a (a ++ b) = true.
Proof.
  induction a as [|x a IH]; [now destruct b|].
  rewrite append_cons. simpl.
  destruct (ascii_dec x x) as [_ | Hne]; [exact IH | congruence].
Qed.

Lemma includes_prefix (a b : string) : includes (a ++ b) a = true.
Proof.
  destruct a as [|x a]; [now destruct b|].
  rewrite append_cons. cbn [includes]. rewrite <- append_cons.
  rewrite (prefix_append (String x a) b). reflexivity.
Qed.

Lemma includes_append_l (a s sub : string) :
  includes s sub = true -> includes (a ++ s) sub = true.
Proof.
  intros H. induction a as [|x a IH]; [exact H|].
  rewrite append_cons. cbn [includes]. rewrite IH. apply orb_true_r.
Qed.

(** [sub] occurs in [a ++ sub ++ c]. *)
Lemma includes_middle (a sub c : string) : includes (a ++ sub ++ c) sub = true.
Proof. apply includes_append_l, includes_prefix. Qed.

Lemma split_space_not_nil (s : string) : Journal.split_space s <> [].
Proof.
  destruct s as [|c r]; simpl; [discriminate|].
  destruct (Ascii.eqb c " "); [discriminate|].
  destruct (Journal.split_space r); discriminate.
Qed.

Lemma concat_cons (sep x : string) (xs : list string) :
  xs <> [] -> String.concat sep (x :: xs) = (x ++ sep ++ String.concat sep xs)%string.
Proof. destruct xs; [congruence | reflexivity]. Qed.

Lemma concat_app (sep : string) (l1 l2 : list string) :
  l1 <> [] -> l2 <> [] ->
  String.concat sep (l1 ++ l2)
  = (String.concat sep l1 ++ sep ++ String.concat sep l2)%string.
Proof.
  intros H1 H2. induction l1 as [|x l1 IH]; [congruence|].
  destruct l1 as [|y l1].
  - simpl app. now rewrite concat_cons.
  - rewrite <- app_comm_cons, concat_cons by discriminate.
    rewrite IH by discriminate.
    rewrite (concat_cons sep x (y :: l1)) by discriminate.
    now rewrite !append_assoc.
Qed.

(** Joining the words of a text with spaces gives the text back. *)
Lemma join_split_space (s : string) : join " " (Journal.split_space s) = s.
Proof.
  unfold join. induction s as [|c r IH]; [reflexivity|].
  simpl Journal.split_space. destruct (Ascii.eqb c " ") eqn:Hc.
  - apply Ascii.eqb_eq in Hc. subst c.
    rewrite concat_cons by apply split_space_not_nil. now rewrite IH.
  - destruct (Journal.split_space r) as [|w ws] eqn:Hs.
    + now apply split_space_not_nil in Hs.
    + destruct ws as [|w' ws].
      * simpl in *. now rewrite IH.
      * rewrite concat_cons by discriminate.
        rewrite concat_cons in IH by discriminate.
        rewrite append_cons. now rewrite IH.
Qed.
End StringFacts.

(** ** The theme matcher outside its first branch *)

Section ThemeMatcherMore.
Import Journal.

Lemma append_nil_r (a : string) : (a ++ EmptyString = a)%string.
Proof.
  induction a as [|x a IH]; [reflexivity|]. rewrite append_cons. now rewrite IH.
Qed.

(** The lower-cased first tag occurs in the text that is scored. *)
Lemma combine_includes_first_tag quoteContent tag0 rest :
  includes (combine quoteContent (tag0 :: rest)) (toLowerCase tag0) = true.
Proof.
  unfold combine, join.
  assert (Hj : exists suffix,
             String.concat " " (tag0 :: rest) = (tag0 ++ suffix)%string).
  { destruct rest as [|r rest].
    - exists EmptyString. simpl. now rewrite append_nil_r.
    - eexists. apply concat_cons. discriminate. }
  destruct Hj as (suffix & ->).
  rewrite !toLowerCase_append.
  apply includes_append_l, includes_append_l, includes_prefix.
Qed.

Lemma scoreOf_positive text t keyword :
  In keyword (keywords t) ->
  includes text (toLowerCase keyword) = true ->
  (0 < scoreOf text t)%Q.
Proof.
  intros Hin Hinc. unfold scoreOf, matchCount.
  assert (Hm : (0 < length (List.filter
                              (fun keyword => includes text (toLowerCase keyword))
                              (keywords t)))%nat).
  { assert (Hf : In keyword
                    (List.filter (fun keyword => includes text (toLowerCase keyword))
                                 (keywords t)))
      by (apply List.filter_In; auto).
    destruct (List.filter _ (keywords t)); [contradiction | simpl; lia]. }
  assert (Hl : (0 < length (keywords t))%nat).
  { destruct (keywords t); [contradiction | simpl; lia]. }
  apply Qlt_shift_div_l.
  - unfold Qlt. simpl. lia.
  - rewrite Qmult_0_l. unfold Qlt. simpl. lia.
Qed.

Lemma find_ext_in {A} (f g : A -> bool) (l : list A) :
  (forall x, In x l -> f x = g x) -> find f l = find g l.
Proof.
  induction l as [|a l IH]; intros H; simpl; [reflexivity|].
  rewrite (H a) by (now left). destruct (g a); [reflexivity|].
  apply IH. intros x Hx. apply H. now right.
Qed.

(** The head of the sorted scores is the score of a theme of the table. *)
Lemma sorted_top text top rest :
  sort (fun a b => (score b - score a)%Q)
       (map (fun t => mkScore t (scoreOf text t)) THEMED_JOURNAL_IMAGES)
  = top :: rest ->
  In (scored top) THEMED_JOURNAL_IMAGES /\ score top = scoreOf text (scored top).
Proof.
  intros Hsort.
  destruct (sort_head_first_best score _ _ _ Hsort) as (pre & post & Hsplit & _).
  assert (Hin : In top (map (fun t => mkScore t (scoreOf text t))
                            THEMED_JOURNAL_IMAGES)).
  { rewrite Hsplit. apply in_or_app. right. now left. }
  apply in_map_iff in Hin as (t & <- & Ht). simpl. auto.
Qed.

(** X10.  [findRelevantImage] never comes back without an image: for
    every text, every list of tags and every random draw, the result is
    the image and the description of one of the themes of the table. *)
Theorem findRelevantImage_in_table
        (quoteContent : string) (tags : list string) (seed : nat) :
  exists t,
    In t THEMED_JOURNAL_IMAGES
    /\ findRelevantImage quoteContent tags seed
       = mkImage (imageUrl t) (description t).
Proof.
  unfold findRelevantImage.
  set (text := combine quoteContent tags).
  destruct (sort _ (map _ THEMED_JOURNAL_IMAGES)) as [|top rest] eqn:Hsort.
  { exfalso. revert Hsort. apply sort_not_nil. discriminate. }
  destruct (sorted_top text top rest Hsort) as [Htop _].
  destruct (negb (Qle_bool (score top) 0)); [eauto|].
  match goal with
  | |- context [match ?m with Some _ => _ | None => _ end] =>
      destruct m as [t|] eqn:Hfind
  end.
  - exists t. split; [|reflexivity].
    destruct tags as [|tag0 tags']; [discriminate|].
    now apply find_some in Hfind.
  - destruct (nth_error THEMED_JOURNAL_IMAGES (seed mod length THEMED_JOURNAL_IMAGES))
      as [t|] eqn:Hnth.
    + exists t. split; [|reflexivity]. eapply nth_error_In; eauto.
    + exfalso. apply nth_error_None in Hnth.
      pose proof (Nat.mod_upper_bound seed (length THEMED_JOURNAL_IMAGES)) as Hlt.
      simpl in *. lia.
Qed.

(** X11.  In the fallback on the first tag a theme is only ever found by
    its name.  The tag is part of the text that was scored, so a theme with
    a keyword equal to the tag has a positive score and the first branch
    has answered already: when all scores are zero, the result is the first
    theme whose lower-cased name is the lower-cased tag, or else the random
    theme. *)
Theorem findRelevantImage_tag_fallback_by_name
        (quoteContent tag0 : string) (rest : list string) (seed : nat) :
  (forall t, In t THEMED_JOURNAL_IMAGES ->
             (scoreOf (combine quoteContent (tag0 :: rest)) t == 0)%Q) ->
  (forall t, In t THEMED_JOURNAL_IMAGES ->
             existsb (fun k => String.eqb (toLowerCase k) (toLowerCase tag0))
                     (keywords t) = false)
  /\ findRelevantImage quoteContent (tag0 :: rest) seed
     = match find (fun t => String.eqb (toLowerCase (theme t)) (toLowerCase tag0))
                  THEMED_JOURNAL_IMAGES with
       | Some t => mkImage (imageUrl t) (description t)
       | None =>
           match nth_error THEMED_JOURNAL_IMAGES
                           (seed mod length THEMED_JOURNAL_IMAGES) with
           | Some randomTheme =>
               mkImage (imageUrl randomTheme) (description randomTheme)
           | None => noImage
           end
       end.
Proof.
  intros Hzero.
  set (text := combine quoteContent (tag0 :: rest)) in *.
  assert (Hkw : forall t, In t THEMED_JOURNAL_IMAGES ->
                          existsb (fun k => String.eqb (toLowerCase k) (toLowerCase tag0))
                                  (keywords t) = false).
  { intros t Ht. apply not_true_iff_false. intros Hex.
    apply existsb_exists in Hex as (k & Hk & Heq). apply String.eqb_eq in Heq.
    pose proof (scoreOf_positive text t k Hk) as Hpos.
    rewrite Heq in Hpos. specialize (Hpos (combine_includes_first_tag _ _ _)).
    specialize (Hzero t Ht). rewrite Hzero in Hpos. now apply Qlt_irrefl in Hpos. }
  split; [exact Hkw|].
  unfold findRelevantImage. fold text.
  destruct (sort _ (map _ THEMED_JOURNAL_IMAGES)) as [|top others] eqn:Hsort.
  { exfalso. revert Hsort. apply sort_not_nil. discriminate. }
  destruct (sorted_top text top others Hsort) as [Htop Hscore].
  assert (Hbranch : negb (Qle_bool (score top) 0) = false).
  { apply negb_false_iff, Qle_bool_iff. rewrite Hscore, (Hzero _ Htop). apply Qle_refl. }
  rewrite Hbranch.
  rewrite (find_ext_in _ (fun t => String.eqb (toLowerCase (theme t)) (toLowerCase tag0))).
  - reflexivity.
  - intros t Ht. rewrite (Hkw t Ht). apply orb_false_r.
Qed.

Lemma findRelevantImage_tag_fallback_by_name_witness :
  (forall t, In t THEMED_JOURNAL_IMAGES ->
             existsb (fun k => String.eqb (toLowerCase k) (toLowerCase "Gratitude"))
                     (keywords t) = false)
  /\ findRelevantImage "xyz" ["Gratitude"; "zzz"] 3
     = match find (fun t => String.eqb (toLowerCase (theme t)) (toLowerCase "Gratitude"))
                  THEMED_JOURNAL_IMAGES with
       | Some t => mkImage (imageUrl t) (description t)
       | None =>
           match nth_error THEMED_JOURNAL_IMAGES (3 mod length THEMED_JOURNAL_IMAGES) with
           | Some randomTheme =>
               mkImage (imageUrl randomTheme) (description randomTheme)
           | None => noImage
           end
       end.
Proof.
  apply (findRelevantImage_tag_fallback_by_name "xyz" "Gratitude" ["zzz"] 3).
  intros t Ht. simpl in Ht.
  repeat (destruct Ht as [<- | Ht]; [vm_compute; reflexivity|]).
  contradiction.
Defined.
End ThemeMatcherMore.

(** ** The synthesized entry *)

Section Synthesizer.
Import Journal.

(** X12.  The title of a synthesized entry never holds text that is not in
    the quote: after ["Daily <Theme>: "] comes the whole quote when it has at
    most eight words, and otherwise its first eight words, which are the
    quote up to one of its spaces, followed by ["..."]. *)
Theorem transformQuoteToJournalEntry_title
        (quote : QuoteResponse) (index : nat) (d : Draw) :
  exists shortTitle,
    News.title (transformQuoteToJournalEntry quote index d)
    = ("Daily "
       ++ capitalize (match tags quote with [] => "reflection" | tag0 :: _ => tag0 end)
       ++ ": " ++ shortTitle)%string
    /\ ((length (split_space (content quote)) <= 8 /\ shortTitle = content quote)
        \/ (8 < length (split_space (content quote))
            /\ exists head tail,
                 head = join " " (firstn 8 (split_space (content quote)))
                 /\ content quote = (head ++ " " ++ tail)%string
                 /\ shortTitle = (head ++ "...")%string)).
Proof.
  unfold transformQuoteToJournalEntry. cbn [News.title].
  set (words := split_space (content quote)).
  destruct (8 <? length words)%nat eqn:Hlen.
  - apply Nat.ltb_lt in Hlen. eexists. split; [reflexivity|]. right.
    split; [exact Hlen|].
    exists (join " " (firstn 8 words)), (join " " (skipn 8 words)).
    split; [reflexivity|]. split; [|reflexivity].
    rewrite <- (join_split_space (content quote)) at 1. fold words.
    rewrite <- (firstn_skipn 8 words) at 1. unfold join.
    apply concat_app.
    + intros H. apply (f_equal (@length string)) in H.
      rewrite List.length_firstn in H. cbn [length] in H. lia.
    + intros H. apply (f_equal (@length string)) in H.
      rewrite List.length_skipn in H. cbn [length] in H. lia.
  - apply Nat.ltb_ge in Hlen. eexists. split; [reflexivity|]. left. auto.
Qed.
End Synthesizer.

(** ** The listener registries *)

Section Registry.
Import Journal.


Lemma removeFirst_app_present l ls extra :
  In l ls -> removeFirst l (ls ++ extra) = (removeFirst l ls ++ extra)%list.
Proof.
  induction ls as [|y ys IH]; simpl; intros H; [contradiction|].
  destruct (Nat.eqb_spec y l) as [-> | Hne]; [reflexivity|].
  destruct H as [-> | H]; [congruence|]. now rewrite IH.
Qed.

Lemma removeFirst_app_absent l ls :
  ~ In l ls -> removeFirst l (ls ++ [l]) = ls.
Proof.
  induction ls as [|y ys IH]; simpl; intros H.
  - now rewrite Nat.eqb_refl.
  - destruct (Nat.eqb_spec y l) as [-> | _]; [exfalso; auto|].
    rewrite IH; auto.
Qed.

Lemma count_removeFirst l x ls :
  count_occ Nat.eq_dec (removeFirst l ls) x
  = if Nat.eq_dec l x then pred (count_occ Nat.eq_dec ls x)
    else count_occ Nat.eq_dec ls x.
Proof.
  induction ls as [|y ys IH]; simpl.
  - now destruct (Nat.eq_dec l x).
  - destruct (Nat.eqb_spec y l) as [-> | Hne].
    + destruct (Nat.eq_dec l x); reflexivity.
    + simpl. rewrite IH.
      destruct (Nat.eq_dec y x) as [-> | Hyx], (Nat.eq_dec l x) as [-> | Hlx];
        try congruence; reflexivity.
Qed.

(** X13.  Subscribing and then calling the returned function restores the
    registry when the listener was not registered before.  When it was, the
    call removes its earlier registration and keeps the new one: every
    listener is registered as often as before, but this one is now called
    last. *)
Theorem subscribe_then_unsubscribe (listener : Listener) (s : St) :
  let s' := snd (unsubscribe listener (snd (subscribeToArticleUpdates listener s))) in
  (~ In listener (articleUpdateListeners s) ->
   articleUpdateListeners s' = articleUpdateListeners s)
  /\ (In listener (articleUpdateListeners s) ->
      articleUpdateListeners s'
      = (removeFirst listener (articleUpdateListeners s) ++ [listener])%list)
  /\ (forall x, count_occ Nat.eq_dec (articleUpdateListeners s') x
                = count_occ Nat.eq_dec (articleUpdateListeners s) x).
Proof.
  destruct s as [st ts ls rq fo dl]. simpl. split; [|split].
  - apply removeFirst_app_absent.
  - intros H. now apply removeFirst_app_present.
  - intros x. rewrite count_removeFirst, count_occ_app. simpl.
    destruct (Nat.eq_dec listener x); simpl;
      [rewrite Nat.add_1_r; reflexivity | apply Nat.add_0_r].
Qed.

End Registry.

(** ** The aggregator: search, trending, the cache getters *)

Section AggregatorMore.
Import MultiApi MultiApiRest.
Context {W : Type}.
Variables fetchMediaStackArticles fetchNewsApiArticles fetchGuardianArticles
  : option Category -> Z -> M W (list NewsArticle).
Variables searchMediaStackArticles searchNewsApiArticles searchGuardianArticles
  : string -> Z -> M W (list NewsArticle).
Variables shuffleBackfill shuffleResult : list NewsArticle -> list NewsArticle.

Local Abbreviation searchAll :=
  (searchArticlesFromAllSources
     searchMediaStackArticles searchNewsApiArticles searchGuardianArticles).
Local Abbreviation searchOf :=
  (searchClient searchMediaStackArticles searchNewsApiArticles searchGuardianArticles).
Local Abbreviation fetchOf :=
  (client fetchMediaStackArticles fetchNewsApiArticles fetchGuardianArticles).
Local Abbreviation gather :=
  (gatherFromAllSources
     fetchMediaStackArticles fetchNewsApiArticles fetchGuardianArticles).
Local Abbreviation trendingAll :=
  (fetchTrendingFromAllSources
     fetchMediaStackArticles fetchNewsApiArticles fetchGuardianArticles
     shuffleBackfill shuffleResult).

Lemma searchAll_cons query limit apiSource rest (s : @St W) :
  searchAll query limit (apiSource :: rest) s
  = match searchOf query limit apiSource (world s) with
    | (Normal articles, w1) =>
        let s1 := mkSt (latestArticles s) w1
                       (invoked s ++ [(apiSource, Normal articles)]%list) in
        if (0 <? length articles)%nat then (Normal articles, s1)
        else searchAll query limit rest s1
    | (Thrown e, w1) =>
        searchAll query limit rest
                  (mkSt (latestArticles s) w1
                        (invoked s ++ [(apiSource, Thrown e)]%list))
    end.
Proof.
  simpl. unfold bind at 1, try_catch, bind at 1.
  destruct apiSource; unfold invoke, searchClient; simpl;
    match goal with
    | |- context [?f query limit (world s)] =>
        destruct (f query limit (world s)) as [[articles|e] w1]
    end; simpl; try reflexivity;
    unfold ret; destruct (0 <? length articles)%nat; reflexivity.
Qed.

(** X15.  [searchArticlesFromAllSources] follows the same fallback as the
    fetch, over the search clients: it calls the clients of a prefix of the
    priority list, once each and in order, stops at the first non-empty
    result and returns it, returns the empty list when every client threw
    or found nothing, and never throws.  Unlike the fetch it never writes
    [latestArticles]. *)
Theorem searchArticlesFromAllSources_fallback
        (query : string) (limit : Z) (apiPriority : list NewsApiSource)
        (s : @St W) :
  exists tried later,
    apiPriority = (tried ++ later)%list
    /\ invoked (snd (searchAll query limit apiPriority s))
       = (invoked s ++ fst (callEach (searchOf query limit) tried (world s)))%list
    /\ world (snd (searchAll query limit apiPriority s))
       = snd (callEach (searchOf query limit) tried (world s))
    /\ latestArticles (snd (searchAll query limit apiPriority s)) = latestArticles s
    /\ ((later = []
         /\ Forall passedOver (fst (callEach (searchOf query limit) tried (world s)))
         /\ fst (searchAll query limit apiPriority s) = Normal [])
        \/ (exists before hit articles,
              fst (callEach (searchOf query limit) tried (world s))
              = (before ++ [(hit, Normal articles)])%list
              /\ Forall passedOver before
              /\ articles <> []
              /\ fst (searchAll query limit apiPriority s) = Normal articles)).
Proof.
  revert s. induction apiPriority as [|apiSource rest IH]; intros s.
  - exists [], []. simpl. rewrite app_nil_r.
    repeat split. left. repeat split. constructor.
  - rewrite searchAll_cons.
    destruct (searchOf query limit apiSource (world s)) as [[articles|e] w1] eqn:Hc.
    + destruct articles as [|a l]; simpl.
      * set (s1 := mkSt (latestArticles s) w1
                        (invoked s ++ [(apiSource, Normal [])]%list)).
        destruct (IH s1) as (tried & later & Hsplit & Hinv & Hw & Hlat & Hcases).
        exists (apiSource :: tried), later. simpl. rewrite Hc.
        simpl in Hinv, Hw, Hlat, Hcases.
        destruct (callEach (searchOf query limit) tried w1) as [calls w2] eqn:Hrun.
        simpl in *. split; [now rewrite Hsplit|].
        split; [now rewrite Hinv, <- app_assoc|]. split; [exact Hw|].
        split; [exact Hlat|].
        destruct Hcases as [(Hl & Hall & Hres)
                           | (before & hit & arts & Hlog & Hall & Hne & Hres)].
        -- left. repeat split; auto. constructor; [reflexivity | exact Hall].
        -- right. exists ((apiSource, Normal []) :: before), hit, arts.
           subst calls. repeat split; auto. constructor; [reflexivity | exact Hall].
      * exists [apiSource], rest. simpl. rewrite Hc. simpl.
        repeat split. right. exists [], apiSource, (a :: l).
        repeat split; auto; discriminate.
    + set (s1 := mkSt (latestArticles s) w1
                      (invoked s ++ [(apiSource, Thrown e)]%list)).
      destruct (IH s1) as (tried & later & Hsplit & Hinv & Hw & Hlat & Hcases).
      exists (apiSource :: tried), later. simpl. rewrite Hc.
      simpl in Hinv, Hw, Hlat, Hcases.
      destruct (callEach (searchOf query limit) tried w1) as [calls w2] eqn:Hrun.
      simpl in *. split; [now rewrite Hsplit|].
      split; [now rewrite Hinv, <- app_assoc|]. split; [exact Hw|].
      split; [exact Hlat|].
      destruct Hcases as [(Hl & Hall & Hres)
                         | (before & hit & arts & Hlog & Hall & Hne & Hres)].
      -- left. repeat split; auto. constructor; [exact I | exact Hall].
      -- right. exists ((apiSource, Thrown e) :: before), hit, arts.
         subst calls. repeat split; auto. constructor; [exact I | exact Hall].
Qed.

(** The loop of the trending path calls every client of [sources],
    whatever the earlier ones did. *)
Lemma gather_all limit sources :
  forall (allArticles : list NewsArticle) (s : @St W),
    gather limit sources allArticles s
    = (Normal (allArticles
               ++ collected (fst (callEach (fun k => fetchOf k None (limit * 2)%Z)
                                           sources (world s))))%list,
       mkSt (storedAfter (fst (callEach (fun k => fetchOf k None (limit * 2)%Z)
                                        sources (world s)))
                         (latestArticles s))
            (snd (callEach (fun k => fetchOf k None (limit * 2)%Z) sources (world s)))
            (invoked s
             ++ fst (callEach (fun k => fetchOf k None (limit * 2)%Z)
                              sources (world s)))%list).
Proof.
  induction sources as [|apiSource rest IH]; intros acc s.
  - simpl. unfold ret. rewrite !app_nil_r. now destruct s.
  - simpl gatherFromAllSources. unfold bind at 1, try_catch, bind at 1.
    assert (Hcall :
              match apiSource with
              | MEDIASTACK =>
                  invoke MEDIASTACK (fetchMediaStackArticles None (limit * 2)%Z)
              | NEWSAPI => invoke NEWSAPI (fetchNewsApiArticles None (limit * 2)%Z)
              | GUARDIAN => invoke GUARDIAN (fetchGuardianArticles None (limit * 2)%Z)
              end s
              = invoke apiSource (fetchOf apiSource None (limit * 2)%Z) s)
      by (destruct apiSource; reflexivity).
    rewrite Hcall. unfold invoke. simpl callEach.
    destruct (fetchOf apiSource None (limit * 2)%Z (world s)) as [[articles|e] w1].
    + unfold bind, storeLatest, modify, ret. cbn [fst snd]. rewrite IH. cbn [world latestArticles invoked].
      destruct (callEach _ rest w1) as [calls w2]. cbn [fst snd collected flat_map storedAfter].
      now rewrite <- !app_assoc.
    + unfold ret. rewrite IH. cbn [world latestArticles invoked].
      destruct (callEach _ rest w1) as [calls w2]. cbn [fst snd collected flat_map storedAfter].
      now rewrite <- !app_assoc.
Qed.

Lemma callEach_sources (clientOf : NewsApiSource -> M W (list NewsArticle)) sources w :
  map fst (fst (callEach clientOf sources w)) = sources.
Proof.
  revert w. induction sources as [|a l IH]; intros w; simpl; [reflexivity|].
  destruct (clientOf a w) as [c w1]. specialize (IH w1).
  destruct (callEach clientOf l w1) as [calls w2]. simpl in *. now rewrite IH.
Qed.

Lemma trendingAll_state limit (s : @St W) :
  snd (trendingAll limit s)
  = snd (gather limit API_PRIORITY [] s).
Proof.
  unfold fetchTrendingFromAllSources, bind. rewrite gather_all. reflexivity.
Qed.

(** X16.  [fetchTrendingFromAllSources] does not stop at the first
    success: it calls the three clients, once each, in the order MediaStack,
    NewsAPI, Guardian, with no category and twice the limit, whatever any
    of them returns or throws, and it always completes normally. *)
Theorem fetchTrendingFromAllSources_calls_every_provider (limit : Z) (s : @St W) :
  (exists articles, fst (trendingAll limit s) = Normal articles)
  /\ invoked (snd (trendingAll limit s))
     = (invoked s
        ++ fst (callEach (fun k => fetchOf k None (limit * 2)%Z)
                         API_PRIORITY (world s)))%list
  /\ map fst (fst (callEach (fun k => fetchOf k None (limit * 2)%Z)
                            API_PRIORITY (world s)))
     = [MEDIASTACK; NEWSAPI; GUARDIAN]
  /\ world (snd (trendingAll limit s))
     = snd (callEach (fun k => fetchOf k None (limit * 2)%Z) API_PRIORITY (world s)).
Proof.
  split; [|split; [|split]].
  - unfold fetchTrendingFromAllSources, bind. rewrite gather_all.
    unfold ret. simpl. eauto.
  - rewrite trendingAll_state, gather_all. reflexivity.
  - apply callEach_sources.
  - rewrite trendingAll_state, gather_all. reflexivity.
Qed.

(** X17.  After [fetchTrendingFromAllSources] the entry of
    [latestArticles] of every provider that returned holds what it
    returned, tagged with the provider, also when that is the empty list:
    an empty answer wipes the entry, which the fetch path never does.  The
    entry of a provider that threw is as before. *)
Theorem fetchTrendingFromAllSources_latest
        (limit : Z) (s : @St W) (apiSource : NewsApiSource)
        (c : completion (list NewsArticle)) :
  In (apiSource, c)
     (fst (callEach (fun k => fetchOf k None (limit * 2)%Z) API_PRIORITY (world s))) ->
  latestArticles (snd (trendingAll limit s)) apiSource
  = match c with
    | Normal articles => map (tagged apiSource) articles
    | Thrown _ => latestArticles s apiSource
    end.
Proof.
  rewrite trendingAll_state, gather_all. cbn [snd latestArticles].
  unfold API_PRIORITY. simpl callEach.
  destruct (fetchMediaStackArticles None (limit * 2)%Z (world s)) as [c1 w1].
  destruct (fetchNewsApiArticles None (limit * 2)%Z w1) as [c2 w2].
  destruct (fetchGuardianArticles None (limit * 2)%Z w2) as [c3 w3].
  cbn [fst]. intros Hin. simpl in Hin.
  destruct Hin as [H | [H | [H | []]]]; injection H as <- <-;
    destruct c1, c2, c3; reflexivity.
Qed.

Lemma firstn_In {A} (n : nat) (l : list A) (a : A) : In a (firstn n l) -> In a l.
Proof.
  intros H. rewrite <- (firstn_skipn n l). apply in_or_app. now left.
Qed.

Lemma slice0_In {A} (l : list A) (e : Z) (a : A) : In a (slice0 l e) -> In a l.
Proof. unfold slice0. destruct (e <? 0)%Z; apply firstn_In. Qed.

Lemma slice0_length {A} (l : list A) (e : Z) :
  (0 <= e)%Z -> length (slice0 l e) <= Z.to_nat e.
Proof.
  intros He. unfold slice0. apply Z.ltb_ge in He. rewrite He.
  rewrite List.length_firstn. lia.
Qed.

Lemma slice0_all {A} (l : list A) (e : Z) :
  (Z.of_nat (length l) <= e)%Z -> slice0 l e = l.
Proof.
  intros He. unfold slice0.
  assert (H0 : (e <? 0)%Z = false) by (apply Z.ltb_ge; lia).
  rewrite H0. apply firstn_all2. lia.
Qed.

Hypothesis shuffleBackfill_permutes : forall l, Permutation (shuffleBackfill l) l.
Hypothesis shuffleResult_permutes : forall l, Permutation (shuffleResult l) l.

(** X18.  Provided each shuffle returns a permutation of its argument and
    the limit is not negative, the result of
    [fetchTrendingFromAllSources] has at most [limit] articles, all of them
    among the tagged articles that the providers returned.  When these
    hold at least [limit] trending articles, only trending ones are
    returned; when they hold fewer, every trending one is returned and the
    rest is filled with others. *)
Theorem fetchTrendingFromAllSources_result
        (limit : Z) (s : @St W) (articles : list NewsArticle) :
  (0 <= limit)%Z ->
  fst (trendingAll limit s) = Normal articles ->
  let allArticles :=
    collected (fst (callEach (fun k => fetchOf k None (limit * 2)%Z)
                             API_PRIORITY (world s))) in
  let trendingCount := Z.of_nat (length (List.filter News.trending allArticles)) in
  length articles <= Z.to_nat limit
  /\ (forall a, In a articles -> In a allArticles)
  /\ ((limit <= trendingCount)%Z ->
      forall a, In a articles -> News.trending a = true)
  /\ ((trendingCount < limit)%Z ->
      forall a, In a allArticles -> News.trending a = true -> In a articles).
Proof.
  intros Hlimit Hrun allArticles trendingCount.
  unfold fetchTrendingFromAllSources, bind in Hrun. rewrite gather_all in Hrun.
  unfold ret in Hrun. cbn [fst] in Hrun. rewrite app_nil_l in Hrun.
  fold allArticles in Hrun. injection Hrun as Hres.
  fold trendingCount in Hres.
  set (wanted := List.filter News.trending allArticles) in *.
  split; [|split; [|split]].
  - subst articles. now apply slice0_length.
  - intros a Ha. subst articles. apply slice0_In in Ha.
    apply (Permutation_in _ (shuffleResult_permutes _)) in Ha.
    destruct (trendingCount <? limit)%Z.
    + apply in_app_or in Ha as [Ha | Ha].
      * now apply List.filter_In in Ha.
      * apply slice0_In in Ha.
        apply (Permutation_in _ (shuffleBackfill_permutes _)) in Ha.
        now apply List.filter_In in Ha.
    + now apply List.filter_In in Ha.
  - intros Hmany a Ha. subst articles. apply slice0_In in Ha.
    apply (Permutation_in _ (shuffleResult_permutes _)) in Ha.
    assert (Hb : (trendingCount <? limit)%Z = false) by (apply Z.ltb_ge; lia).
    rewrite Hb in Ha. now apply List.filter_In in Ha.
  - intros Hfew a Ha Htr. subst articles.
    assert (Hb : (trendingCount <? limit)%Z = true) by (apply Z.ltb_lt; lia).
    rewrite Hb.
    set (filled := (wanted ++ slice0 _ (limit - trendingCount))%list).
    assert (Hlen : (Z.of_nat (length filled) <= limit)%Z).
    { subst filled. rewrite length_app.
      pose proof (slice0_length
                    (shuffleBackfill
                       (List.filter (fun article => negb (News.trending article))
                                    allArticles))
                    (limit - trendingCount)) as Hs.
      subst trendingCount. fold wanted in Hs, Hfew |- *. lia. }
    rewrite slice0_all
      by (rewrite (Permutation_length (shuffleResult_permutes filled)); exact Hlen).
    apply (Permutation_in _ (Permutation_sym (shuffleResult_permutes filled))).
    subst filled. apply in_or_app. left. apply List.filter_In. auto.
Qed.
End AggregatorMore.

Lemma fetchTrendingFromAllSources_latest_witness :
  MultiApi.latestArticles
    (snd (MultiApiRest.fetchTrendingFromAllSources
            Sample.mediaStackDown Sample.newsApiEmpty Sample.guardianFive
            Sample2.noShuffle Sample2.noShuffle 5 Sample2.aggregatorWithNews))
    MultiApi.NEWSAPI
  = match Normal [] with
    | Normal articles => map (MultiApiRest.tagged MultiApi.NEWSAPI) articles
    | Thrown _ => MultiApi.latestArticles Sample2.aggregatorWithNews MultiApi.NEWSAPI
    end.
Proof.
  apply (fetchTrendingFromAllSources_latest
           Sample.mediaStackDown Sample.newsApiEmpty Sample.guardianFive
           Sample2.noShuffle Sample2.noShuffle 5 Sample2.aggregatorWithNews
           MultiApi.NEWSAPI (Normal [])).
  simpl. right. left. reflexivity.
Defined.

Lemma fetchTrendingFromAllSources_result_witness :
  let allArticles :=
    MultiApiRest.collected
      (fst (MultiApiRest.callEach
              (fun k => MultiApi.client Sample.mediaStackDown Sample.newsApiEmpty
                                        Sample.guardianFive k None (3 * 2)%Z)
              MultiApi.API_PRIORITY (MultiApi.world Sample2.aggregatorWithNews))) in
  let trendingCount := Z.of_nat (length (List.filter News.trending allArticles)) in
  length Sample2.threeOfFive <= Z.to_nat 3
  /\ (forall a, In a Sample2.threeOfFive -> In a allArticles)
  /\ ((3 <= trendingCount)%Z ->
      forall a, In a Sample2.threeOfFive -> News.trending a = true)
  /\ ((trendingCount < 3)%Z ->
      forall a, In a allArticles -> News.trending a = true ->
                In a Sample2.threeOfFive).
Proof.
  apply (fetchTrendingFromAllSources_result
           Sample.mediaStackDown Sample.newsApiEmpty Sample.guardianFive
           Sample2.noShuffle Sample2.noShuffle
           (fun l => Permutation_refl l) (fun l => Permutation_refl l)
           3 Sample2.aggregatorWithNews Sample2.threeOfFive).
  - lia.
  - reflexivity.
Defined.

Section AggregatorCache.
Import MultiApi MultiApiRest.
Context {W : Type}.
Variables fetchMediaStackArticles fetchNewsApiArticles fetchGuardianArticles
  : option Category -> Z -> M W (list NewsArticle).

Local Abbreviation fetchAll :=
  (fetchArticlesFromAllSources
     fetchMediaStackArticles fetchNewsApiArticles fetchGuardianArticles).

Lemma fetchAll_latest category limit apiPriority :
  forall s : @St W,
    (fst (fetchAll category limit apiPriority s) = Normal []
     /\ latestArticles (snd (fetchAll category limit apiPriority s))
        = latestArticles s)
    \/ (exists hit articles,
          articles <> []
          /\ fst (fetchAll category limit apiPriority s) = Normal articles
          /\ latestArticles (snd (fetchAll category limit apiPriority s))
             = (fun k => if NewsApiSource_eqb k hit then articles
                         else latestArticles s k)).
Proof.
  induction apiPriority as [|apiSource rest IH]; intros s.
  - left. split; reflexivity.
  - rewrite fetchAll_cons.
    destruct (client _ _ _ apiSource category limit (world s)) as [[articles|e] w1].
    + destruct articles as [|a l]; simpl.
      * apply (IH (mkSt (latestArticles s) w1
                        (invoked s ++ [(apiSource, Normal [])]%list))).
      * right. exists apiSource, (a :: l). repeat split. discriminate.
    + apply (IH (mkSt (latestArticles s) w1
                      (invoked s ++ [(apiSource, Thrown e)]%list))).
Qed.

(** X19.  What [fetchArticlesFromAllSources] returns can be read back:
    every article of its result is in the list that [getAllLatestArticles]
    gives afterwards.  When every provider failed and the result is empty,
    [getAllLatestArticles] gives what it gave before the call: a total
    failure does not wipe the last results. *)
Theorem fetchArticlesFromAllSources_then_getAllLatestArticles
        (category : option Category) (limit : Z)
        (apiPriority : list NewsApiSource) (s : @St W) :
  exists articles latest,
    fst (fetchAll category limit apiPriority s) = Normal articles
    /\ fst (getAllLatestArticles (snd (fetchAll category limit apiPriority s)))
       = Normal latest
    /\ (articles = [] -> fst (getAllLatestArticles s) = Normal latest)
    /\ (forall a, In a articles -> In a latest).
Proof.
  unfold getAllLatestArticles, bind, get, ret. cbn [fst snd].
  destruct (fetchAll_latest category limit apiPriority s)
    as [[Hres Hlat] | (hit & articles & Hne & Hres & Hlat)].
  - eexists [], _. split; [exact Hres|]. split; [reflexivity|].
    split; [now rewrite Hlat | intros a []].
  - eexists articles, _. split; [exact Hres|]. split; [reflexivity|].
    split; [congruence|]. intros a Ha. rewrite Hlat.
    destruct hit; simpl; repeat (apply in_or_app; first [left; exact Ha | right]);
      exact Ha.
Qed.
End AggregatorCache.

(** ** The reads of the service *)

Section ReadsMore.
Import NewsService.
Variable getAllArticles : list NewsArticle.
Variable getArticlesByCategory : Category -> list NewsArticle.
Variable getTrendingArticles : list NewsArticle.
Variable searchArticles : string -> list NewsArticle.
Variable getArticleById : string -> option NewsArticle.
Variable getRelatedArticles : string -> Category -> Z -> list NewsArticle.
Variable shuffle : list NewsArticle -> list NewsArticle.

Lemma try_catch_resolves {S A} (body : M S A) (handler : JsError -> M S A) (s : S) :
  (forall e s', exists r, fst (handler e s') = Normal r) ->
  exists r, fst (try_catch body handler s) = Normal r.
Proof.
  intros H. unfold try_catch. destruct (body s) as [[a|e] s']; simpl; eauto.
Qed.

(** X20.  The six reads of the service always resolve, for every state
    of the storage and every answer of the network, also on a stored text
    that does not parse, on which [fetchDailyJournalEntries] itself
    rejects. *)
Theorem reads_always_resolve
        (s : St) (env : Journal.Env) (forceRefresh : bool)
        (category : Category) (query id currentArticleId : string) (limit : Z) :
  (exists r, fst (fetchAllArticles getAllArticles forceRefresh env s) = Normal r)
  /\ (exists r, fst (fetchArticlesByCategory getArticlesByCategory category env s)
                = Normal r)
  /\ (exists r, fst (fetchTrendingArticles getTrendingArticles env s) = Normal r)
  /\ (exists r, fst (searchAllArticles searchArticles query env s) = Normal r)
  /\ (exists r, fst (fetchArticleById getArticleById id env s) = Normal r)
  /\ (exists r, fst (fetchRelatedArticles getRelatedArticles shuffle
                                          currentArticleId category limit env s)
                = Normal r).
Proof.
  repeat split; apply try_catch_resolves; intros e s'; unfold ret, bind, get; simpl;
    eauto.
  destruct (0 <? length (latestArticles s'))%nat; simpl; eauto.
Qed.

Lemma fetchAllArticles_cached forceRefresh env s :
  latestArticles s <> [] ->
  forceRefresh = false ->
  fetchAllArticles getAllArticles forceRefresh env s = (Normal (latestArticles s), s).
Proof.
  intros Hne ->. unfold fetchAllArticles, try_catch, bind, get, ret. simpl.
  destruct (latestArticles s); [congruence | reflexivity].
Qed.

(** X21.  A non-empty result of [fetchAllArticles] is stable: a later
    call without [forceRefresh] returns the same list and sends no
    request, whatever the network would answer then. *)
Theorem fetchAllArticles_then_cached
        (s : St) (env env' : Journal.Env) (forceRefresh : bool)
        (articles : list NewsArticle) :
  fst (fetchAllArticles getAllArticles forceRefresh env s) = Normal articles ->
  articles <> [] ->
  let s1 := snd (fetchAllArticles getAllArticles forceRefresh env s) in
  fst (fetchAllArticles getAllArticles false env' s1) = Normal articles
  /\ Journal.requests (journal (snd (fetchAllArticles getAllArticles false env' s1)))
     = Journal.requests (journal s1).
Proof.
  intros Hres Hne s1.
  assert (Hcases :
            (latestArticles s1 = articles)
            \/ (latestArticles s1 = []
                /\ Journal.localStorage (journal s1) = Some Journal.Garbage
                /\ articles = getAllArticles)).
  { subst s1. revert Hres.
    unfold fetchAllArticles, try_catch, bind, get, ret, inJournal, modify. simpl.
    destruct (0 <? length (latestArticles s))%nat eqn:Hlen; simpl.
    - destruct forceRefresh; simpl.
      + destruct (Journal.fetchDailyJournalEntries env (journal s))
          as [[daily|e] j'] eqn:Hd; simpl.
        * intros H. injection H as <-. now left.
        * rewrite Hlen. simpl. intros H. injection H as <-. now left.
      + intros H. injection H as <-. now left.
    - destruct (Journal.fetchDailyJournalEntries env (journal s))
        as [[daily|e] j'] eqn:Hd; simpl.
      + intros H. injection H as <-. now left.
      + rewrite Hlen. simpl. intros H. injection H as <-. right.
        assert (Hg : Journal.localStorage (journal s) = Some Journal.Garbage).
        { apply (fetchDaily_throws_iff env). exists e. now rewrite Hd. }
        rewrite (fetchDaily_garbage env _ Hg) in Hd. injection Hd as _ <-.
        destruct (latestArticles s); [auto | discriminate]. }
  destruct Hcases as [Hl | (Hl & Hg & Ha)].
  - rewrite fetchAllArticles_cached by (rewrite ?Hl; auto). simpl.
    split; [now rewrite Hl | reflexivity].
  - unfold fetchAllArticles, try_catch, bind, get, ret, inJournal. simpl.
    rewrite Hl. simpl. rewrite (fetchDaily_garbage env' _ Hg). simpl.
    rewrite Hl. simpl. split; [now rewrite Ha | reflexivity].
Qed.

Hypothesis shuffle_permutes : forall l, Permutation (shuffle l) l.

(** X22.  Over a stored text that parses, and provided the shuffle
    returns a permutation of its argument, the related journal entries
    never hold the current article: every returned article is one of the
    daily entries with another id, and for a limit that is not negative
    there are at most [limit] of them. *)
Theorem fetchRelatedArticles_journal
        (s : St) (env : Journal.Env) (currentArticleId : string) (limit : Z) :
  Journal.localStorage (journal s) <> Some Journal.Garbage ->
  (0 <= limit)%Z ->
  exists daily related,
    fst (Journal.fetchDailyJournalEntries env (journal s)) = Normal daily
    /\ fst (fetchRelatedArticles getRelatedArticles shuffle
                                 currentArticleId "journal" limit env s)
       = Normal related
    /\ length related <= Z.to_nat limit
    /\ (forall a, In a related -> In a daily /\ News.id a <> currentArticleId).
Proof.
  intros Hg Hlimit.
  destruct (Journal.fetchDailyJournalEntries env (journal s)) as [[daily|e] j'] eqn:Hd.
  - exists daily. eexists. split; [reflexivity|].
    unfold fetchRelatedArticles, try_catch, bind, inJournal, ret. simpl.
    rewrite Hd. simpl. split; [reflexivity|]. split.
    + now apply slice0_length.
    + intros a Ha. apply slice0_In in Ha.
      apply (Permutation_in _ (shuffle_permutes _)) in Ha.
      apply List.filter_In in Ha as [Hin Hid]. split; [exact Hin|].
      apply negb_true_iff, String.eqb_neq in Hid. exact Hid.
  - exfalso. apply Hg, (fetchDaily_throws_iff env). exists e. now rewrite Hd.
Qed.
End ReadsMore.

Lemma fetchAllArticles_then_cached_witness :
  fst (NewsService.fetchAllArticles
         Sample.mockAll false Sample.offline
         (snd (NewsService.fetchAllArticles
                 Sample.mockAll true (Sample.online [Sample.quoteC])
                 (NewsService.boot Sample.cachedToday))))
  = Normal [Sample.mockArticle; Sample.entryA; Sample.entryB]
  /\ Journal.requests
       (NewsService.journal
          (snd (NewsService.fetchAllArticles
                  Sample.mockAll false Sample.offline
                  (snd (NewsService.fetchAllArticles
                          Sample.mockAll true (Sample.online [Sample.quoteC])
                          (NewsService.boot Sample.cachedToday))))))
     = Journal.requests
         (NewsService.journal
            (snd (NewsService.fetchAllArticles
                    Sample.mockAll true (Sample.online [Sample.quoteC])
                    (NewsService.boot Sample.cachedToday)))).
Proof.
  apply (fetchAllArticles_then_cached
           Sample.mockAll (NewsService.boot Sample.cachedToday)
           (Sample.online [Sample.quoteC]) Sample.offline true
           [Sample.mockArticle; Sample.entryA; Sample.entryB]).
  - reflexivity.
  - discriminate.
Defined.

Lemma fetchRelatedArticles_journal_witness :
  exists daily related,
    fst (Journal.fetchDailyJournalEntries
           Sample.offline (NewsService.journal (NewsService.boot Sample.cachedToday)))
    = Normal daily
    /\ fst (NewsService.fetchRelatedArticles
              Sample.mockRelated Sample2.noShuffle "id-a" "journal" 3 Sample.offline
              (NewsService.boot Sample.cachedToday))
       = Normal related
    /\ length related <= Z.to_nat 3
    /\ (forall a, In a related -> In a daily /\ News.id a <> "id-a").
Proof.
  apply (fetchRelatedArticles_journal
           Sample.mockRelated Sample2.noShuffle (fun l => Permutation_refl l)
           (NewsService.boot Sample.cachedToday) Sample.offline "id-a" 3).
  - discriminate.
  - lia.
Defined.

(** ** The poller: stopping *)

Section PollerMore.
Import NewsService.

(** X23.  In every state that the poller reaches, [stopArticlePolling]
    leaves no timer and clears [pollingInterval]; a check that is in flight
    is not touched; a second call changes nothing; and from then on a
    timer firing does nothing. *)
Theorem stopArticlePolling_stops (evs : list Event) (j : Journal.St) :
  let s := run evs (boot j) in
  let s' := step CallStop s in
  timers s' = ∅
  /\ pollingInterval s' = None
  /\ suspended s' = suspended s
  /\ isCurrentlyChecking s' = isCurrentlyChecking s
  /\ statusLog s' = statusLog s
  /\ step CallStop s' = s'
  /\ (forall handle t, step (TimerFires handle t) s' = s').
Proof.
  intros s s'. destruct (run_keeps evs (boot j) (boot_keeps j)) as [Hone _].
  fold s in Hone.
  destruct (stop_clears s Hone) as (Ht & Hp & _ & Hsu & Hc).
  change (after stopArticlePolling s) with s' in *.
  repeat split; auto.
  - subst s'. simpl. destruct Hone as [_ Hpoll].
    destruct s as [j0 la pi ic cl tm nt su sl]. simpl in *.
    unfold after, stopArticlePolling, bind, get. simpl.
    destruct pi as [h|]; [|reflexivity].
    destruct Hpoll as (Hh & _). apply Nat.eqb_neq in Hh. now rewrite Hh.
  - simpl. unfold after, stopArticlePolling, bind, get. simpl. now rewrite Hp.
  - intros h t. simpl. now rewrite Ht, lookup_empty.
Qed.
End PollerMore.

(** ** The reads of the MediaStack variant *)

Section MediaStackReadsMore.
Import NewsServiceMediaStack.
Context {W : Type}.
Variable fetchMediaStackArticles : option Category -> Z -> M W (list NewsArticle).
Variable searchMediaStackArticles : string -> Z -> M W (list NewsArticle).
Variable getAllArticles : list NewsArticle.
Variable getArticlesByCategory : Category -> list NewsArticle.
Variable getTrendingArticles : list NewsArticle.
Variable searchArticles : string -> list NewsArticle.
Variable getArticleById : string -> option NewsArticle.
Variable getRelatedArticles : string -> Category -> Z -> list NewsArticle.
Variable shuffle : list NewsArticle -> list NewsArticle.

Lemma mediaStack_reads_always_resolve_aux (s : @St W) (env : Journal.Env) :
  exists r, fst (fetchAllArticles fetchMediaStackArticles getAllArticles
                                  true env s) = Normal r.
Proof.
  apply try_catch_resolves. intros e s'. unfold ret, bind, get. simpl.
  destruct (0 <? length (latestArticles s'))%nat; simpl; eauto.
Qed.

(** X25.  The six reads of the MediaStack variant always resolve,
    whatever the MediaStack client does and whatever the storage holds. *)
Theorem mediaStack_reads_always_resolve
        (s : @St W) (env : Journal.Env) (forceRefresh : bool)
        (category : Category) (query id currentArticleId : string) (limit : Z) :
  (exists r, fst (fetchAllArticles fetchMediaStackArticles getAllArticles
                                   forceRefresh env s) = Normal r)
  /\ (exists r, fst (fetchArticlesByCategory fetchMediaStackArticles
                                             getArticlesByCategory category env s)
                = Normal r)
  /\ (exists r, fst (fetchTrendingArticles fetchMediaStackArticles getAllArticles
                                           getTrendingArticles env s) = Normal r)
  /\ (exists r, fst (searchAllArticles searchMediaStackArticles searchArticles
                                       query env s) = Normal r)
  /\ (exists r, fst (fetchArticleById getArticleById id env s) = Normal r)
  /\ (exists r, fst (fetchRelatedArticles fetchMediaStackArticles getRelatedArticles
                                          shuffle currentArticleId category limit env s)
                = Normal r).
Proof.
  repeat split; apply try_catch_resolves; intros e s'; unfold ret, bind, get; simpl;
    eauto.
  destruct (0 <? length (latestArticles s'))%nat; simpl; eauto.
Qed.

Lemma byId_found_has_id id env j entry :
  fst (Journal.fetchJournalEntryById id env j) = Normal (Some entry) ->
  News.id entry = id.
Proof.
  unfold Journal.fetchJournalEntryById, try_catch, bind, Journal.getItem,
         Journal.JSON_parse, ret, throw.
  assert (Hdaily :
            fst (match Journal.fetchDailyJournalEntries env j with
                 | (Normal all, s1) => (Normal (find (Journal.hasId id) all), s1)
                 | (Thrown err, s1) => (Normal None, s1)
                 end) = Normal (Some entry) ->
            News.id entry = id).
  { destruct (Journal.fetchDailyJournalEntries env j) as [[daily|err] s1]; simpl;
      intros H; [|discriminate].
    injection H as H. now apply find_hasId in H. }
  destruct (Journal.localStorage j) as [[|date [[|e es]|]]|] eqn:Hst;
    cbn -[find Journal.fetchDailyJournalEntries].
  - discriminate.
  - destruct (Journal.fetchDailyJournalEntries env j) as [[daily|err] s1]; exact Hdaily.
  - destruct (find (Journal.hasId id) (e :: es)) as [found|] eqn:Hc.
    + simpl. intros H. injection H as <-. now apply find_hasId in Hc.
    + destruct (Journal.fetchDailyJournalEntries env j) as [[daily|err] s1];
        exact Hdaily.
  - destruct (Journal.fetchDailyJournalEntries env j) as [[daily|err] s1]; exact Hdaily.
  - destruct (Journal.fetchDailyJournalEntries env j) as [[daily|err] s1]; exact Hdaily.
Qed.

(** X26.  In the MediaStack variant [fetchArticleById] answers [null] or
    an article whose [id] is the requested one: the local dataset is not
    consulted, and both the article cache and the journal are searched by
    id.  A hit in the article cache is answered without touching the
    journal or the network. *)
Theorem mediaStack_fetchArticleById
        (s : @St W) (env : Journal.Env) (id : string) :
  (forall entry,
      fst (fetchArticleById getArticleById id env s) = Normal (Some entry) ->
      News.id entry = id)
  /\ (forall cachedArticle,
        find (Journal.hasId id) (latestArticles s) = Some cachedArticle ->
        fetchArticleById getArticleById id env s = (Normal (Some cachedArticle), s)).
Proof.
  split.
  - intros entry. unfold fetchArticleById, try_catch, bind, get, ret, inJournal.
    simpl. destruct (find (Journal.hasId id) (latestArticles s)) as [c|] eqn:Hf; simpl.
    + intros H. injection H as <-. now apply find_hasId in Hf.
    + destruct (Journal.fetchJournalEntryById id env (journal s))
        as [[[found|]|e] j'] eqn:Hj; simpl; try discriminate.
      intros H. injection H as <-.
      apply (byId_found_has_id id env (journal s)). now rewrite Hj.
  - intros c Hf. unfold fetchArticleById, try_catch, bind, get, ret. simpl.
    now rewrite Hf.
Qed.

Lemma filter_all_true {A} (f : A -> bool) (l : list A) (a : A) :
  In a (List.filter f l) -> f a = true.
Proof. intros H. now apply List.filter_In in H. Qed.

(** X27.  In the MediaStack variant, over a stored text that parses, every
    article that [fetchTrendingArticles] returns is trending.  When
    MediaStack articles are cached, the client is not called at all. *)
Theorem mediaStack_fetchTrendingArticles (s : @St W) (env : Journal.Env) :
  Journal.localStorage (journal s) <> Some Journal.Garbage ->
  (exists articles,
      fst (fetchTrendingArticles fetchMediaStackArticles getAllArticles
                                 getTrendingArticles env s) = Normal articles
      /\ forall a, In a articles -> News.trending a = true)
  /\ (latestMediaStackArticles s <> [] ->
      world (snd (fetchTrendingArticles fetchMediaStackArticles getAllArticles
                                        getTrendingArticles env s))
      = world s).
Proof.
  intros Hg.
  destruct (Journal.fetchDailyJournalEntries env (journal s)) as [[daily|e] j'] eqn:Hd;
    [|exfalso; apply Hg, (fetchDaily_throws_iff env); exists e; now rewrite Hd].
  destruct (0 <? length (latestMediaStackArticles s))%nat eqn:Hlen.
  - assert (Hrun :
              fetchTrendingArticles fetchMediaStackArticles getAllArticles
                                    getTrendingArticles env s
              = (Normal (List.filter News.trending (latestMediaStackArticles s)
                         ++ List.filter News.trending daily)%list,
                 mkSt j' (latestArticles s) (latestMediaStackArticles s) (world s))).
    { unfold fetchTrendingArticles, try_catch. unfold bind at 1. unfold inJournal at 1.
      rewrite Hd. cbn [USE_MEDIASTACK_API]. unfold bind at 1, get.
      cbn [latestMediaStackArticles]. rewrite Hlen. reflexivity. }
    rewrite Hrun. simpl. split; [|reflexivity].
    eexists. split; [reflexivity|]. intros a Ha.
    apply in_app_or in Ha as [Ha | Ha]; now apply filter_all_true in Ha.
  - split; [|intros Hne; destruct (latestMediaStackArticles s);
             [congruence | discriminate]].
    unfold fetchTrendingArticles, try_catch. unfold bind at 1. unfold inJournal at 1.
    rewrite Hd. cbn [USE_MEDIASTACK_API]. unfold bind at 1, get.
    cbn [latestMediaStackArticles]. rewrite Hlen.
    set (s1 := mkSt j' (latestArticles s) (latestMediaStackArticles s) (world s)).
    destruct (mediaStack_reads_always_resolve_aux s1 env) as (all & Hall).
    unfold bind.
    destruct (fetchAllArticles fetchMediaStackArticles getAllArticles true env s1)
      as [c s2]. simpl in Hall. subst c. unfold ret. simpl.
    eexists. split; [reflexivity|]. intros a Ha.
    apply in_app_or in Ha as [Ha | Ha]; apply filter_all_true in Ha; auto.
    now apply andb_true_iff in Ha.
Qed.
End MediaStackReadsMore.

Lemma mediaStack_fetchTrendingArticles_witness :
  (exists articles,
      fst (NewsServiceMediaStack.fetchTrendingArticles
             Sample.mediaStackDown Sample.mockAll Sample.mockTrending
             Sample.offline Sample.serviceProviderDown) = Normal articles
      /\ forall a, In a articles -> News.trending a = true)
  /\ (NewsServiceMediaStack.latestMediaStackArticles Sample.serviceProviderDown <> [] ->
      NewsServiceMediaStack.world
        (snd (NewsServiceMediaStack.fetchTrendingArticles
                Sample.mediaStackDown Sample.mockAll Sample.mockTrending
                Sample.offline Sample.serviceProviderDown))
      = NewsServiceMediaStack.world Sample.serviceProviderDown).
Proof.
  apply (mediaStack_fetchTrendingArticles
           Sample.mediaStackDown Sample.mockAll Sample.mockTrending
           Sample.serviceProviderDown Sample.offline).
  discriminate.
Defined.

(* ================================================================== *)
(** * Properties with listeners that may throw                          *)
(* ================================================================== *)

(** ** The fan-out of the journal module *)

Section FanOut.
Import JournalFull.
Variable react : Listener -> list NewsArticle -> Reaction.

Lemma call_run (articles : list NewsArticle) (listener : Listener) (s : St) :
  call react articles listener s
  = (fst (react listener articles (articleUpdateListeners s)),
     mkSt (localStorage s) (lastFetchTimestamp s)
          (snd (react listener articles (articleUpdateListeners s)))
          (requests s) (fanouts s) (delivered s ++ [(listener, articles)])).
Proof. unfold call. now destruct (react listener articles _). Qed.

(** A traversal calls listeners and changes the registry; it leaves the
    record, the timestamp, the request count and the fan-out log, and
    every call it makes passes [articles]. *)
Lemma forEachFrom_frame (articles : list NewsArticle) (remaining : nat) :
  forall k s,
    let s' := snd (forEachFrom articleUpdateListeners (call react articles)
                               remaining k s) in
    localStorage s' = localStorage s
    /\ lastFetchTimestamp s' = lastFetchTimestamp s
    /\ requests s' = requests s
    /\ fanouts s' = fanouts s
    /\ exists called,
         delivered s' = (delivered s ++ map (fun listener => (listener, articles)) called)%list.
Proof.
  induction remaining as [|n IH]; intros k s; simpl.
  - do 4 (split; [reflexivity|]). exists []. simpl. now rewrite app_nil_r.
  - destruct (nth_error (articleUpdateListeners s) k) as [listener|]; [|apply IH].
    unfold bind. rewrite call_run.
    destruct (react listener articles (articleUpdateListeners s)) as [[[]|e] registry];
      cbn [fst snd].
    + match goal with
      | |- context [forEachFrom _ _ n (S k) ?s1] =>
          destruct (IH (S k) s1) as (H1 & H2 & H3 & H4 & called & H5)
      end.
      simpl in *. do 4 (split; [assumption|]).
      exists (listener :: called). rewrite H5. simpl. now rewrite <- app_assoc.
    + simpl. do 4 (split; [reflexivity|]). exists [listener]. reflexivity.
Qed.

Lemma notify_frame (articles : list NewsArticle) (s : St) :
  let s' := snd (notifyArticleUpdateListeners react articles s) in
  localStorage s' = localStorage s
  /\ lastFetchTimestamp s' = lastFetchTimestamp s
  /\ requests s' = requests s
  /\ fanouts s' = (fanouts s ++ [articles])%list
  /\ exists called,
       delivered s' = (delivered s ++ map (fun listener => (listener, articles)) called)%list.
Proof.
  unfold notifyArticleUpdateListeners, bind, modify, forEach. simpl.
  match goal with
  | |- context [forEachFrom _ _ ?n ?k ?s1] =>
      destruct (forEachFrom_frame articles n k s1) as (H1 & H2 & H3 & H4 & H5)
  end.
  simpl in *. do 4 (split; [assumption|]). exact H5.
Qed.

(** When no listener changes the registry, a traversal that comes to its
    end has called the listeners from index [k] on, each once, in
    registration order. *)
Lemma forEachFrom_each (articles : list NewsArticle) (remaining : nat) :
  (forall listener registry, snd (react listener articles registry) = registry) ->
  forall k s,
    (remaining + k = length (articleUpdateListeners s))%nat ->
    let r := forEachFrom articleUpdateListeners (call react articles) remaining k s in
    fst r = Normal tt ->
    articleUpdateListeners (snd r) = articleUpdateListeners s
    /\ delivered (snd r)
       = (delivered s ++ map (fun listener => (listener, articles))
                             (skipn k (articleUpdateListeners s)))%list.
Proof.
  intros Hsame. induction remaining as [|n IH]; intros k s Hlen; simpl.
  - intros _. split; [reflexivity|].
    rewrite skipn_all2 by (simpl in Hlen; lia). simpl. now rewrite app_nil_r.
  - destruct (nth_error (articleUpdateListeners s) k) as [listener|] eqn:Hk.
    2:{ apply nth_error_None in Hk. lia. }
    unfold bind. rewrite call_run.
    pose proof (Hsame listener (articleUpdateListeners s)) as Hreg.
    destruct (react listener articles (articleUpdateListeners s)) as [[[]|e] registry];
      simpl in Hreg; subst registry; cbn [fst snd]; [|discriminate].
    intros Hr.
    match type of Hr with
    | context [forEachFrom _ _ n (S k) ?s1] =>
        destruct (IH (S k) s1) as (H1 & H2); [simpl; lia | exact Hr |]
    end.
    simpl in *. split; [exact H1|]. rewrite H2, <- app_assoc. f_equal.
    clear - Hk. revert k Hk.
    induction (articleUpdateListeners s) as [|x l IHl]; intros [|k] Hk;
      simpl in *; try discriminate.
    + now injection Hk as ->.
    + now apply IHl.
Qed.

Lemma notify_each (articles : list NewsArticle) (s : St) :
  (forall listener registry, snd (react listener articles registry) = registry) ->
  let r := notifyArticleUpdateListeners react articles s in
  fst r = Normal tt ->
  articleUpdateListeners (snd r) = articleUpdateListeners s
  /\ delivered (snd r)
     = (delivered s ++ map (fun listener => (listener, articles))
                           (articleUpdateListeners s))%list.
Proof.
  intros Hsame. unfold notifyArticleUpdateListeners, bind, modify, forEach. simpl.
  intros Hr.
  match type of Hr with
  | context [forEachFrom _ _ ?n ?k ?s1] =>
      destruct (forEachFrom_each articles n Hsame k s1) as (H1 & H2);
        [simpl; lia | exact Hr |]
  end.
  simpl in *. split; assumption.
Qed.

(** A fan-out in which no listener throws comes to its end. *)
Lemma forEachFrom_completes (articles : list NewsArticle) (remaining : nat) :
  (forall listener registry, fst (react listener articles registry) = Normal tt) ->
  forall k s,
    fst (forEachFrom articleUpdateListeners (call react articles) remaining k s)
    = Normal tt.
Proof.
  intros Hreturns. induction remaining as [|n IH]; intros k s; simpl; [reflexivity|].
  destruct (nth_error (articleUpdateListeners s) k) as [listener|]; [|apply IH].
  unfold bind. rewrite call_run, Hreturns. apply IH.
Qed.

Lemma notify_completes (articles : list NewsArticle) (s : St) :
  (forall listener registry, fst (react listener articles registry) = Normal tt) ->
  fst (notifyArticleUpdateListeners react articles s) = Normal tt.
Proof.
  intros Hreturns. unfold notifyArticleUpdateListeners, bind, modify, forEach.
  now apply forEachFrom_completes.
Qed.

(** The first half, by the debounce test and the stored text. *)
Lemma checkBeforeFetch_inside (t : Z) (s : St) :
  (t - lastFetchTimestamp s < 30000)%Z ->
  checkBeforeFetch t s = (Normal None, s).
Proof.
  intros Hwin. unfold checkBeforeFetch, bind, get.
  apply Z.ltb_lt in Hwin. now rewrite Hwin.
Qed.

Lemma checkBeforeFetch_entries (t : Z) (s : St) (cached : list NewsArticle) :
  (30000 <= t - lastFetchTimestamp s)%Z ->
  cachedEntriesOf (localStorage s) = Some cached ->
  checkBeforeFetch t s
  = (Normal (Some cached),
     mkSt (localStorage s) t (articleUpdateListeners s) (requests s)
          (fanouts s) (delivered s)).
Proof.
  intros Hwin Hcached. unfold checkBeforeFetch, bind, get.
  apply Z.ltb_ge in Hwin. rewrite Hwin.
  destruct s as [st ts ls rq fo dl]. cbn [localStorage] in Hcached.
  destruct st as [[| | |date [entries|]]|]; simpl in Hcached;
    try discriminate; injection Hcached as <-; reflexivity.
Qed.

Lemma checkBeforeFetch_throws (t : Z) (s : St) :
  (30000 <= t - lastFetchTimestamp s)%Z ->
  cachedEntriesOf (localStorage s) = None ->
  exists e,
    checkBeforeFetch t s
    = (Thrown e,
       mkSt (localStorage s) t (articleUpdateListeners s) (requests s)
            (fanouts s) (delivered s)).
Proof.
  intros Hwin Hcached. unfold checkBeforeFetch, bind, get.
  apply Z.ltb_ge in Hwin. rewrite Hwin.
  destruct s as [st ts ls rq fo dl]. cbn [localStorage] in Hcached.
  destruct st as [[| | |date [entries|]]|]; simpl in Hcached;
    try discriminate; eexists; reflexivity.
Qed.

(** The second half, by the response and the comparison. *)
Lemma checkAfterFetch_fails (cached : list NewsArticle) (env : Journal.Env) (s : St) :
  failed (Journal.response env) ->
  exists e,
    checkAfterFetch react cached env s
    = (Thrown e,
       mkSt (localStorage s) (lastFetchTimestamp s) (articleUpdateListeners s)
            (S (requests s)) (fanouts s) (delivered s)).
Proof.
  intros Hfail. unfold checkAfterFetch, bind, fetchQuotes, bind, modify.
  destruct (Journal.response env); simpl in Hfail; try contradiction;
    eexists; reflexivity.
Qed.

Lemma checkAfterFetch_compares (cached : list NewsArticle) (env : Journal.Env)
      (s : St) (quotes : list Journal.QuoteResponse) :
  Journal.response env = Journal.Quotes quotes ->
  checkAfterFetch react cached env s
  = if Journal.hasNewContent cached (Journal.transformAll env quotes) then
      match notifyArticleUpdateListeners
              react (Journal.transformAll env quotes)
              (mkSt (Some (Value (Some (Journal.currentDate env))
                                 (Some (Journal.transformAll env quotes))))
                    (lastFetchTimestamp s) (articleUpdateListeners s)
                    (S (requests s)) (fanouts s) (delivered s)) with
      | (Normal _, s') => (Normal true, s')
      | (Thrown e, s') => (Thrown e, s')
      end
    else (Normal false,
          mkSt (localStorage s) (lastFetchTimestamp s) (articleUpdateListeners s)
               (S (requests s)) (fanouts s) (delivered s)).
Proof.
  intros Hresp. unfold checkAfterFetch, bind, fetchQuotes, bind, modify.
  rewrite Hresp. cbn [ret].
  destruct (Journal.hasNewContent cached (Journal.transformAll env quotes));
    [|reflexivity].
  unfold setItem, modify. cbn -[notifyArticleUpdateListeners].
  destruct (notifyArticleUpdateListeners react _ _) as [[[]|e] s']; reflexivity.
Qed.

(** The run of [checkForNewArticles] when the debounce window has passed,
    the stored text gives an empty set of entries and the fetch
    succeeds: the record is written, the fan-out is started, and its
    completion decides the result. *)
Lemma checkForNewArticles_publishes (env : Journal.Env) (s : St)
      (quotes : list Journal.QuoteResponse) :
  (30000 <= Journal.now env - lastFetchTimestamp s)%Z ->
  cachedEntriesOf (localStorage s) = Some [] ->
  Journal.response env = Journal.Quotes quotes ->
  checkForNewArticles react env s
  = match notifyArticleUpdateListeners react (Journal.transformAll env quotes)
                                       (published env quotes s) with
    | (Normal _, s') => (Normal true, s')
    | (Thrown _, s') => (Normal false, s')
    end.
Proof.
  intros Hwin Hcached Hresp.
  unfold checkForNewArticles, try_catch, bind.
  rewrite (checkBeforeFetch_entries _ _ _ Hwin Hcached).
  rewrite (checkAfterFetch_compares _ _ _ _ Hresp).
  cbn [Journal.hasNewContent length Nat.eqb orb].
  unfold published. cbn [localStorage lastFetchTimestamp articleUpdateListeners
                         requests fanouts delivered].
  destruct (notifyArticleUpdateListeners react _ _) as [[[]|e] s']; reflexivity.
Qed.

(** The whole function, by cases. *)
Lemma checkForNewArticles_by_cases (env : Journal.Env) (s : St) :
  (exists s1,
     checkForNewArticles react env s = (Normal false, s1)
     /\ localStorage s1 = localStorage s
     /\ articleUpdateListeners s1 = articleUpdateListeners s
     /\ fanouts s1 = fanouts s
     /\ delivered s1 = delivered s)
  \/ (exists quotes,
        Journal.response env = Journal.Quotes quotes
        /\ checkForNewArticles react env s
           = match notifyArticleUpdateListeners
                     react (Journal.transformAll env quotes)
                     (published env quotes s) with
             | (Normal _, s') => (Normal true, s')
             | (Thrown _, s') => (Normal false, s')
             end).
Proof.
  unfold checkForNewArticles, try_catch, bind.
  destruct (Z_lt_ge_dec (Journal.now env - lastFetchTimestamp s) 30000) as [Hin | Hout].
  { rewrite (checkBeforeFetch_inside _ _ Hin). left. exists s. auto. }
  apply Z.ge_le in Hout.
  destruct (cachedEntriesOf (localStorage s)) as [cached|] eqn:Hcached.
  2:{ destruct (checkBeforeFetch_throws _ _ Hout Hcached) as (e & ->).
      left. eexists. split; [reflexivity|]. auto. }
  rewrite (checkBeforeFetch_entries _ _ _ Hout Hcached).
  destruct (Journal.response env) as [| status | | | quotes] eqn:Hresp;
    try (match goal with
         | |- context [checkAfterFetch react cached env ?s1] =>
             destruct (checkAfterFetch_fails cached env s1) as (e & ->);
               [now rewrite Hresp|]
         end;
         left; eexists; split; [reflexivity|]; auto).
  rewrite (checkAfterFetch_compares _ _ _ _ Hresp).
  destruct (Journal.hasNewContent cached (Journal.transformAll env quotes)).
  - right. exists quotes. split; [reflexivity|].
    unfold published. cbn [localStorage lastFetchTimestamp articleUpdateListeners
                           requests fanouts delivered].
    destruct (notifyArticleUpdateListeners react _ _) as [[[]|e] s']; reflexivity.
  - left. eexists. split; [reflexivity|]. auto.
Qed.
End FanOut.

(** C5, amended.  For every run of [checkForNewArticles] that is past
    the debounce window, starts from an empty cached entry set, whose
    fetch succeeds and whose fan-out comes to its end (no listener
    throws): the call returns [true]; the fan-out is invoked exactly
    once, after the record has been overwritten with the date of today
    and the fresh entries; every listener call made in it passes exactly
    the fresh entries; and, if the listeners leave the registry alone,
    each registered listener is called once, in registration order. *)
Theorem checkForNewArticles_empty_cache_fanout
        (react : Listener -> list NewsArticle -> Reaction)
        (env : Journal.Env) (s : JournalFull.St)
        (quotes : list Journal.QuoteResponse) :
  (30000 <= Journal.now env - JournalFull.lastFetchTimestamp s)%Z ->
  cachedEntriesOf (JournalFull.localStorage s) = Some [] ->
  Journal.response env = Journal.Quotes quotes ->
  fst (JournalFull.notifyArticleUpdateListeners
         react (Journal.transformAll env quotes) (published env quotes s))
  = Normal tt ->
  let latestEntries := Journal.transformAll env quotes in
  let s' := snd (JournalFull.checkForNewArticles react env s) in
  fst (JournalFull.checkForNewArticles react env s) = Normal true
  /\ s' = snd (JournalFull.notifyArticleUpdateListeners
                 react latestEntries (published env quotes s))
  /\ JournalFull.localStorage s'
     = Some (JournalFull.Value (Some (Journal.currentDate env)) (Some latestEntries))
  /\ JournalFull.fanouts s' = (JournalFull.fanouts s ++ [latestEntries])%list
  /\ (exists called,
        JournalFull.delivered s'
        = (JournalFull.delivered s
           ++ map (fun listener => (listener, latestEntries)) called)%list)
  /\ ((forall listener registry,
         snd (react listener latestEntries registry) = registry) ->
      JournalFull.delivered s'
      = (JournalFull.delivered s
         ++ map (fun listener => (listener, latestEntries))
                (JournalFull.articleUpdateListeners s))%list).
Proof.
  intros Hwin Hcached Hresp Hdone latestEntries s'.
  pose proof (checkForNewArticles_publishes react env s quotes Hwin Hcached Hresp)
    as Hrun.
  pose proof (notify_frame react latestEntries (published env quotes s))
    as (H1 & _ & _ & H4 & H5).
  pose proof (notify_each react latestEntries (published env quotes s)) as Heach.
  subst s'. rewrite Hrun. fold latestEntries in Hdone |- *.
  destruct (JournalFull.notifyArticleUpdateListeners react latestEntries
                                                     (published env quotes s))
    as [[[]|e] s1] eqn:Hn; simpl in Hdone; [|discriminate].
  simpl in *. split; [reflexivity|]. split; [reflexivity|].
  do 3 (split; [assumption|]).
  intros Hsame. now apply Heach.
Qed.

Lemma checkForNewArticles_empty_cache_fanout_witness :
  let env := Sample.online [Sample.quoteA] in
  let latestEntries := Journal.transformAll env [Sample.quoteA] in
  let s' := snd (JournalFull.checkForNewArticles Sample3.quiet env Sample3.twoListeners) in
  fst (JournalFull.checkForNewArticles Sample3.quiet env Sample3.twoListeners)
  = Normal true
  /\ JournalFull.localStorage s'
     = Some (JournalFull.Value (Some Sample.today) (Some latestEntries))
  /\ JournalFull.fanouts s' = [latestEntries]
  /\ JournalFull.delivered s' = [(7%nat, latestEntries); (8%nat, latestEntries)].
Proof.
  intros env latestEntries s'.
  pose proof (checkForNewArticles_empty_cache_fanout
                Sample3.quiet env Sample3.twoListeners [Sample.quoteA]
                ltac:(vm_compute; discriminate) eq_refl eq_refl eq_refl)
    as (H1 & _ & H2 & H3 & _ & H5).
  split; [exact H1|]. split; [exact H2|]. split; [exact H3|].
  apply H5. reflexivity.
Defined.

(** C5, as the claim has it, fails when a listener throws: with no
    record, a successful fetch and a first listener that throws, the
    record is overwritten, the second listener is never called, and the
    call returns [false]. *)
Lemma checkForNewArticles_listener_throws_counterexample :
  let env := Sample.online [Sample.quoteA] in
  let s := Sample3.twoListeners in
  let latestEntries := Journal.transformAll env [Sample.quoteA] in
  let r := JournalFull.checkForNewArticles Sample3.oneThrows env s in
  (30000 <= Journal.now env - JournalFull.lastFetchTimestamp s)%Z
  /\ cachedEntriesOf (JournalFull.localStorage s) = Some []
  /\ Journal.response env = Journal.Quotes [Sample.quoteA]
  /\ fst r = Normal false
  /\ JournalFull.localStorage (snd r)
     = Some (JournalFull.Value (Some Sample.today) (Some latestEntries))
  /\ JournalFull.fanouts (snd r) = [latestEntries]
  /\ JournalFull.delivered (snd r) = [(7%nat, latestEntries)].
Proof.
  cbv zeta. split; [vm_compute; discriminate|].
  repeat split; reflexivity.
Qed.


(** A listener that unsubscribes itself while it is called shortens the
    array under the traversal: the listener registered after it is not
    called in this fan-out, nothing throws, and the call returns [true]. *)
Example checkForNewArticles_listener_leaves :
  let env := Sample.online [Sample.quoteA] in
  let latestEntries := Journal.transformAll env [Sample.quoteA] in
  let r := JournalFull.checkForNewArticles Sample3.leaves env Sample3.twoListeners in
  fst r = Normal true
  /\ JournalFull.articleUpdateListeners (snd r) = [8%nat]
  /\ JournalFull.delivered (snd r) = [(7%nat, latestEntries)].
Proof. cbv zeta. repeat split; reflexivity. Qed.

(** X2.  [checkForNewArticles] never rejects, whatever the listeners do.
    It answers [true] only when the response held quotes, the record was
    overwritten and the one fan-out came to its end.  When it answers
    [false], either the record, the registry and the listeners were left
    alone, or a listener threw during the fan-out, after the record had
    been overwritten. *)
Theorem checkForNewArticles_outcomes
        (react : Listener -> list NewsArticle -> Reaction)
        (env : Journal.Env) (s : JournalFull.St) :
  let r := JournalFull.checkForNewArticles react env s in
  (exists b, fst r = Normal b)
  /\ (fst r = Normal true ->
      exists quotes,
        Journal.response env = Journal.Quotes quotes
        /\ JournalFull.notifyArticleUpdateListeners
             react (Journal.transformAll env quotes) (published env quotes s)
           = (Normal tt, snd r)
        /\ JournalFull.localStorage (snd r)
           = Some (JournalFull.Value (Some (Journal.currentDate env))
                                     (Some (Journal.transformAll env quotes)))
        /\ JournalFull.fanouts (snd r)
           = (JournalFull.fanouts s ++ [Journal.transformAll env quotes])%list)
  /\ (fst r = Normal false ->
      (JournalFull.localStorage (snd r) = JournalFull.localStorage s
       /\ JournalFull.articleUpdateListeners (snd r) = JournalFull.articleUpdateListeners s
       /\ JournalFull.fanouts (snd r) = JournalFull.fanouts s
       /\ JournalFull.delivered (snd r) = JournalFull.delivered s)
      \/ (exists quotes e,
            Journal.response env = Journal.Quotes quotes
            /\ JournalFull.notifyArticleUpdateListeners
                 react (Journal.transformAll env quotes) (published env quotes s)
               = (Thrown e, snd r))).
Proof.
  intros r. subst r.
  destruct (checkForNewArticles_by_cases react env s)
    as [(s1 & -> & H1 & H2 & H3 & H4) | (quotes & Hresp & ->)].
  - cbn [fst snd]. split; [eauto|]. split; [discriminate|]. intros _. left. auto.
  - pose proof (notify_frame react (Journal.transformAll env quotes)
                             (published env quotes s)) as (H1 & _ & _ & H4 & _).
    destruct (JournalFull.notifyArticleUpdateListeners react _ _)
      as [[[]|e] s'] eqn:Hn; cbn [fst snd] in *.
    + split; [eauto|]. split; [|discriminate]. intros _. exists quotes. auto.
    + split; [eauto|]. split; [discriminate|]. intros _. right.
      exists quotes, e. auto.
Qed.

(** X5.  [fetchDailyJournalEntries] rejects exactly on a stored text
    that is not empty and on which reading the record throws: with the
    SyntaxError of [JSON.parse] on a malformed text, with the TypeError
    of the destructuring on the text [null]; in both cases before any
    request and without a change of state.  On every other stored text
    it resolves; the empty text counts as no record, and a request is
    sent. *)
Theorem fetchDailyJournalEntries_rejects_by_text
        (env : Journal.Env) (s : JournalFull.St) :
  let r := JournalFull.fetchDailyJournalEntries env s in
  (JournalFull.localStorage s = Some JournalFull.Malformed ->
   r = (Thrown SyntaxError, s))
  /\ (JournalFull.localStorage s = Some JournalFull.NullValue ->
      r = (Thrown TypeError, s))
  /\ (JournalFull.localStorage s <> Some JournalFull.Malformed ->
      JournalFull.localStorage s <> Some JournalFull.NullValue ->
      exists entries, fst r = Normal entries)
  /\ (JournalFull.localStorage s = Some JournalFull.EmptyText ->
      JournalFull.requests (snd r) = S (JournalFull.requests s)).
Proof.
  destruct s as [st ts ls rq fo dl]. cbn [JournalFull.localStorage JournalFull.requests].
  unfold JournalFull.fetchDailyJournalEntries, try_catch, bind, JournalFull.getItem.
  cbn [JournalFull.localStorage].
  split; [intros ->; reflexivity|]. split; [intros ->; reflexivity|]. split.
  - intros Hm Hn.
    destruct st as [[| | |date [[|e es]|]]|]; try congruence;
      cbn [JournalFull.truthy JournalFull.JSON_parse ret throw];
      try destruct (Journal.sameDate date (Journal.currentDate env));
      unfold JournalFull.fetchQuotes, bind, modify;
      destruct (Journal.response env); cbn; eauto.
  - intros ->. cbn [JournalFull.truthy].
    unfold JournalFull.fetchQuotes, bind, modify.
    destruct (Journal.response env); reflexivity.
Qed.

(** The text [null] makes the call reject with a TypeError, also when the
    quotes API is up; the empty text is taken for no record. *)
Example fetchDailyJournalEntries_null_and_empty_text :
  JournalFull.fetchDailyJournalEntries (Sample.online [Sample.quoteA]) Sample3.nullRecord
  = (Thrown TypeError, Sample3.nullRecord)
  /\ fst (JournalFull.fetchDailyJournalEntries Sample.offline Sample3.emptyRecord)
     = Normal []
  /\ JournalFull.requests
       (snd (JournalFull.fetchDailyJournalEntries Sample.offline Sample3.emptyRecord))
     = 1%nat.
Proof. repeat split; reflexivity. Qed.

(** ** Listeners that return: [JournalFull] is [Journal] *)

Section Agreement.
Import JournalFull.
Variable react : Listener -> list NewsArticle -> Reaction.
Hypothesis react_returns :
  forall listener articles registry,
    react listener articles registry = (Normal tt, registry).

Lemma notify_agrees (articles : list NewsArticle) (s : St) :
  fst (notifyArticleUpdateListeners react articles s) = Normal tt
  /\ forget (snd (notifyArticleUpdateListeners react articles s))
     = snd (Journal.notifyArticleUpdateListeners articles (forget s)).
Proof.
  assert (Hdone : fst (notifyArticleUpdateListeners react articles s) = Normal tt).
  { apply notify_completes. intros listener registry. now rewrite react_returns. }
  split; [exact Hdone|].
  pose proof (notify_frame react articles s) as (H1 & H2 & H3 & H4 & _).
  destruct (notify_each react articles s) as (H5 & H6); [|exact Hdone|].
  { intros listener registry. now rewrite react_returns. }
  cbv zeta in *.
  destruct (snd (notifyArticleUpdateListeners react articles s))
    as [st' ts' ls' rq' fo' dl'].
  cbn [localStorage lastFetchTimestamp articleUpdateListeners requests fanouts
       delivered] in *.
  subst. reflexivity.
Qed.

(** With listeners that return, [JournalFull.checkForNewArticles] and
    [Journal.checkForNewArticles] give the same answer and the same
    state, the stored text taken as [seen] shows it. *)
Lemma checkForNewArticles_agrees (env : Journal.Env) (s : St) :
  fst (checkForNewArticles react env s)
  = fst (Journal.checkForNewArticles env (forget s))
  /\ forget (snd (checkForNewArticles react env s))
     = snd (Journal.checkForNewArticles env (forget s)).
Proof.
  unfold checkForNewArticles, Journal.checkForNewArticles, try_catch, bind.
  unfold checkBeforeFetch, Journal.checkBeforeFetch, bind, get.
  destruct s as [st ts ls rq fo dl].
  cbn [forget localStorage lastFetchTimestamp articleUpdateListeners requests
       fanouts delivered Journal.lastFetchTimestamp].
  destruct (Journal.now env - ts <? 30000)%Z; [split; reflexivity|].
  assert (Hafter :
    forall cached st0 ts0,
      let s0 := mkSt st0 ts0 ls rq fo dl in
      fst (match checkAfterFetch react cached env s0 with
           | (Normal a, s') => (Normal a, s')
           | (Thrown e, s') => (Normal false, s')
           end)
      = fst (match Journal.checkAfterFetch cached env (forget s0) with
             | (Normal a, s') => (Normal a, s')
             | (Thrown e, s') => (Normal false, s')
             end)
      /\ forget (snd (match checkAfterFetch react cached env s0 with
                      | (Normal a, s') => (Normal a, s')
                      | (Thrown e, s') => (Normal false, s')
                      end))
         = snd (match Journal.checkAfterFetch cached env (forget s0) with
                | (Normal a, s') => (Normal a, s')
                | (Thrown e, s') => (Normal false, s')
                end)).
  { intros cached st0 ts0 s0. subst s0.
    unfold checkAfterFetch, Journal.checkAfterFetch, bind,
      fetchQuotes, Journal.fetchQuotes, bind, modify.
    cbn [forget localStorage lastFetchTimestamp articleUpdateListeners requests
         fanouts delivered Journal.localStorage Journal.lastFetchTimestamp
         Journal.articleUpdateListeners Journal.requests Journal.fanouts
         Journal.delivered].
    destruct (Journal.response env) as [| status | | | quotes];
      try (split; reflexivity).
    cbn [ret].
    destruct (Journal.hasNewContent cached (Journal.transformAll env quotes));
      [|split; reflexivity].
    unfold setItem, Journal.setItem, modify.
    cbn [localStorage lastFetchTimestamp articleUpdateListeners requests
         fanouts delivered Journal.localStorage Journal.lastFetchTimestamp
         Journal.articleUpdateListeners Journal.requests Journal.fanouts
         Journal.delivered].
    match goal with
    | |- context [notifyArticleUpdateListeners react ?a ?s1] =>
        destruct (notify_agrees a s1) as (Hdone & Hstate);
          destruct (notifyArticleUpdateListeners react a s1) as [[[]|e] s'];
          cbn [fst snd] in Hdone, Hstate; [|discriminate]
    end.
    unfold Journal.notifyArticleUpdateListeners, modify, ret in Hstate |- *.
    cbn in Hstate |- *. split; [reflexivity | exact Hstate]. }
  unfold modify, getItem, Journal.getItem.
  cbn [localStorage lastFetchTimestamp articleUpdateListeners requests
       fanouts delivered Journal.localStorage Journal.lastFetchTimestamp
       Journal.articleUpdateListeners Journal.requests Journal.fanouts
       Journal.delivered].
  destruct st as [[| | |date [entries|]]|];
    cbn [seen truthy JSON_parse Journal.JSON_parse ret throw fst snd];
    try (split; reflexivity);
    match goal with
    | |- context [checkAfterFetch react ?cached env (mkSt ?st0 ?ts0 _ _ _ _)] =>
        apply (Hafter cached st0 ts0)
    end.
Qed.
End Agreement.

(** ** The poller with listeners that may throw *)

Section PollerListeners.
Import PollerFull.
Variable react : Listener -> list NewsArticle -> Reaction.
Variable reactStatus : Listener -> bool -> Reaction.

Local Abbreviation notifyStatus := (notifyCheckingStatusListeners reactStatus).
Local Abbreviation begin := (checkAndNotify_begin reactStatus).
Local Abbreviation resume := (checkAndNotify_resume react reactStatus).

Lemma status_call_run (isChecking : bool) (listener : Listener) (s : St) :
  call reactStatus isChecking listener s
  = (fst (reactStatus listener isChecking (checkingStatusListeners s)),
     mkSt (journal s) (pollingInterval s) (isCurrentlyChecking s)
          (snd (reactStatus listener isChecking (checkingStatusListeners s)))
          (timers s) (nextTimer s) (suspended s)
          (statusLog s ++ [(listener, isChecking)])).
Proof. unfold call. now destruct (reactStatus listener isChecking _). Qed.

(** A status fan-out calls listeners with [isChecking] and may change
    the registry; it leaves the rest of the state. *)
Lemma status_forEachFrom_frame (isChecking : bool) (remaining : nat) :
  forall k s,
    let s' := snd (forEachFrom checkingStatusListeners (call reactStatus isChecking)
                               remaining k s) in
    journal s' = journal s
    /\ pollingInterval s' = pollingInterval s
    /\ isCurrentlyChecking s' = isCurrentlyChecking s
    /\ timers s' = timers s
    /\ nextTimer s' = nextTimer s
    /\ suspended s' = suspended s
    /\ exists called,
         statusLog s'
         = (statusLog s ++ map (fun listener => (listener, isChecking)) called)%list.
Proof.
  induction remaining as [|n IH]; intros k s; simpl.
  - do 6 (split; [reflexivity|]). exists []. simpl. now rewrite app_nil_r.
  - destruct (nth_error (checkingStatusListeners s) k) as [listener|]; [|apply IH].
    unfold bind. rewrite status_call_run.
    destruct (reactStatus listener isChecking (checkingStatusListeners s))
      as [[[]|e] registry]; cbn [fst snd].
    + match goal with
      | |- context [forEachFrom _ _ n (S k) ?s1] =>
          destruct (IH (S k) s1) as (H1 & H2 & H3 & H4 & H5 & H6 & called & H7)
      end.
      simpl in *. do 6 (split; [assumption|]).
      exists (listener :: called). rewrite H7. simpl. now rewrite <- app_assoc.
    + simpl. do 6 (split; [reflexivity|]). exists [listener]. reflexivity.
Qed.

Lemma notifyStatus_frame (isChecking : bool) (s : St) :
  let s' := snd (notifyStatus isChecking s) in
  journal s' = journal s
  /\ pollingInterval s' = pollingInterval s
  /\ isCurrentlyChecking s' = isCurrentlyChecking s
  /\ timers s' = timers s
  /\ nextTimer s' = nextTimer s
  /\ suspended s' = suspended s
  /\ exists called,
       statusLog s'
       = (statusLog s ++ map (fun listener => (listener, isChecking)) called)%list.
Proof. apply status_forEachFrom_frame. Qed.

(** An activation that finds the guard set returns at once. *)
Lemma full_begin_skips (t : Z) (s : St) :
  isCurrentlyChecking s = true -> begin t s = (Normal tt, s).
Proof.
  intros Hguard. unfold checkAndNotify_begin, bind, get. now rewrite Hguard.
Qed.

Lemma callee_begin_total (t : Z) (s : St) :
  exists callee j', callee_begin t s = (Normal callee, set_journal j' s).
Proof.
  unfold callee_begin, inJournal, try_catch, bind.
  destruct (JournalFull.checkBeforeFetch t (journal s)) as [[[cached|]|e] j'];
    cbn; eauto.
Qed.

Lemma full_begin_run (t : Z) (s : St) :
  isCurrentlyChecking s = false ->
  begin t s
  = match notifyStatus true (set_isCurrentlyChecking true s) with
    | (Normal _, s1) =>
        match callee_begin t s1 with
        | (Normal callee, s2) =>
            (Normal tt, set_suspended (suspended s2 ++ [callee]) s2)
        | (Thrown e, s2) => (Thrown e, s2)
        end
    | (Thrown e, s1) => (Thrown e, s1)
    end.
Proof.
  intros Hguard. unfold checkAndNotify_begin, bind, get. rewrite Hguard.
  reflexivity.
Qed.

(** An activation that finds the guard free sets it and calls the
    listeners with [true], outside any [try]: if they all return, the
    callee is started and the activation is suspended; if one throws, the
    activation ends there, with the guard set. *)
Lemma full_begin_starts (t : Z) (s : St) :
  isCurrentlyChecking s = false ->
  let r := notifyStatus true (set_isCurrentlyChecking true s) in
  let s' := after (begin t) s in
  isCurrentlyChecking s' = true
  /\ pollingInterval s' = pollingInterval s
  /\ timers s' = timers s
  /\ nextTimer s' = nextTimer s
  /\ (exists called,
        statusLog s'
        = (statusLog s ++ map (fun listener => (listener, true)) called)%list)
  /\ (fst r = Normal tt ->
      fst (begin t s) = Normal tt
      /\ exists next, suspended s' = (suspended s ++ [next])%list)
  /\ (forall e, fst r = Thrown e ->
                fst (begin t s) = Thrown e /\ s' = snd r /\ suspended s' = suspended s).
Proof.
  intros Hguard r s'. subst r s'.
  pose proof (notifyStatus_frame true (set_isCurrentlyChecking true s))
    as (H1 & H2 & H3 & H4 & H5 & H6 & H7).
  cbn [set_isCurrentlyChecking journal pollingInterval isCurrentlyChecking
       checkingStatusListeners timers nextTimer suspended statusLog]
    in H1, H2, H3, H4, H5, H6, H7.
  unfold after. rewrite (full_begin_run t s Hguard).
  destruct (notifyStatus true (set_isCurrentlyChecking true s)) as [[[]|e] s1];
    cbn [fst snd] in *.
  - destruct (callee_begin_total t s1) as (callee & j' & ->).
    cbn. do 4 (split; [assumption|]). split; [exact H7|].
    split; [|intros e' He'; discriminate].
    intros _. split; [reflexivity|]. rewrite H6. eauto.
  - do 4 (split; [assumption|]). split; [exact H7|].
    split; [discriminate|]. intros e' He'. injection He' as <-. auto.
Qed.

(** The rest of an activation releases the guard and calls the listeners
    with [false], however the callee completed and whether or not a
    listener throws. *)
Lemma full_resume_ends (activation : NewsService.Suspended) (env : Journal.Env)
      (s : St) :
  let s' := after (resume activation env) s in
  isCurrentlyChecking s' = false
  /\ pollingInterval s' = pollingInterval s
  /\ timers s' = timers s
  /\ nextTimer s' = nextTimer s
  /\ suspended s' = suspended s
  /\ exists called,
       statusLog s'
       = (statusLog s ++ map (fun listener => (listener, false)) called)%list.
Proof.
  intros s'. subst s'. unfold after, checkAndNotify_resume, try_finally.
  set (body := match activation with
               | NewsService.AwaitingFetch cachedEntries =>
                   inJournal (try_catch (JournalFull.checkAfterFetch react cachedEntries env)
                                        (fun _ => ret false))
               | NewsService.AwaitingSettled c => fun s0 => (c, s0)
               end).
  assert (Hbody : exists j', snd (body s) = set_journal j' s).
  { subst body. destruct activation as [cached | c].
    - unfold inJournal.
      destruct (try_catch _ _ (journal s)) as [c j']. eauto.
    - exists (journal s). now destruct s. }
  destruct Hbody as (j' & Hbody).
  destruct (body s) as [c s1]. cbn [snd] in Hbody. subst s1.
  unfold bind, modify. cbn [fst snd].
  pose proof (notifyStatus_frame false
                (set_isCurrentlyChecking false (set_journal j' s)))
    as (H1 & H2 & H3 & H4 & H5 & H6 & H7).
  destruct (notifyStatus false _) as [[[]|e] s2]; cbn [fst snd] in *;
    (do 5 (split; [assumption|]); exact H7).
Qed.


End PollerListeners.

(** ** One check at a time, with any listener *)

Section SingleFlight.
Import PollerFull.
Variable react : Listener -> list NewsArticle -> Reaction.
Variable reactStatus : Listener -> bool -> Reaction.

Local Abbreviation notifyStatus := (notifyCheckingStatusListeners reactStatus).
Local Abbreviation begin := (checkAndNotify_begin reactStatus).
Local Abbreviation resume := (checkAndNotify_resume react reactStatus).

(** When the listeners return and leave the registry alone, a status
    fan-out calls the listeners from index [k] on, each once, in
    registration order. *)
Lemma status_forEachFrom_each (isChecking : bool) (remaining : nat) :
  (forall listener registry,
     reactStatus listener isChecking registry = (Normal tt, registry)) ->
  forall k s,
    (remaining + k = length (checkingStatusListeners s))%nat ->
    let r := forEachFrom checkingStatusListeners (call reactStatus isChecking)
                         remaining k s in
    fst r = Normal tt
    /\ checkingStatusListeners (snd r) = checkingStatusListeners s
    /\ statusLog (snd r)
       = (statusLog s ++ map (fun listener => (listener, isChecking))
                             (skipn k (checkingStatusListeners s)))%list.
Proof.
  intros Hquiet. induction remaining as [|n IH]; intros k s Hlen; simpl.
  - split; [reflexivity|]. split; [reflexivity|].
    rewrite skipn_all2 by (simpl in Hlen; lia). simpl. now rewrite app_nil_r.
  - destruct (nth_error (checkingStatusListeners s) k) as [listener|] eqn:Hk.
    2:{ apply nth_error_None in Hk. lia. }
    unfold bind. rewrite status_call_run, Hquiet. cbn [fst snd].
    match goal with
    | |- context [forEachFrom _ _ n (S k) ?s1] =>
        destruct (IH (S k) s1) as (H0 & H1 & H2); [simpl; lia |]
    end.
    simpl in *. split; [exact H0|]. split; [exact H1|].
    rewrite H2, <- app_assoc. f_equal.
    clear - Hk. revert k Hk.
    induction (checkingStatusListeners s) as [|x l IHl]; intros [|k] Hk;
      simpl in *; try discriminate.
    + now injection Hk as ->.
    + now apply IHl.
Qed.

Lemma notifyStatus_each (isChecking : bool) (s : St) :
  (forall listener registry,
     reactStatus listener isChecking registry = (Normal tt, registry)) ->
  fst (notifyStatus isChecking s) = Normal tt
  /\ checkingStatusListeners (snd (notifyStatus isChecking s))
     = checkingStatusListeners s
  /\ statusLog (snd (notifyStatus isChecking s))
     = (statusLog s ++ map (fun listener => (listener, isChecking))
                           (checkingStatusListeners s))%list.
Proof.
  intros Hquiet. unfold notifyCheckingStatusListeners, forEach.
  apply (status_forEachFrom_each isChecking _ Hquiet 0 s). lia.
Qed.

(** The completion of a resumed activation is that of the callee unless
    a listener throws in the [finally] block. *)
Lemma full_resume_completion (activation : NewsService.Suspended)
      (env : Journal.Env) (s : St) :
  (forall listener registry,
     reactStatus listener false registry = (Normal tt, registry)) ->
  statusLog (after (resume activation env) s)
  = (statusLog s ++ map (fun listener => (listener, false))
                        (checkingStatusListeners s))%list
  /\ match activation with
     | NewsService.AwaitingSettled c => fst (resume activation env s) = c
     | NewsService.AwaitingFetch _ => exists b, fst (resume activation env s) = Normal b
     end.
Proof.
  intros Hquiet. unfold after, checkAndNotify_resume, try_finally.
  set (body := match activation with
               | NewsService.AwaitingFetch cachedEntries =>
                   inJournal (try_catch (JournalFull.checkAfterFetch react cachedEntries env)
                                        (fun _ => ret false))
               | NewsService.AwaitingSettled c => fun s0 => (c, s0)
               end).
  assert (Hbody : exists j',
             snd (body s) = set_journal j' s
             /\ match activation with
                | NewsService.AwaitingSettled c => fst (body s) = c
                | NewsService.AwaitingFetch _ => exists b, fst (body s) = Normal b
                end).
  { subst body. destruct activation as [cached | c].
    - unfold inJournal, try_catch.
      destruct (JournalFull.checkAfterFetch react cached env (journal s))
        as [[b|e] j']; cbn; eauto.
    - exists (journal s). split; [now destruct s | reflexivity]. }
  destruct Hbody as (j' & Hstate & Hcompletion).
  destruct (body s) as [c s1]. cbn [fst snd] in Hstate, Hcompletion. subst s1.
  unfold bind, modify. cbn [fst snd].
  destruct (notifyStatus_each false
              (set_isCurrentlyChecking false (set_journal j' s)) Hquiet)
    as (H1 & _ & H3).
  destruct (notifyStatus false _) as [[[]|e] s2]; cbn [fst snd] in *;
    [|discriminate].
  split; [exact H3 | exact Hcompletion].
Qed.

(** A further [startArticlePolling] while the guard is set skips its
    check. *)
Lemma start_skips_check (intervalMs t : Z) (s : St) :
  isCurrentlyChecking s = true ->
  let s' := step react reactStatus (CallStart intervalMs t) s in
  suspended s' = suspended s
  /\ statusLog s' = statusLog s
  /\ isCurrentlyChecking s' = true.
Proof.
  intros Hguard. cbn [step]. unfold after, startArticlePolling, bind, get, dropped.
  destruct (pollingInterval s) as [h|]; [destruct (h =? 0)%nat|];
    cbn [ret clearInterval modify fst snd];
    rewrite (full_begin_skips reactStatus t) by exact Hguard; cbn; auto.
Qed.

(** At most one activation is in flight, and the guard is set while one
    is: this holds in every state that the poller reaches, whatever the
    listeners do. *)
Lemma guarded_begin (t : Z) (s : St) :
  guarded s -> guarded (after (begin t) s).
Proof.
  intros Hg. destruct (isCurrentlyChecking s) eqn:Hc.
  - unfold after. now rewrite (full_begin_skips reactStatus t s Hc).
  - assert (Hnone : suspended s = []).
    { destruct Hg as [H | (a & _ & H)]; [exact H | congruence]. }
    destruct (full_begin_starts reactStatus t s Hc)
      as (H1 & _ & _ & _ & _ & Hgo & Hstop).
    destruct (fst (notifyStatus true (set_isCurrentlyChecking true s)))
      as [[]|e] eqn:Hr.
    + destruct (Hgo eq_refl) as (_ & next & Hnext). right. exists next.
      rewrite Hnext, Hnone. auto.
    + destruct (Hstop e eq_refl) as (_ & _ & Hsame). left. congruence.
Qed.

Lemma guarded_frame (s0 s1 : St) :
  suspended s1 = suspended s0 ->
  isCurrentlyChecking s1 = isCurrentlyChecking s0 ->
  guarded s0 -> guarded s1.
Proof. intros Hs Hc. unfold guarded. now rewrite Hs, Hc. Qed.

Lemma guarded_step (ev : Event) (s : St) :
  guarded s -> guarded (step react reactStatus ev s).
Proof.
  intros Hg.
  destruct ev as [ms t | | h t | k env | l | l | j]; cbn [step].
  - unfold after, startArticlePolling, bind, get, dropped.
    destruct (pollingInterval s) as [h|]; [destruct (h =? 0)%nat|];
      cbn [ret clearInterval modify fst snd];
      match goal with
      | |- context [checkAndNotify_begin reactStatus t ?x] =>
          apply (guarded_frame (after (begin t) x));
            [reflexivity | reflexivity | apply guarded_begin]
      end;
      first [ exact Hg
            | apply (guarded_frame s); [reflexivity | reflexivity | exact Hg] ].
  - unfold after, stopArticlePolling, bind, get.
    destruct (pollingInterval s) as [h|]; [destruct (h =? 0)%nat|]; cbn; exact Hg.
  - destruct (timers s !! h); [|exact Hg]. now apply guarded_begin.
  - destruct (suspended s !! k) as [activation|] eqn:Hk; [|exact Hg].
    destruct (full_resume_ends react reactStatus activation env
                (set_suspended (take k (suspended s) ++ drop (S k) (suspended s)) s))
      as (H1 & _ & _ & _ & H5 & _).
    left. rewrite H5. cbn [suspended set_suspended].
    destruct Hg as [Hnone | (a & Hone & _)].
    + rewrite Hnone in Hk. destruct k; discriminate Hk.
    + rewrite Hone in Hk |- *. destruct k as [|[|k]]; [reflexivity| |];
        discriminate Hk.
  - exact Hg.
  - exact Hg.
  - exact Hg.
Qed.

Lemma guarded_run (evs : list Event) :
  forall s, guarded s -> guarded (run react reactStatus evs s).
Proof.
  induction evs as [|ev evs IH]; intros s Hg; [exact Hg|].
  apply (IH (step react reactStatus ev s)). now apply guarded_step.
Qed.
End SingleFlight.

(** C8, amended.  In every state that the poller reaches, whatever the
    listeners do, at most one activation of [checkAndNotify] is in
    flight and the guard is set while one is; a timer firing then
    changes nothing at all (no listener is called, nothing is queued),
    and the immediate check of a further [startArticlePolling] is
    skipped likewise.  An activation that finds the guard free sets it
    and, if the listeners return and leave the registry alone, calls
    each of them with [true], in registration order, and is suspended at
    the callee.  When it resumes, whichever way [checkForNewArticles]
    completed, the guard is released first; then, if the listeners
    return and leave the registry alone, each of them is called with
    [false], and a callee that threw leaves its error to propagate. *)
Theorem checkAndNotify_attempt
        (react : Listener -> list NewsArticle -> Reaction)
        (reactStatus : Listener -> bool -> Reaction)
        (evs : list PollerFull.Event) (j : JournalFull.St) :
  let s := PollerFull.run react reactStatus evs (PollerFull.boot j) in
  guarded s
  /\ (forall handle t,
        PollerFull.suspended s <> [] ->
        PollerFull.step react reactStatus (PollerFull.TimerFires handle t) s = s)
  /\ (forall intervalMs t,
        PollerFull.suspended s <> [] ->
        let s' := PollerFull.step react reactStatus
                                  (PollerFull.CallStart intervalMs t) s in
        PollerFull.suspended s' = PollerFull.suspended s
        /\ PollerFull.statusLog s' = PollerFull.statusLog s)
  /\ (forall t s0,
        PollerFull.isCurrentlyChecking s0 = false ->
        (forall listener registry,
           reactStatus listener true registry = (Normal tt, registry)) ->
        let s' := PollerFull.after (PollerFull.checkAndNotify_begin reactStatus t) s0 in
        PollerFull.isCurrentlyChecking s' = true
        /\ PollerFull.statusLog s'
           = (PollerFull.statusLog s0
              ++ map (fun listener => (listener, true))
                     (PollerFull.checkingStatusListeners s0))%list
        /\ exists activation,
             PollerFull.suspended s'
             = (PollerFull.suspended s0 ++ [activation])%list)
  /\ (forall activation env s0,
        let r := PollerFull.checkAndNotify_resume react reactStatus activation env s0 in
        PollerFull.isCurrentlyChecking (snd r) = false
        /\ ((forall listener registry,
               reactStatus listener false registry = (Normal tt, registry)) ->
            PollerFull.statusLog (snd r)
            = (PollerFull.statusLog s0
               ++ map (fun listener => (listener, false))
                      (PollerFull.checkingStatusListeners s0))%list
            /\ match activation with
               | NewsService.AwaitingSettled c => fst r = c
               | NewsService.AwaitingFetch _ => exists b, fst r = Normal b
               end))
  /\ (forall activation env,
        PollerFull.suspended s = [activation] ->
        let s' := PollerFull.step react reactStatus (PollerFull.Resumes 0 env) s in
        PollerFull.suspended s' = [] /\ PollerFull.isCurrentlyChecking s' = false).
Proof.
  intros s.
  assert (Hg : guarded s).
  { apply guarded_run. left. reflexivity. }
  assert (Hguard : PollerFull.suspended s <> [] ->
                   PollerFull.isCurrentlyChecking s = true).
  { destruct Hg as [Hnone | (a & _ & Hc)]; [congruence | auto]. }
  split; [exact Hg|]. split; [|split; [|split; [|split]]].
  - intros h t Hin. cbn [PollerFull.step].
    destruct (PollerFull.timers s !! h); [|reflexivity].
    unfold PollerFull.after.
    now rewrite (full_begin_skips reactStatus t s (Hguard Hin)).
  - intros ms t Hin s'. subst s'.
    destruct (start_skips_check react reactStatus ms t s (Hguard Hin))
      as (H1 & H2 & _).
    auto.
  - intros t s0 Hfree Hquiet s'.
    destruct (notifyStatus_each reactStatus true
                (PollerFull.set_isCurrentlyChecking true s0) Hquiet)
      as (Hdone & _ & Hlog).
    destruct (full_begin_starts reactStatus t s0 Hfree)
      as (H1 & _ & _ & _ & _ & Hgo & _).
    destruct (Hgo Hdone) as (_ & next & Hnext).
    fold s' in H1, Hnext. split; [exact H1|]. split; [|eauto].
    subst s'. unfold PollerFull.after.
    rewrite (full_begin_run reactStatus t s0 Hfree).
    destruct (PollerFull.notifyCheckingStatusListeners reactStatus true _)
      as [[[]|e] s1]; cbn [fst snd] in *; [|discriminate].
    destruct (callee_begin_total t s1) as (callee & j' & ->).
    cbn. exact Hlog.
  - intros activation env s0 r. subst r.
    destruct (full_resume_ends react reactStatus activation env s0) as (H1 & _).
    split; [exact H1|]. intros Hquiet.
    apply (full_resume_completion react reactStatus activation env s0 Hquiet).
  - intros activation env Hone s'. subst s'. cbn [PollerFull.step].
    rewrite Hone. cbn [lookup list_lookup take drop app].
    destruct (full_resume_ends react reactStatus activation env
                               (PollerFull.set_suspended [] s))
      as (H1 & _ & _ & _ & H5 & _).
    auto.
Qed.

(** After [startArticlePolling(1000)] the check is in flight; the timer
    then fires and nothing changes, also with an article listener that
    throws. *)
Lemma checkAndNotify_attempt_witness :
  let s := PollerFull.run Sample3.oneThrows Sample3.quiet
             [PollerFull.Subscribes 7; PollerFull.CallStart 1000 60000]
             (PollerFull.boot JournalFull.initial) in
  PollerFull.step Sample3.oneThrows Sample3.quiet (PollerFull.TimerFires 1 61000) s = s
  /\ PollerFull.statusLog s = [(7%nat, true)]
  /\ PollerFull.statusLog
       (PollerFull.step Sample3.oneThrows Sample3.quiet
                        (PollerFull.Resumes 0 Sample.offline) s)
     = [(7%nat, true); (7%nat, false)].
Proof.
  intros s.
  destruct (checkAndNotify_attempt
              Sample3.oneThrows Sample3.quiet
              [PollerFull.Subscribes 7; PollerFull.CallStart 1000 60000]
              JournalFull.initial)
    as (_ & Hskip & _).
  split; [apply Hskip; vm_compute; discriminate|].
  split; reflexivity.
Defined.

(** C8, as the claim has it, fails in two ways.  With a first listener
    that throws when it is told [true], [startArticlePolling] leaves the
    guard set with nothing in flight: the second listener is not told
    [true], nobody is told [false], and the firings of the timer and a
    further [startArticlePolling] change nothing of this.  With a first
    listener that unsubscribes itself when it is told [true], the second
    listener is told [false] at the end without having been told [true]
    at the start. *)
Lemma checkAndNotify_listener_throws_counterexample :
  let s := PollerFull.run Sample3.quiet Sample3.throwsOnTrue
             [PollerFull.Subscribes 7; PollerFull.Subscribes 8;
              PollerFull.CallStart 60000 60000]
             (PollerFull.boot JournalFull.initial) in
  let s' := PollerFull.run Sample3.quiet Sample3.throwsOnTrue
              [PollerFull.TimerFires 1 120000; PollerFull.Resumes 0 Sample.offline;
               PollerFull.CallStart 60000 180000; PollerFull.TimerFires 2 240000]
              s in
  let u := PollerFull.run Sample3.quiet Sample3.leaves
             [PollerFull.Subscribes 7; PollerFull.Subscribes 8;
              PollerFull.CallStart 60000 60000;
              PollerFull.Resumes 0 Sample.offline]
             (PollerFull.boot JournalFull.initial) in
  (PollerFull.isCurrentlyChecking s = true
   /\ PollerFull.suspended s = []
   /\ PollerFull.statusLog s = [(7%nat, true)]
   /\ PollerFull.timers s !! 1%nat = Some 60000%Z
   /\ PollerFull.isCurrentlyChecking s' = true
   /\ PollerFull.statusLog s' = [(7%nat, true)]
   /\ JournalFull.requests (PollerFull.journal s') = 0%nat)
  /\ (PollerFull.isCurrentlyChecking u = false
      /\ PollerFull.statusLog u = [(7%nat, true); (8%nat, false)]).
Proof. cbv zeta. repeat split; reflexivity. Qed.



(** X24.  A check does not block the ones after it, however it ends and
    even if a listener throws at [false]: once the activation in flight
    has resumed, on whatever response, the guard is free and nothing is
    in flight; the next firing of an installed timer sets the guard
    again and calls listeners with [true]; a new activation is then in
    flight if these calls all return, and none is if one of them
    throws.  In between, the status listeners have been called with
    [false] and then with [true], and with nothing else. *)
Theorem poller_next_check
        (react : Listener -> list NewsArticle -> Reaction)
        (reactStatus : Listener -> bool -> Reaction)
        (s : PollerFull.St) (activation : NewsService.Suspended)
        (env : Journal.Env) (handle : nat) (intervalMs t : Z) :
  PollerFull.suspended s = [activation] ->
  PollerFull.timers s !! handle = Some intervalMs ->
  let s1 := PollerFull.step react reactStatus (PollerFull.Resumes 0 env) s in
  let s2 := PollerFull.step react reactStatus (PollerFull.TimerFires handle t) s1 in
  let r := PollerFull.notifyCheckingStatusListeners
             reactStatus true (PollerFull.set_isCurrentlyChecking true s1) in
  PollerFull.isCurrentlyChecking s1 = false
  /\ PollerFull.suspended s1 = []
  /\ PollerFull.isCurrentlyChecking s2 = true
  /\ (fst r = Normal tt -> exists next, PollerFull.suspended s2 = [next])
  /\ (forall e, fst r = Thrown e -> PollerFull.suspended s2 = [])
  /\ exists heardFalse heardTrue,
       PollerFull.statusLog s2
       = (PollerFull.statusLog s
          ++ map (fun listener => (listener, false)) heardFalse
          ++ map (fun listener => (listener, true)) heardTrue)%list.
Proof.
  intros Hsusp Htimer s1 s2 r.
  assert (H1 : PollerFull.isCurrentlyChecking s1 = false
               /\ PollerFull.suspended s1 = []
               /\ PollerFull.timers s1 = PollerFull.timers s
               /\ exists heardFalse,
                    PollerFull.statusLog s1
                    = (PollerFull.statusLog s
                       ++ map (fun listener => (listener, false)) heardFalse)%list).
  { subst s1. cbn [PollerFull.step]. rewrite Hsusp. cbn [lookup list_lookup take drop app].
    destruct (full_resume_ends react reactStatus activation env
                               (PollerFull.set_suspended [] s))
      as (Ha & _ & Hb & _ & Hc & Hd).
    auto. }
  destruct H1 as (Hfree & Hnone & Htimers & heardFalse & Hlog1).
  destruct (full_begin_starts reactStatus t s1 Hfree)
    as (Hset & _ & _ & _ & (heardTrue & Hlog2) & Hgo & Hstop).
  assert (Hs2 : s2 = PollerFull.after (PollerFull.checkAndNotify_begin reactStatus t) s1).
  { subst s2. cbn [PollerFull.step]. now rewrite Htimers, Htimer. }
  rewrite Hs2. fold r in Hgo, Hstop.
  split; [exact Hfree|]. split; [exact Hnone|]. split; [exact Hset|]. split.
  { intros Hr. destruct (Hgo Hr) as (_ & next & Hnext).
    exists next. now rewrite Hnext, Hnone. }
  split.
  { intros e Hr. destruct (Hstop e Hr) as (_ & _ & Hsame). now rewrite Hsame. }
  exists heardFalse, heardTrue. now rewrite Hlog2, Hlog1, <- app_assoc.
Qed.

Lemma poller_next_check_witness :
  let s := PollerFull.run Sample3.quiet Sample3.quiet
             [PollerFull.CallStart 1000 60000; PollerFull.Subscribes 7]
             (PollerFull.boot JournalFull.initial) in
  let s1 := PollerFull.step Sample3.quiet Sample3.quiet
              (PollerFull.Resumes 0 Sample.offline) s in
  let s2 := PollerFull.step Sample3.quiet Sample3.quiet
              (PollerFull.TimerFires 1 100000) s1 in
  PollerFull.isCurrentlyChecking s1 = false
  /\ PollerFull.suspended s1 = []
  /\ PollerFull.isCurrentlyChecking s2 = true
  /\ (exists next, PollerFull.suspended s2 = [next])
  /\ PollerFull.statusLog s2 = [(7%nat, false); (7%nat, true)].
Proof.
  intros s s1 s2.
  pose proof (poller_next_check
                Sample3.quiet Sample3.quiet s
                (NewsService.AwaitingFetch []) Sample.offline 1%nat 1000%Z 100000%Z
                eq_refl eq_refl)
    as (H1 & H2 & H3 & H4 & _).
  split; [exact H1|]. split; [exact H2|]. split; [exact H3|].
  split; [apply H4; reflexivity | reflexivity].
Defined.

(* ================================================================== *)
(** * The theme matcher against the score in words                      *)
(* ================================================================== *)

(** ** Occurrence of a keyword, and counting *)

Section KeywordOverlap.
Import Journal.

Lemma prefix_occurs (a s : string) :
  String.prefix a s = true -> exists behind, s = (a ++ behind)%string.
Proof.
  revert s. induction a as [|x a IH]; intros s H.
  - exists s. reflexivity.
  - destruct s as [|y s]; [discriminate|]. simpl in H.
    destruct (ascii_dec x y) as [<- | _]; [|discriminate].
    destruct (IH s H) as (behind & ->). exists behind. now rewrite append_cons.
Qed.

(** [s.includes(sub)] holds exactly when [sub] occurs in [s]. *)
Lemma includes_occursIn (s sub : string) :
  includes s sub = true <-> occursIn sub s.
Proof.
  split.
  - induction s as [|c r IH]; cbn [includes]; intros H.
    + rewrite orb_false_r in H. apply prefix_occurs in H as (behind & ->).
      exists EmptyString, behind. reflexivity.
    + apply orb_true_iff in H as [H | H].
      * apply prefix_occurs in H as (behind & ->).
        exists EmptyString, behind. reflexivity.
      * destruct (IH H) as (before & behind & ->).
        exists (String c before), behind. now rewrite append_cons.
  - intros (before & behind & ->). apply includes_middle.
Qed.

(** The keywords of the table are in lower case already. *)
Lemma keywords_lower_case :
  forall t keyword,
    In t THEMED_JOURNAL_IMAGES -> In keyword (keywords t) ->
    toLowerCase keyword = keyword.
Proof.
  assert (H : forallb (fun t => forallb (fun keyword =>
                                           String.eqb (toLowerCase keyword) keyword)
                                        (keywords t))
                      THEMED_JOURNAL_IMAGES = true) by (vm_compute; reflexivity).
  intros t keyword Ht Hk.
  rewrite forallb_forall in H. specialize (H t Ht).
  rewrite forallb_forall in H. specialize (H keyword Hk).
  now apply String.eqb_eq in H.
Qed.

(** [matchCount] counts the keywords that occur in the text. *)
Lemma matchCount_occurring (text : string) (t : ThemeImage) :
  In t THEMED_JOURNAL_IMAGES ->
  occurring text (keywords t) (matchCount text t).
Proof.
  intros Ht. unfold matchCount.
  assert (Hlow : forall keyword, In keyword (keywords t) ->
                                 toLowerCase keyword = keyword)
    by (intros; eapply keywords_lower_case; eauto).
  induction (keywords t) as [|keyword l IH]; [constructor|].
  cbn [List.filter]. rewrite (Hlow keyword) by now left.
  assert (IH' := IH (fun k Hk => Hlow k (or_intror Hk))).
  destruct (includes text keyword) eqn:Hinc.
  - cbn [length]. apply occurring_hit; [|exact IH'].
    now apply includes_occursIn.
  - apply occurring_miss; [|exact IH'].
    intros Hocc. apply includes_occursIn in Hocc. congruence.
Qed.

Lemma scoreOf_overlapScore (text : string) (t : ThemeImage) :
  In t THEMED_JOURNAL_IMAGES -> overlapScore text t (scoreOf text t).
Proof.
  intros Ht. exists (matchCount text t). split; [|reflexivity].
  now apply matchCount_occurring.
Qed.

(** The number of keywords that occur is determined by the text. *)
Lemma occurring_functional (text : string) (l : list string) :
  forall n m, occurring text l n -> occurring text l m -> n = m.
Proof.
  induction l as [|keyword l IH]; intros n m Hn Hm;
    inversion Hn; inversion Hm; subst; try reflexivity; try contradiction.
  - f_equal. eauto.
  - eauto.
Qed.
End KeywordOverlap.

(** ** The first best element is unique *)

Section FirstBest.
Context {A : Type}.

Lemma first_best_ext (key key' : A -> Q) (l : list A) (t : A) :
  (forall x, In x l -> key x = key' x) ->
  first_best key l t -> first_best key' l t.
Proof.
  intros Hext (pre & post & -> & Hpre & Hpost).
  assert (Ht : key t = key' t) by (apply Hext, in_or_app; right; now left).
  exists pre, post. split; [reflexivity|]. split.
  - intros p Hp. rewrite <- Ht, <- (Hext p); [auto|].
    apply in_or_app. now left.
  - intros q Hq. rewrite <- Ht, <- (Hext q); [auto|].
    apply in_or_app. right. now right.
Qed.

Lemma first_best_unique (key : A -> Q) (l : list A) (t t' : A) :
  first_best key l t -> first_best key l t' -> t = t'.
Proof.
  intros (pre & post & -> & Hpre & Hpost) (pre' & post' & Heq & Hpre' & Hpost').
  apply app_eq_app in Heq as (mid & [[-> Hmid] | [-> Hmid]]).
  - destruct mid as [|x mid].
    + simpl in Hmid. now injection Hmid.
    + simpl in Hmid. injection Hmid as <- ->.
      assert (H1 : (key t' < key t)%Q)
        by (apply Hpre, in_or_app; right; now left).
      assert (H2 : (key t <= key t')%Q)
        by (apply Hpost', in_or_app; right; now left).
      lra.
  - destruct mid as [|x mid].
    + simpl in Hmid. now injection Hmid.
    + simpl in Hmid. injection Hmid as <- ->.
      assert (H1 : (key t < key t')%Q)
        by (apply Hpre', in_or_app; right; now left).
      assert (H2 : (key t' <= key t)%Q)
        by (apply Hpost, in_or_app; right; now left).
      lra.
Qed.
End FirstBest.

(** C9.  For every quote and tag list, take the text made of the quote,
    a space and the tags joined by spaces, in lower case, and score every
    theme of the table by keyword overlap: the number of its keywords
    that occur in this text over the number of its keywords.  If some
    keyword of some theme occurs in the text, the table has a first best
    theme for this score (every theme before it scores strictly less,
    every theme after it scores no more), and [findRelevantImage]
    returns the image and the description of that theme. *)
Theorem findRelevantImage_keyword_overlap
        (quoteContent : string) (tags : list string) (seed : nat) :
  (exists t keyword,
     In t Journal.THEMED_JOURNAL_IMAGES
     /\ In keyword (Journal.keywords t)
     /\ occursIn keyword
                 (toLowerCase (quoteContent ++ " " ++ String.concat " " tags))) ->
  (exists score best,
     (forall t, In t Journal.THEMED_JOURNAL_IMAGES ->
                overlapScore
                  (toLowerCase (quoteContent ++ " " ++ String.concat " " tags))
                  t (score t))
     /\ first_best score Journal.THEMED_JOURNAL_IMAGES best)
  /\ (forall score best,
        (forall t, In t Journal.THEMED_JOURNAL_IMAGES ->
                   overlapScore
                     (toLowerCase (quoteContent ++ " " ++ String.concat " " tags))
                     t (score t)) ->
        first_best score Journal.THEMED_JOURNAL_IMAGES best ->
        Journal.findRelevantImage quoteContent tags seed
        = Journal.mkImage (Journal.imageUrl best) (Journal.description best)).
Proof.
  intros (t & keyword & Ht & Hk & Hocc).
  change (toLowerCase (quoteContent ++ " " ++ String.concat " " tags))
    with (Journal.combine quoteContent tags) in *.
  set (text := Journal.combine quoteContent tags) in *.
  destruct (findRelevantImage_sorted_head quoteContent tags seed)
    as (best0 & Hbest0 & Himage).
  { exists t. split; [exact Ht|].
    apply (scoreOf_positive _ t keyword Hk).
    rewrite (keywords_lower_case t keyword Ht Hk).
    now apply includes_occursIn. }
  fold text in Hbest0. split.
  - exists (Journal.scoreOf text), best0. split; [|exact Hbest0].
    intros t' Ht'. now apply scoreOf_overlapScore.
  - intros score best Hscore Hbest.
    assert (Hsame : forall x, In x Journal.THEMED_JOURNAL_IMAGES ->
                              score x = Journal.scoreOf text x).
    { intros x Hx. destruct (Hscore x Hx) as (n & Hn & ->).
      destruct (scoreOf_overlapScore text x Hx) as (m & Hm & ->).
      now rewrite (occurring_functional text _ n m Hn Hm). }
    apply (first_best_ext _ _ _ _ Hsame) in Hbest.
    now rewrite (first_best_unique _ _ _ _ Hbest Hbest0).
Qed.

(** On "Strength to overcome and endure" tagged "Persevere", resilience
    has four of its seven keywords in the text and courage two of seven:
    the image is that of resilience. *)
Lemma findRelevantImage_keyword_overlap_witness :
  Journal.findRelevantImage "Strength to overcome and endure" ["Persevere"] 0
  = Journal.mkImage
      "https://images.unsplash.com/photo-1485236715568-ddc5ee6ca227?q=80&w=1000&auto=format&fit=crop"
      "Plant growing through crack in concrete, symbolizing resilience".
Proof.
  destruct (findRelevantImage_keyword_overlap
              "Strength to overcome and endure" ["Persevere"] 0)
    as (_ & Hthe).
  { exists (Journal.mkTheme "courage"
              ["brave"; "strength"; "fearless"; "confidence"; "bold"; "daring"; "overcome"]
              "https://images.unsplash.com/photo-1520116468816-95b69f847357?q=80&w=1000&auto=format&fit=crop"
              "Person standing on mountain peak overlooking vast landscape"),
           "strength".
    split; [do 8 right; left; reflexivity|].
    split; [right; left; reflexivity|].
    exists EmptyString, " to overcome and endure persevere". reflexivity. }
  apply (Hthe (Journal.scoreOf "strength to overcome and endure persevere")
              (Journal.mkTheme "resilience"
                 ["endure"; "overcome"; "persevere"; "adapt"; "recover"; "strength";
                  "determination"]
                 "https://images.unsplash.com/photo-1485236715568-ddc5ee6ca227?q=80&w=1000&auto=format&fit=crop"
                 "Plant growing through crack in concrete, symbolizing resilience")).
  - intros t Ht. now apply scoreOf_overlapScore.
  - exists (firstn 11 Journal.THEMED_JOURNAL_IMAGES), [].
    split; [reflexivity|]. split; [|intros q []].
    intros p Hp. cbn [firstn Journal.THEMED_JOURNAL_IMAGES In] in Hp.
    repeat (destruct Hp as [<- | Hp]; [vm_compute; reflexivity|]).
    contradiction.
Defined.
